(** * Workflow engine, scheduler and orchestrator of ai-task-agent

    A shallow embedding of
    - [backend/workflows/workflow_engine.py]  (module [Engine]),
    - [backend/workflows/scheduler.py]        (module [Scheduler]),
    - [backend/agents/orchestrator.py]        (module [Orchestrator]),
    and the properties of the specification stated over it.

    Python objects that the code mutates in place (workflow steps, the
    execution record, the task tables) are threaded explicitly through the
    functions below.  External collaborators (tools, agents, the expression
    evaluator, the clock, the job scheduler library) are fields of an
    environment record, so every general theorem holds for all of their
    behaviours; the examples instantiate the record with small test doubles. *)

From Stdlib Require Import ZArith Ascii String List Bool Lia.
From stdpp Require Import base tactics option list gmap strings fin_maps.

Set Warnings "-register-all".

Local Open Scope string_scope.
Local Open Scope list_scope.
Local Open Scope Z_scope.

(** ** Python values *)

(** [Any]: the JSON-like values that configs, contexts and results hold, plus
    [datetime] objects.  Floats are not modelled. *)
Inductive value : Type :=
| VNone
| VBool (b : bool)
| VInt (n : Z)
| VStr (s : string)
| VList (l : list value)
| VDict (d : list (string * value))
| VDatetime (ts : Z) (aware : bool).

(** A [dict] with string keys, in insertion order. *)
Abbreviation dict := (list (string * value)).

Fixpoint dict_get (k : string) (d : dict) : option value :=
  match d with
  | [] => None
  | (k', v) :: d' => if String.eqb k k' then Some v else dict_get k d'
  end.

(** [d.get(k, default)] *)
Definition dict_get_default (k : string) (default : value) (d : dict) : value :=
  match dict_get k d with Some v => v | None => default end.

(** [d[k] = v]: replaces in place, or appends a new key. *)
Fixpoint dict_set (k : string) (v : value) (d : dict) : dict :=
  match d with
  | [] => [(k, v)]
  | (k', v') :: d' =>
      if String.eqb k k' then (k, v) :: d' else (k', v') :: dict_set k v d'
  end.

(** [{**a, **b}] *)
Definition dict_merge (a b : dict) : dict :=
  fold_left (fun acc kv => dict_set (fst kv) (snd kv) acc) b a.

(** [bool(v)] *)
Definition truthy (v : value) : bool :=
  match v with
  | VNone => false
  | VBool b => b
  | VInt n => negb (Z.eqb n 0)
  | VStr s => negb (String.eqb s "")
  | VList l => match l with [] => false | _ => true end
  | VDict d => match d with [] => false | _ => true end
  | VDatetime _ _ => true
  end.

(** An [Exception]: its class name and [str(e)].  What is not an
    [Exception] ([KeyboardInterrupt], the cancellation of the running task)
    is not modelled. *)
Record exn : Type := mk_exn { exn_type : string; exn_msg : string }.

(** What awaiting a coroutine can do: return, raise, or never come back. *)
Inductive outcome (A : Type) : Type :=
| Ret (a : A)
| Raise (e : exn)
| Hang.
Arguments Ret {A} a.
Arguments Raise {A} e.
Arguments Hang {A}.

(** [tools/base.py: ToolResult] *)
Record ToolResult : Type := mk_ToolResult {
  tr_success : bool;
  tr_output : string;
  tr_error : option string
}.

(** [agents/base_agent.py: AgentResult] (the fields the core reads) *)
Record AgentResult : Type := mk_AgentResult {
  ar_success : bool;
  ar_output : string;
  ar_artifacts : dict;
  ar_error : option string
}.

Definition opt_str (o : option string) : value :=
  match o with Some s => VStr s | None => VNone end.

(** [value.split(".")]: never empty. *)
Fixpoint split_dot (s : string) : list string :=
  match s with
  | EmptyString => [EmptyString]
  | String c s' =>
      if Ascii.eqb c "."%char then EmptyString :: split_dot s'
      else match split_dot s' with
           | p :: ps => String c p :: ps
           | [] => [String c EmptyString]
           end
  end.

(** Iterating a value with [for x in v]; [None] when [v] is not iterable. *)
Definition py_iter (v : value) : option (list value) :=
  match v with
  | VList l => Some l
  | VDict d => Some (map (fun kv => VStr (fst kv)) d)
  | VStr s => Some (map (fun c => VStr (String c EmptyString)) (list_ascii_of_string s))
  | _ => None
  end.

(** A value used as a number ([bool] is a subclass of [int]). *)
Definition as_number (v : value) : option Z :=
  match v with
  | VInt n => Some n
  | VBool b => Some (if b then 1 else 0)
  | _ => None
  end.

Definition raise {A : Type} (ty msg : string) : outcome A := Raise (mk_exn ty msg).

(** * The workflow execution engine ([workflow_engine.py]) *)
Module Engine.

Inductive StepType : Type :=
| TOOL | AGENT | CONDITION | LOOP | PARALLEL | WAIT | TRANSFORM.

Definition StepType_value (t : StepType) : string :=
  match t with
  | TOOL => "tool" | AGENT => "agent" | CONDITION => "condition"
  | LOOP => "loop" | PARALLEL => "parallel" | WAIT => "wait"
  | TRANSFORM => "transform"
  end.

Inductive StepStatus : Type :=
| PENDING | RUNNING | COMPLETED | FAILED | SKIPPED.

Definition StepStatus_value (s : StepStatus) : string :=
  match s with
  | PENDING => "pending" | RUNNING => "running" | COMPLETED => "completed"
  | FAILED => "failed" | SKIPPED => "skipped"
  end.

Record WorkflowStep : Type := mk_WorkflowStep {
  step_id : string;
  step_name : string;
  step_type : StepType;
  step_config : dict;
  step_inputs : list (string * string);
  step_condition : option string;
  step_on_error : string;
  step_max_retries : Z;
  step_timeout : Z;
  step_status : StepStatus;
  step_result : option dict;
  step_error : option string;
  step_started_at : option Z;
  step_completed_at : option Z
}.

(** Attribute assignments [step.f = x]. *)
Definition set_status (x : StepStatus) (s : WorkflowStep) : WorkflowStep :=
  mk_WorkflowStep (step_id s) (step_name s) (step_type s) (step_config s)
    (step_inputs s) (step_condition s) (step_on_error s) (step_max_retries s)
    (step_timeout s) x (step_result s) (step_error s) (step_started_at s)
    (step_completed_at s).

Definition set_result (x : dict) (s : WorkflowStep) : WorkflowStep :=
  mk_WorkflowStep (step_id s) (step_name s) (step_type s) (step_config s)
    (step_inputs s) (step_condition s) (step_on_error s) (step_max_retries s)
    (step_timeout s) (step_status s) (Some x) (step_error s) (step_started_at s)
    (step_completed_at s).

Definition set_error (x : string) (s : WorkflowStep) : WorkflowStep :=
  mk_WorkflowStep (step_id s) (step_name s) (step_type s) (step_config s)
    (step_inputs s) (step_condition s) (step_on_error s) (step_max_retries s)
    (step_timeout s) (step_status s) (step_result s) (Some x) (step_started_at s)
    (step_completed_at s).

Definition set_started_at (x : Z) (s : WorkflowStep) : WorkflowStep :=
  mk_WorkflowStep (step_id s) (step_name s) (step_type s) (step_config s)
    (step_inputs s) (step_condition s) (step_on_error s) (step_max_retries s)
    (step_timeout s) (step_status s) (step_result s) (step_error s) (Some x)
    (step_completed_at s).

Definition set_completed_at (x : Z) (s : WorkflowStep) : WorkflowStep :=
  mk_WorkflowStep (step_id s) (step_name s) (step_type s) (step_config s)
    (step_inputs s) (step_condition s) (step_on_error s) (step_max_retries s)
    (step_timeout s) (step_status s) (step_result s) (step_error s)
    (step_started_at s) (Some x).

Record Workflow : Type := mk_Workflow {
  wf_id : string;
  wf_name : string;
  wf_description : string;
  wf_version : string;
  wf_steps : list WorkflowStep;
  wf_variables : gmap string value;
  wf_tags : list string
}.

Record WorkflowExecution : Type := mk_WorkflowExecution {
  exec_id : string;
  exec_workflow_id : string;
  exec_status : string;
  exec_current_step : nat;
  exec_started_at : Z;
  exec_completed_at : option Z;
  exec_context : gmap string value;
  exec_step_results : gmap string dict;
  exec_error : option string
}.

Definition set_exec_status (x : string) (e : WorkflowExecution) : WorkflowExecution :=
  mk_WorkflowExecution (exec_id e) (exec_workflow_id e) x (exec_current_step e)
    (exec_started_at e) (exec_completed_at e) (exec_context e)
    (exec_step_results e) (exec_error e).

Definition set_current_step (x : nat) (e : WorkflowExecution) : WorkflowExecution :=
  mk_WorkflowExecution (exec_id e) (exec_workflow_id e) (exec_status e) x
    (exec_started_at e) (exec_completed_at e) (exec_context e)
    (exec_step_results e) (exec_error e).

Definition set_exec_completed_at (x : Z) (e : WorkflowExecution) : WorkflowExecution :=
  mk_WorkflowExecution (exec_id e) (exec_workflow_id e) (exec_status e)
    (exec_current_step e) (exec_started_at e) (Some x) (exec_context e)
    (exec_step_results e) (exec_error e).

Definition set_context (x : gmap string value) (e : WorkflowExecution) : WorkflowExecution :=
  mk_WorkflowExecution (exec_id e) (exec_workflow_id e) (exec_status e)
    (exec_current_step e) (exec_started_at e) (exec_completed_at e) x
    (exec_step_results e) (exec_error e).

Definition set_step_results (x : gmap string dict) (e : WorkflowExecution) : WorkflowExecution :=
  mk_WorkflowExecution (exec_id e) (exec_workflow_id e) (exec_status e)
    (exec_current_step e) (exec_started_at e) (exec_completed_at e)
    (exec_context e) x (exec_error e).

Definition set_exec_error (x : string) (e : WorkflowExecution) : WorkflowExecution :=
  mk_WorkflowExecution (exec_id e) (exec_workflow_id e) (exec_status e)
    (exec_current_step e) (exec_started_at e) (exec_completed_at e)
    (exec_context e) (exec_step_results e) (Some x).

(** An event handed to the handlers by [emit_event]. *)
Record event : Type := mk_event { ev_type : string; ev_data : dict }.

(** What the execution loop did, in order: events it emitted, calls of
    [_execute_step] it awaited, and its own [asyncio.sleep] calls. *)
Inductive action : Type :=
| ActEmit (e : event)
| ActCall (sid : string)
| ActSleep (secs : Z).

(** The collaborators of the engine.  [W] is the state of everything outside
    the engine: tools and agents read and change it, time passes in it. *)
Record Env (W : Type) : Type := mk_Env {
  (** [datetime.now(timezone.utc)] *)
  now : W -> Z;
  (** [str(uuid.uuid4())] *)
  uuid4 : W -> string * W;
  (** [await asyncio.sleep(secs)] *)
  sleep : Z -> W -> W;
  (** whether another task called [cancel] on this execution id while the
      engine was suspended in its last [await] *)
  cancel_requested : W -> string -> bool;
  (** [self.tools]: a registered tool's [execute], applied to the keyword arguments *)
  tools : string -> option (dict -> W -> outcome ToolResult * W);
  (** [self.agents]: a registered agent's [execute(task, context=...)]; the
      agent is handed the context dict itself *)
  agents : string ->
           option (value -> gmap string value -> W ->
                   outcome AgentResult * gmap string value * W);
  (** [EvalWithCompoundTypes(names=context).eval(condition)] *)
  simple_eval : string -> gmap string value -> exn + value;
  json_loads : value -> exn + value;
  json_dumps : value -> exn + string;
  (** [template.format] with the context as keyword arguments *)
  str_format : value -> gmap string value -> exn + string;
  (** [str(v)] *)
  py_str : value -> string
}.
Arguments now {W} _ _.
Arguments uuid4 {W} _ _.
Arguments sleep {W} _ _ _.
Arguments cancel_requested {W} _ _ _.
Arguments tools {W} _ _.
Arguments agents {W} _ _.
Arguments simple_eval {W} _ _ _.
Arguments json_loads {W} _ _.
Arguments json_dumps {W} _ _.
Arguments str_format {W} _ _ _.
Arguments py_str {W} _ _.

Section Steps.
Context {W : Type}.
Variable env : Env W.

(** [_evaluate_condition]: every exception of the evaluator is logged and
    turned into [False].  A condition that is not a string makes the
    evaluator raise as well. *)
Definition _evaluate_condition (condition : value) (context : gmap string value) : bool :=
  match condition with
  | VStr c =>
      match simple_eval env c context with
      | inr result => truthy result
      | inl _ => false
      end
  | _ => false
  end.

Fixpoint resolve_parts (parts : list string) (v : value) : value :=
  match parts with
  | [] => v
  | part :: rest =>
      match v with
      | VDict d => resolve_parts rest (default VNone (dict_get part d))
      | _ => VNone
      end
  end.

(** [_resolve_reference]: the first part is looked up in the context, the
    others in the nested dicts; anything missing gives [None]. *)
Definition _resolve_reference (reference : string) (context : gmap string value) : value :=
  match split_dot reference with
  | [] => VNone
  | part :: rest => resolve_parts rest (default VNone (context !! part))
  end.

(** [_execute_tool_step] *)
Definition _execute_tool_step (config : value) (w : W) : outcome dict * W :=
  match config with
  | VDict config =>
      match dict_get_default "tool" VNone config with
      | VStr tool_name =>
          match tools env tool_name with
          | None => (raise "ValueError" ("Unknown tool: " +:+ tool_name), w)
          | Some tool =>
              match dict_get_default "params" (VDict []) config with
              | VDict params =>
                  match tool params w with
                  | (Ret result, w') =>
                      (Ret [("success", VBool (tr_success result));
                            ("output", VStr (tr_output result));
                            ("error", opt_str (tr_error result))], w')
                  | (Raise e, w') => (Raise e, w')
                  | (Hang, w') => (Hang, w')
                  end
              | _ => (raise "TypeError" "argument after ** must be a mapping", w)
              end
          end
      | VList _ | VDict _ => (raise "TypeError" "unhashable type", w)
      | tool_name => (raise "ValueError" ("Unknown tool: " +:+ py_str env tool_name), w)
      end
  | _ => (raise "AttributeError" "object has no attribute 'get'", w)
  end.

(** [_execute_agent_step] *)
Definition _execute_agent_step (config : value) (context : gmap string value) (w : W)
  : outcome dict * gmap string value * W :=
  match config with
  | VDict config =>
      match dict_get_default "agent" VNone config with
      | VStr agent_name =>
          match agents env agent_name with
          | None => (raise "ValueError" ("Unknown agent: " +:+ agent_name), context, w)
          | Some agent =>
              match agent (dict_get_default "task" (VStr "") config) context w with
              | (Ret result, context', w') =>
                  (Ret [("success", VBool (ar_success result));
                        ("output", VStr (ar_output result));
                        ("artifacts", VDict (ar_artifacts result))], context', w')
              | (Raise e, context', w') => (Raise e, context', w')
              | (Hang, context', w') => (Hang, context', w')
              end
          end
      | VList _ | VDict _ => (raise "TypeError" "unhashable type", context, w)
      | agent_name =>
          (raise "ValueError" ("Unknown agent: " +:+ py_str env agent_name), context, w)
      end
  | _ => (raise "AttributeError" "object has no attribute 'get'", context, w)
  end.

(** [run_task] of [_execute_parallel_step] *)
Definition run_task (task_config : value) (context : gmap string value) (w : W)
  : outcome dict * gmap string value * W :=
  match task_config with
  | VDict d =>
      match dict_get "type" d with
      | Some (VStr "tool") =>
          let '(o, w') := _execute_tool_step task_config w in (o, context, w')
      | Some (VStr "agent") => _execute_agent_step task_config context w
      | _ => (Ret [("error", VStr "Unknown task type")], context, w)
      end
  | _ => (raise "AttributeError" "object has no attribute 'get'", context, w)
  end.

(** The sub-tasks of a PARALLEL step, started in list order.  The model runs
    them one after the other; their interleaving at inner suspension points
    is not represented. *)
Fixpoint run_tasks (tasks : list value) (context : gmap string value) (w : W)
  : list (outcome dict) * gmap string value * W :=
  match tasks with
  | [] => ([], context, w)
  | t :: ts =>
      let '(o, context', w') := run_task t context w in
      let '(os, context'', w'') := run_tasks ts context' w' in
      (o :: os, context'', w'')
  end.

(** [asyncio.gather]: the list of results, or the first exception; it does
    not come back while a sub-task hangs and none has raised. *)
Fixpoint gather (os : list (outcome dict)) : outcome (list value) :=
  match os with
  | [] => Ret []
  | Ret r :: os' =>
      match gather os' with
      | Ret rs => Ret (VDict r :: rs)
      | other => other
      end
  | Raise e :: _ => Raise e
  | Hang :: os' =>
      match gather os' with
      | Raise e => Raise e
      | _ => Hang
      end
  end.

(** [_execute_parallel_step] *)
Definition _execute_parallel_step (config : dict) (context : gmap string value) (w : W)
  : outcome dict * gmap string value * W :=
  match py_iter (dict_get_default "tasks" (VList []) config) with
  | None => (raise "TypeError" "object is not iterable", context, w)
  | Some tasks =>
      let '(os, context', w') := run_tasks tasks context w in
      match gather os with
      | Ret results => (Ret [("results", VList results)], context', w')
      | Raise e => (Raise e, context', w')
      | Hang => (Hang, context', w')
      end
  end.

(** [execution.context[loop_var] = item].  A key that is hashable but not a
    string is stored by Python under that key, where no string lookup sees
    it: the string-keyed context of the model stays as it is. *)
Definition bind_loop_var (loop_var item : value) (context : gmap string value)
  : option (gmap string value) :=
  match loop_var with
  | VStr k => Some (<[k := item]> context)
  | VList _ | VDict _ => None
  | _ => Some context
  end.

(** The [for item in items] of [_execute_loop_step]. *)
Fixpoint loop_items (items : list value) (loop_var loop_body : value)
    (results : list value) (context : gmap string value) (w : W)
  : outcome dict * gmap string value * W :=
  match items with
  | [] => (Ret [("results", VList results)], context, w)
  | item :: items' =>
      match bind_loop_var loop_var item context with
      | None => (raise "TypeError" "unhashable type", context, w)
      | Some context' =>
          match _execute_tool_step loop_body w with
          | (Ret result, w') =>
              loop_items items' loop_var loop_body (results ++ [VDict result]) context' w'
          | (Raise e, w') => (Raise e, context', w')
          | (Hang, w') => (Hang, context', w')
          end
      end
  end.

(** [_execute_loop_step] *)
Definition _execute_loop_step (config : dict) (context : gmap string value) (w : W)
  : outcome dict * gmap string value * W :=
  match py_iter (dict_get_default "items" (VList []) config) with
  | None => (raise "TypeError" "object is not iterable", context, w)
  | Some items =>
      loop_items items (dict_get_default "variable" (VStr "item") config)
        (dict_get_default "body" (VDict []) config) [] context w
  end.

(** [_execute_condition_step] *)
Definition _execute_condition_step (config : dict) (context : gmap string value) (w : W)
  : outcome dict * W :=
  let condition := dict_get_default "condition" (VStr "") config in
  let then_branch := dict_get_default "then" (VDict []) config in
  let else_branch := dict_get_default "else" (VDict []) config in
  if _evaluate_condition condition context then _execute_tool_step then_branch w
  else if truthy else_branch then _execute_tool_step else_branch w
  else (Ret [("skipped", VBool true)], w).

(** [_execute_transform_step] *)
Definition _execute_transform_step (config : dict) (context : gmap string value)
  : outcome dict :=
  let input_data := dict_get_default "input" VNone config in
  let fallthrough := Ret [("result", input_data)] in
  match dict_get_default "transform" (VStr "") config with
  | VStr "json_parse" =>
      match json_loads env input_data with
      | inr v => Ret [("result", v)]
      | inl e => Raise e
      end
  | VStr "json_stringify" =>
      match json_dumps env input_data with
      | inr s => Ret [("result", VStr s)]
      | inl e => Raise e
      end
  | VStr "extract" =>
      match input_data with
      | VDict d =>
          match dict_get_default "key" (VStr "") config with
          | VStr key => Ret [("result", default VNone (dict_get key d))]
          | VList _ | VDict _ => raise "TypeError" "unhashable type"
          | _ => Ret [("result", VNone)]
          end
      | _ => fallthrough
      end
  | VStr "template" =>
      match str_format env (dict_get_default "template" (VStr "") config) context with
      | inr s => Ret [("result", VStr s)]
      | inl e => Raise e
      end
  | _ => fallthrough
  end.

(** The [while elapsed < timeout] of [_execute_wait_step].  [fuel] bounds the
    number of tests of the loop condition; running out of it is [Hang]. *)
Fixpoint wait_poll (fuel : nat) (condition : value) (timeout : Z) (interval : value)
    (elapsed : Z) (context : gmap string value) (w : W) : outcome dict * W :=
  match fuel with
  | O => (Hang, w)
  | S fuel' =>
      if elapsed <? timeout then
        if _evaluate_condition condition context then
          (Ret [("condition_met", VBool true); ("elapsed", VInt elapsed)], w)
        else
          match as_number interval with
          | None => (raise "TypeError" "an integer is required", w)
          | Some iv =>
              wait_poll fuel' condition timeout interval (elapsed + iv) context
                (sleep env iv w)
          end
      else (Ret [("condition_met", VBool false); ("timeout", VBool true)], w)
  end.

(** A poll with a positive interval tests its loop condition at most
    [timeout / interval + 2] times.  With an interval that is not positive
    [elapsed] never grows: a poll that does not stop at its first test never
    stops, which one unit of fuel reports as [Hang]. *)
Definition poll_fuel (timeout : Z) (interval : value) : nat :=
  match as_number interval with
  | Some iv => if 0 <? iv then S (Z.to_nat (timeout / iv + 1)) else 1%nat
  | None => 1%nat
  end.

(** [_execute_wait_step] *)
Definition _execute_wait_step (config : dict) (context : gmap string value) (w : W)
  : outcome dict * W :=
  match dict_get_default "type" (VStr "time") config with
  | VStr "time" =>
      let seconds := dict_get_default "seconds" (VInt 1) config in
      match as_number seconds with
      | Some secs => (Ret [("waited", seconds)], sleep env secs w)
      | None => (raise "TypeError" "an integer is required", w)
      end
  | VStr "condition" =>
      let condition := dict_get_default "condition" (VStr "") config in
      let interval := dict_get_default "interval" (VInt 1) config in
      match as_number (dict_get_default "timeout" (VInt 60) config) with
      | Some timeout =>
          wait_poll (poll_fuel timeout interval) condition timeout interval 0 context w
      | None => (raise "TypeError" "'<' not supported", w)
      end
  | _ => (Ret [], w)
  end.

(** [_execute_step]: resolve the inputs, merge them over the config and
    dispatch on the step type. *)
Definition _execute_step (step : WorkflowStep) (context : gmap string value) (w : W)
  : outcome dict * gmap string value * W :=
  let resolved_inputs :=
    map (fun '(input_name, source) => (input_name, _resolve_reference source context))
        (step_inputs step) in
  let step_config := dict_merge (step_config step) resolved_inputs in
  match step_type step with
  | TOOL => let '(o, w') := _execute_tool_step (VDict step_config) w in (o, context, w')
  | AGENT => _execute_agent_step (VDict step_config) context w
  | PARALLEL => _execute_parallel_step step_config context w
  | LOOP => _execute_loop_step step_config context w
  | CONDITION =>
      let '(o, w') := _execute_condition_step step_config context w in (o, context, w')
  | TRANSFORM => (_execute_transform_step step_config context, context, w)
  | WAIT => let '(o, w') := _execute_wait_step step_config context w in (o, context, w')
  end.

End Steps.

(** ** The execution loop *)

(** [cancel], on the execution object it finds in the table. *)
Definition cancel_execution (t : Z) (execution : WorkflowExecution)
  : bool * WorkflowExecution :=
  if String.eqb (exec_status execution) "running"
  then (true, set_exec_completed_at t (set_exec_status "cancelled" execution))
  else (false, execution).

(** [cancel(execution_id)], on [self.executions], called at time [t]. *)
Definition cancel (executions : gmap string WorkflowExecution) (execution_id : string)
    (t : Z) : bool * gmap string WorkflowExecution :=
  match executions !! execution_id with
  | Some execution =>
      let '(ok, execution') := cancel_execution t execution in
      (ok, if ok then <[execution_id := execution']> executions else executions)
  | None => (false, executions)
  end.

(** [get_execution] *)
Definition get_execution (executions : gmap string WorkflowExecution)
    (execution_id : string) : option WorkflowExecution :=
  executions !! execution_id.

(** The state the loop of [execute] works on: the execution object (the one
    registered in [self.executions]), the outside world and the record of
    what the loop did. *)
Record loop_state (W : Type) : Type := mk_loop_state {
  ls_exec : WorkflowExecution;
  ls_world : W;
  ls_log : list action
}.
Arguments mk_loop_state {W} _ _ _.
Arguments ls_exec {W} _.
Arguments ls_world {W} _.
Arguments ls_log {W} _.

(** How one iteration of the loop ends: it goes on to the next step, an
    exception leaves the loop, or the awaited step never comes back. *)
Inductive flow : Type :=
| Next
| Abort (e : exn)
| Stuck.

Section Execute.
Context {W : Type}.
Variable env : Env W.

(** The execution object when the loop resumes after an [await]: a [cancel]
    that another task called meanwhile has changed it. *)
Definition resume (w : W) (execution : WorkflowExecution) : WorkflowExecution :=
  if cancel_requested env w (exec_id execution)
  then snd (cancel_execution (now env w) execution)
  else execution.

(** [step.condition and ...]: [None] and the empty string are falsy. *)
Definition condition_set (step : WorkflowStep) : option string :=
  match step_condition step with
  | Some c => if String.eqb c "" then None else Some c
  | None => None
  end.

Definition ev_step_skipped (step : WorkflowStep) (reason : string) : action :=
  ActEmit (mk_event "step_skipped"
             [("step_id", VStr (step_id step)); ("reason", VStr reason)]).

Definition ev_step_started (step : WorkflowStep) : action :=
  ActEmit (mk_event "step_started"
             [("step_id", VStr (step_id step)); ("step_name", VStr (step_name step));
              ("step_type", VStr (StepType_value (step_type step)))]).

Definition ev_step_completed (step : WorkflowStep) (result : dict) : action :=
  ActEmit (mk_event "step_completed"
             [("step_id", VStr (step_id step));
              ("result_preview",
               if truthy (VDict result)
               then VStr (String.substring 0 200 (py_str env (VDict result)))
               else VNone)]).

(** [step.condition and not self._evaluate_condition(step.condition, context)] *)
Definition skipped_by_condition (step : WorkflowStep) (context : gmap string value) : bool :=
  match condition_set step with
  | Some c => negb (_evaluate_condition env (VStr c) context)
  | None => false
  end.

(** [for retry in range(step.max_retries)], with [n] iterations left. *)
Fixpoint retry_loop (n : nat) (retry : Z) (step : WorkflowStep) (st : loop_state W)
  : WorkflowStep * loop_state W * flow :=
  match n with
  | O => (step, st, Next)
  | S n' =>
      let w1 := sleep env (2 ^ retry) (ls_world st) in
      let ex1 := resume w1 (ls_exec st) in
      let log1 := ls_log st ++ [ActSleep (2 ^ retry); ActCall (step_id step)] in
      match _execute_step env step (exec_context ex1) w1 with
      | (Ret result, context', w2) =>
          let ex2 := resume w2 (set_context context' ex1) in
          (set_result result (set_status COMPLETED step),
           mk_loop_state ex2 w2 log1, Next)
      | (Raise retry_error, context', w2) =>
          let st2 := mk_loop_state (resume w2 (set_context context' ex1)) w2 log1 in
          if retry =? step_max_retries step - 1
          then (step, st2, Abort retry_error)
          else retry_loop n' (retry + 1) step st2
      | (Hang, _, _) => (step, mk_loop_state ex1 w1 log1, Stuck)
      end
  end.

(** The body of [for i, step in enumerate(workflow.steps)]. *)
Definition run_step (i : nat) (step : WorkflowStep) (st : loop_state W)
  : WorkflowStep * loop_state W * flow :=
  let ex := set_current_step i (ls_exec st) in
  let w := ls_world st in
  if skipped_by_condition step (exec_context ex) then
    (set_status SKIPPED step,
     mk_loop_state ex w (ls_log st ++ [ev_step_skipped step "condition_not_met"]),
     Next)
  else
    let step := set_started_at (now env w) (set_status RUNNING step) in
    let log := ls_log st ++ [ev_step_started step; ActCall (step_id step)] in
    match _execute_step env step (exec_context ex) w with
    | (Ret result, context', w') =>
        let ex := resume w' (set_context context' ex) in
        let step := set_result result (set_status COMPLETED step) in
        let ex := set_step_results (<[step_id step := result]> (exec_step_results ex)) ex in
        let ex :=
          if truthy (VDict result)
          then set_context (<[step_id step +:+ "_output" := VDict result]> (exec_context ex)) ex
          else ex in
        (set_completed_at (now env w') step,
         mk_loop_state ex w' (log ++ [ev_step_completed step result]), Next)
    | (Raise e, context', w') =>
        let ex := resume w' (set_context context' ex) in
        let step := set_error (exn_msg e) step in
        if String.eqb (step_on_error step) "skip" then
          let step := set_status SKIPPED step in
          (set_completed_at (now env w') step,
           mk_loop_state ex w' (log ++ [ev_step_skipped step (exn_msg e)]), Next)
        else if String.eqb (step_on_error step) "retry" && (0 <? step_max_retries step) then
          let '(step, st', f) :=
            retry_loop (Z.to_nat (step_max_retries step)) 0 step (mk_loop_state ex w' log) in
          match f with
          | Next => (set_completed_at (now env (ls_world st')) step, st', Next)
          | _ => (step, st', f)
          end
        else (set_status FAILED step, mk_loop_state ex w' log, Abort e)
    | (Hang, _, _) => (step, mk_loop_state ex w log, Stuck)
    end.

(** [for i, step in enumerate(workflow.steps)]: the steps as the loop leaves
    them, the state, and how the loop ended. *)
Fixpoint run_steps (i : nat) (steps : list WorkflowStep) (st : loop_state W)
  : list WorkflowStep * loop_state W * flow :=
  match steps with
  | [] => ([], st, Next)
  | step :: rest =>
      let '(step', st', f) := run_step i step st in
      match f with
      | Next =>
          let '(rest', st'', f') := run_steps (S i) rest st' in
          (step' :: rest', st'', f')
      | _ => (step' :: rest, st', f)
      end
  end.

Definition set_steps (steps : list WorkflowStep) (workflow : Workflow) : Workflow :=
  mk_Workflow (wf_id workflow) (wf_name workflow) (wf_description workflow)
    (wf_version workflow) steps (wf_variables workflow) (wf_tags workflow).

(** The execution object [execute] creates and registers. *)
Definition new_execution (workflow : Workflow)
    (initial_context : option (gmap string value)) (uuid : string) (t : Z)
  : WorkflowExecution :=
  mk_WorkflowExecution (String.substring 0 12 uuid) (wf_id workflow) "running" 0 t None
    (default ∅ initial_context ∪ wf_variables workflow) ∅ None.

(** The state in which the loop starts: the execution is created and
    registered and [workflow_started] is emitted. *)
Definition initial_state (workflow : Workflow)
    (initial_context : option (gmap string value)) (w : W) : loop_state W :=
  let '(uuid, w0) := uuid4 env w in
  let execution := new_execution workflow initial_context uuid (now env w0) in
  mk_loop_state execution w0
    [ActEmit (mk_event "workflow_started"
                [("execution_id", VStr (exec_id execution));
                 ("workflow_id", VStr (wf_id workflow));
                 ("workflow_name", VStr (wf_name workflow))])].

Definition ev_workflow_completed (ex : WorkflowExecution) (t : Z) : action :=
  ActEmit (mk_event "workflow_completed"
             [("execution_id", VStr (exec_id ex));
              ("duration", VInt (t - exec_started_at ex))]).

Definition ev_workflow_failed (ex : WorkflowExecution) (e : exn) : action :=
  ActEmit (mk_event "workflow_failed"
             [("execution_id", VStr (exec_id ex)); ("error", VStr (exn_msg e))]).

(** [execute]: the workflow object after the run (its steps are mutated in
    place), the execution returned, the world and the record of the run. *)
Definition execute (workflow : Workflow) (initial_context : option (gmap string value))
    (w : W) : outcome (Workflow * WorkflowExecution * W * list action) :=
  let '(steps', st, f) :=
    run_steps 0 (wf_steps workflow) (initial_state workflow initial_context w) in
  let t := now env (ls_world st) in
  match f with
  | Next =>
      let ex := set_exec_completed_at t (set_exec_status "completed" (ls_exec st)) in
      Ret (set_steps steps' workflow, ex, ls_world st,
           ls_log st ++ [ev_workflow_completed ex t])
  | Abort e =>
      let ex :=
        set_exec_completed_at t
          (set_exec_error (exn_msg e) (set_exec_status "failed" (ls_exec st))) in
      Ret (set_steps steps' workflow, ex, ls_world st,
           ls_log st ++ [ev_workflow_failed ex e])
  | Stuck => Hang
  end.

End Execute.

(** ** Notions used by the properties *)

(** The fields that define a step; the others record a run. *)
Definition same_definition (s s' : WorkflowStep) : Prop :=
  step_id s = step_id s' /\ step_name s = step_name s' /\
  step_type s = step_type s' /\ step_config s = step_config s' /\
  step_inputs s = step_inputs s' /\ step_condition s = step_condition s' /\
  step_on_error s = step_on_error s' /\
  step_max_retries s = step_max_retries s' /\ step_timeout s = step_timeout s'.

(** Awaiting the step always comes back, with a result or an exception. *)
Definition never_hangs {W : Type} (env : Env W) (step : WorkflowStep) : Prop :=
  forall context w, (_execute_step env step context w).1.1 <> Hang.

(** Every attempt of the step raises. *)
Definition always_raises {W : Type} (env : Env W) (step : WorkflowStep) : Prop :=
  forall context w, exists e context' w',
    _execute_step env step context w = (Raise e, context', w').

(** What the loop records for [n] retries of a step, the first of them
    numbered [retry]: before each new attempt it sleeps [2 ^ retry] seconds. *)
Fixpoint backoff_log (sid : string) (retry : Z) (n : nat) : list action :=
  match n with
  | O => []
  | S n' => ActSleep (2 ^ retry) :: ActCall sid :: backoff_log sid (retry + 1) n'
  end.

(** The attempts and the sleeps in a record. *)
Definition calls_of (sid : string) (log : list action) : list action :=
  List.filter (fun a => match a with ActCall x => String.eqb x sid | _ => false end) log.

Definition sleeps_of (log : list action) : list Z :=
  omap (fun a => match a with ActSleep n => Some n | _ => None end) log.

(** ** A small world for the examples *)

(** The world of the examples: a clock, the number of tool calls made so far,
    and whether some other task has called [cancel] on the running
    execution. *)
Record TestWorld : Type := mk_TestWorld {
  tw_clock : Z;
  tw_calls : nat;
  tw_cancel : bool
}.

Definition tick (cancelled : bool) (w : TestWorld) : TestWorld :=
  mk_TestWorld (tw_clock w + 1) (S (tw_calls w)) (tw_cancel w || cancelled).

(** Four tools: [calculator] succeeds, [boom] raises at every call, [flaky]
    raises at the first call made in the world and succeeds afterwards,
    [slow] succeeds while another task calls [cancel] on the execution. *)
Definition test_tools (name : string)
  : option (dict -> TestWorld -> outcome ToolResult * TestWorld) :=
  match name with
  | "calculator" =>
      Some (fun _ w => (Ret (mk_ToolResult true "5" None), tick false w))
  | "boom" =>
      Some (fun _ w => (raise "RuntimeError" "boom", tick false w))
  | "flaky" =>
      Some (fun _ w =>
              (match tw_calls w with
               | O => raise "RuntimeError" "not yet"
               | S _ => Ret (mk_ToolResult true "done" None)
               end, tick false w))
  | "slow" =>
      Some (fun _ w => (Ret (mk_ToolResult true "late" None), tick true w))
  | _ => None
  end.

(** A stand-in for the expression evaluator, exact on the expressions the
    examples use: a bare name evaluates to the variable's value, and an
    undefined name raises. *)
Definition test_eval (expr : string) (context : gmap string value) : exn + value :=
  match context !! expr with
  | Some v => inr v
  | None => inl (mk_exn "NameNotDefined" expr)
  end.

(** The other collaborators are not exercised by the examples. *)
Definition test_env : Env TestWorld :=
  mk_Env TestWorld
    (fun w => tw_clock w)
    (fun w => ("3f2b8c1e-7a4d-4e0b-9c55-0d2f6a1b7e90", w))
    (fun secs w => mk_TestWorld (tw_clock w + secs) (tw_calls w) (tw_cancel w))
    (fun w _ => tw_cancel w)
    test_tools
    (fun _ => None)
    test_eval
    (fun v => inl (mk_exn "JSONDecodeError" ""))
    (fun v => inl (mk_exn "TypeError" ""))
    (fun _ _ => inl (mk_exn "KeyError" ""))
    (fun _ => "").

Definition w0 : TestWorld := mk_TestWorld 1000 0 false.

(** A step as [WorkflowStep(id=..., name=..., type=..., config=...)] builds it. *)
Definition new_step (id : string) (ty : StepType) (config : dict)
    (condition : option string) (on_error : string) : WorkflowStep :=
  mk_WorkflowStep id id ty config [] condition on_error 3 300 PENDING None None None None.

Definition tool_step (id tool : string) (on_error : string) : WorkflowStep :=
  new_step id TOOL [("tool", VStr tool); ("params", VDict [])] None on_error.

Definition new_workflow (steps : list WorkflowStep) : Workflow :=
  mk_Workflow "wf1" "example" "" "1.0" steps ∅ [].

(** A WAIT step that polls the condition [ready] every [interval] seconds
    for at most 60 seconds. *)
Definition poll_step (id : string) (interval : Z) : WorkflowStep :=
  new_step id WAIT
    [("type", VStr "condition"); ("condition", VStr "ready");
     ("timeout", VInt 60); ("interval", VInt interval)] None "fail".

(** A WAIT step whose wait type is neither [time] nor [condition]. *)
Definition idle_step (id : string) : WorkflowStep :=
  new_step id WAIT [("type", VStr "manual")] None "fail".

(** A tool step guarded by the condition [ready]. *)
Definition guarded_step : WorkflowStep :=
  new_step "g1" TOOL [("tool", VStr "calculator"); ("params", VDict [])]
    (Some "ready") "fail".

(** The workflows of the examples. *)
Definition sum_workflow : Workflow :=
  new_workflow [tool_step "s1" "calculator" "fail"].

Definition retry_workflow : Workflow :=
  new_workflow [tool_step "s1" "boom" "retry"].

Definition flaky_workflow : Workflow :=
  new_workflow [tool_step "s1" "flaky" "retry"].

Definition cancelled_workflow : Workflow :=
  new_workflow [tool_step "s1" "slow" "fail"; tool_step "s2" "calculator" "fail"].

Definition failing_workflow : Workflow :=
  new_workflow [tool_step "s1" "calculator" "fail"; tool_step "s2" "boom" "fail";
                tool_step "s3" "calculator" "fail"].

Definition polling_workflow : Workflow := new_workflow [poll_step "w1" 0].

Definition idle_workflow : Workflow := new_workflow [idle_step "w1"].

(** ** Further notions *)

(** [{**step.config, **resolved_inputs}], the parameters [_execute_step]
    dispatches on. *)
Definition effective_config (step : WorkflowStep) (context : gmap string value) : dict :=
  dict_merge (step_config step)
    (map (fun '(input_name, source) => (input_name, _resolve_reference source context))
       (step_inputs step)).

(** A string without a dot. *)
Fixpoint dot_free (s : string) : bool :=
  match s with
  | EmptyString => true
  | String c s' => negb (Ascii.eqb c "."%char) && dot_free s'
  end.

(** A step that the loop has gone past. *)
Definition settled (s : WorkflowStep) : Prop :=
  step_status s = COMPLETED \/ step_status s = SKIPPED.

(** The step types whose handlers leave the context alone. *)
Definition keeps_context (t : StepType) : bool :=
  match t with
  | TOOL | CONDITION | TRANSFORM | WAIT => true
  | AGENT | LOOP | PARALLEL => false
  end.

Definition is_call (a : action) : bool :=
  match a with ActCall _ => true | _ => false end.

(** The events of a record that end a run. *)
Definition is_terminal (a : action) : bool :=
  match a with
  | ActEmit e =>
      String.eqb (ev_type e) "workflow_completed" || String.eqb (ev_type e) "workflow_failed"
  | _ => false
  end.

(** A workflow whose first step raises under the policy [skip]. *)
Definition skipping_workflow : Workflow :=
  new_workflow [tool_step "s1" "boom" "skip"; tool_step "s2" "calculator" "fail"].

(** A tool step for a tool that is not registered. *)
Definition unknown_tool_workflow : Workflow :=
  new_workflow [tool_step "s1" "teleport" "fail"].


(** The context after [for item in items: context[k] = item]. *)
Definition bind_all (k : string) (items : list value) (context : gmap string value)
  : gmap string value :=
  fold_left (fun c item => <[k := item]> c) items context.

(** A step that reads the input [x] from [source]. *)
Definition reading_step (source : string) : WorkflowStep :=
  mk_WorkflowStep "r1" "r1" TOOL [("tool", VStr "calculator"); ("x", VInt 1)]
    [("x", source)] None "fail" 3 300 PENDING None None None None.

(** A LOOP step's config: the calculator once for each of [items], bound to
    the variable [n]. *)
Definition loop_config (items : list value) : dict :=
  [("items", VList items); ("variable", VStr "n");
   ("body", VDict [("tool", VStr "calculator")])].

(** A PARALLEL step's config: the calculator beside a sub-task of a type the
    engine does not know. *)
Definition parallel_config : dict :=
  [("tasks", VList [VDict [("type", VStr "tool"); ("tool", VStr "calculator")];
                    VDict [("type", VStr "email")]])].

(** A context that holds the output of a step [s1]. *)
Definition output_context : gmap string value :=
  <["s1_output" := VDict [("success", VBool true); ("output", VStr "5")]]> ∅.

End Engine.

(** * The workflow scheduler ([scheduler.py]) *)
Module Scheduler.

(** [ScheduledTask] *)
Record ScheduledTask : Type := mk_ScheduledTask {
  task_id : string;
  task_workflow_id : string;
  task_name : string;
  task_trigger_type : string;
  task_trigger_config : dict;
  task_variables : dict;
  task_enabled : bool;
  task_created_at : Z;
  task_last_run : option Z;
  task_next_run : option Z;
  task_run_count : Z
}.

Definition set_next_run (x : option Z) (t : ScheduledTask) : ScheduledTask :=
  mk_ScheduledTask (task_id t) (task_workflow_id t) (task_name t) (task_trigger_type t)
    (task_trigger_config t) (task_variables t) (task_enabled t) (task_created_at t)
    (task_last_run t) x (task_run_count t).

(** [database/models.py: ScheduledTaskModel], a row of [scheduled_tasks]. *)
Record ScheduledTaskModel : Type := mk_ScheduledTaskModel {
  row_id : string;
  row_workflow_id : string;
  row_name : string;
  row_trigger_type : string;
  row_trigger_config : string;
  row_variables : option string;
  row_enabled : bool;
  row_created_at : Z;
  row_last_run : option Z;
  row_next_run : option Z;
  row_run_count : Z
}.

(** The trigger objects of the scheduling library, as the arguments their
    constructors are given. *)
Inductive trigger : Type :=
| CronTrigger (minute hour day month day_of_week : value)
| IntervalTrigger (seconds minutes hours days : value)
| DateTrigger (run_date : value).

(** A job of the scheduling library's job store. *)
Record job : Type := mk_job {
  job_id : string;
  job_name : string;
  job_trigger : trigger;
  job_next_run_time : option Z
}.

(** What the scheduler module takes from Python and from the scheduling
    library. *)
Record Lib : Type := mk_Lib {
  (** whether the scheduling library could be imported *)
  SCHEDULER_AVAILABLE : bool;
  (** [datetime.fromisoformat]: the timestamp and whether it carries a zone *)
  fromisoformat : string -> exn + (Z * bool);
  json_loads : string -> exn + value;
  json_dumps : value -> exn + string;
  (** the exception a trigger constructor raises for its arguments, if any *)
  trigger_error : trigger -> option exn;
  (** [job.next_run_time] of a job added with this trigger at time [now] *)
  next_fire_time : trigger -> Z -> option Z
}.

(** The scheduler object: the database rows behind [db_session_factory]
    ([None]: no factory configured), the in-memory task table, the job store
    of [self.scheduler], and the events emitted so far. *)
Record WorkflowScheduler : Type := mk_WorkflowScheduler {
  db_session_factory : option (list ScheduledTaskModel);
  scheduled_tasks : gmap string ScheduledTask;
  jobs : list job;
  events : list Engine.event
}.

Section Scheduler.
Variable lib : Lib.

(** [a < datetime.now(timezone.utc)]: ordering a naive and an aware datetime,
    or a datetime and anything else, raises [TypeError]. *)
Definition before_now (a : value) (now : Z) : exn + bool :=
  match a with
  | VDatetime ts true => inr (ts <? now)
  | VDatetime _ false =>
      inl (mk_exn "TypeError" "can't compare offset-naive and offset-aware datetimes")
  | _ => inl (mk_exn "TypeError" "'<' not supported")
  end.

(** [datetime.fromisoformat(run_date)] *)
Definition parse_date (s : string) : exn + value :=
  match fromisoformat lib s with
  | inr (ts, aware) => inr (VDatetime ts aware)
  | inl e => inl e
  end.

Definition construct (t : trigger) : exn + option trigger :=
  match trigger_error lib t with
  | Some e => inl e
  | None => inr (Some t)
  end.

(** [_create_trigger] *)
Definition _create_trigger (trigger_type : string) (config : dict) : exn + option trigger :=
  if negb (SCHEDULER_AVAILABLE lib) then inr None
  else if String.eqb trigger_type "cron" then
    construct (CronTrigger (dict_get_default "minute" (VStr "*") config)
                           (dict_get_default "hour" (VStr "*") config)
                           (dict_get_default "day" (VStr "*") config)
                           (dict_get_default "month" (VStr "*") config)
                           (dict_get_default "day_of_week" (VStr "*") config))
  else if String.eqb trigger_type "interval" then
    construct (IntervalTrigger (dict_get_default "seconds" (VInt 0) config)
                               (dict_get_default "minutes" (VInt 0) config)
                               (dict_get_default "hours" (VInt 0) config)
                               (dict_get_default "days" (VInt 0) config))
  else if String.eqb trigger_type "date" then
    match dict_get_default "run_date" VNone config with
    | VStr s =>
        match parse_date s with
        | inr run_date => construct (DateTrigger run_date)
        | inl e => inl e
        end
    | run_date => construct (DateTrigger run_date)
    end
  else inr None.

(** [self.scheduler.add_job(..., id=task_id, name=name)] on a started
    scheduler, without [replace_existing]: an id that the job store already
    holds raises [ConflictingIdError]. *)
Definition add_job (t : trigger) (id name : string) (now : Z) (js : list job)
  : exn + (job * list job) :=
  if existsb (fun j => String.eqb (job_id j) id) js
  then inl (mk_exn "ConflictingIdError" id)
  else
    let j := mk_job id name t (next_fire_time lib t now) in
    inr (j, js ++ [j]).

Definition emit_event (event_type : string) (data : dict) (s : WorkflowScheduler)
  : WorkflowScheduler :=
  mk_WorkflowScheduler (db_session_factory s) (scheduled_tasks s) (jobs s)
    (events s ++ [Engine.mk_event event_type data]).

Definition opt_int (o : option Z) : value :=
  match o with Some n => VInt n | None => VNone end.

Definition update_row (task : ScheduledTask) (config variables : string)
    (r : ScheduledTaskModel) : ScheduledTaskModel :=
  mk_ScheduledTaskModel (row_id r) (task_workflow_id task) (task_name task)
    (task_trigger_type task) config (Some variables) (task_enabled task)
    (row_created_at r) (task_last_run task) (task_next_run task) (task_run_count task).

Definition new_row (task : ScheduledTask) (config variables : string) : ScheduledTaskModel :=
  mk_ScheduledTaskModel (task_id task) (task_workflow_id task) (task_name task)
    (task_trigger_type task) config (Some variables) (task_enabled task)
    (task_created_at task) (task_last_run task) (task_next_run task) (task_run_count task).

(** The row with the task's id is updated, the first one the query finds. *)
Fixpoint upsert_row (task : ScheduledTask) (config variables : string)
    (rows : list ScheduledTaskModel) : list ScheduledTaskModel :=
  match rows with
  | [] => [new_row task config variables]
  | r :: rows' =>
      if String.eqb (row_id r) (task_id task)
      then update_row task config variables r :: rows'
      else r :: upsert_row task config variables rows'
  end.

(** [_persist_task]: any exception is logged and the database left as it was. *)
Definition _persist_task (task : ScheduledTask) (s : WorkflowScheduler) : WorkflowScheduler :=
  match db_session_factory s with
  | None => s
  | Some rows =>
      match json_dumps lib (VDict (task_trigger_config task)),
            json_dumps lib (VDict (task_variables task)) with
      | inr config, inr variables =>
          mk_WorkflowScheduler (Some (upsert_row task config variables rows))
            (scheduled_tasks s) (jobs s) (events s)
      | _, _ => s
      end
  end.

(** [schedule]; [uuid] is [str(uuid.uuid4())] and [now] the current time. *)
Definition schedule (workflow_id name trigger_type : string) (trigger_config : dict)
    (variables : option dict) (uuid : string) (now : Z) (s : WorkflowScheduler)
  : outcome (option ScheduledTask) * WorkflowScheduler :=
  if negb (SCHEDULER_AVAILABLE lib) then (Ret None, s)
  else
    let task_id := String.substring 0 12 uuid in
    let task :=
      mk_ScheduledTask task_id workflow_id name trigger_type trigger_config
        (default [] variables) true now None None 0 in
    match _create_trigger trigger_type trigger_config with
    | inl e => (Raise e, s)
    | inr None => (Ret None, s)
    | inr (Some t) =>
        match add_job t task_id name now (jobs s) with
        | inl e => (Raise e, s)
        | inr (j, jobs') =>
            let task := set_next_run (job_next_run_time j) task in
            let s1 :=
              mk_WorkflowScheduler (db_session_factory s)
                (<[task_id := task]> (scheduled_tasks s)) jobs' (events s) in
            let s2 := _persist_task task s1 in
            let s3 :=
              emit_event "task_scheduled"
                [("task_id", VStr task_id); ("workflow_id", VStr workflow_id);
                 ("next_run", opt_int (task_next_run task))] s2 in
            (Ret (Some task), s3)
        end
    end.

(** How loading one row ends. *)
Inductive load_result : Type :=
| Loaded (s : WorkflowScheduler)
| Expired
| LoadError (e : exn).

(** The date check of [load_persisted_tasks]: whether the row is an expired
    date task. *)
Definition expired (trigger_type : string) (trigger_config : dict) (now : Z) : exn + bool :=
  if String.eqb trigger_type "date" then
    let run_date := dict_get_default "run_date" VNone trigger_config in
    let parsed :=
      match run_date with
      | VStr s => if truthy run_date then parse_date s else inr run_date
      | _ => inr run_date
      end in
    match parsed with
    | inl e => inl e
    | inr run_date => if truthy run_date then before_now run_date now else inr false
    end
  else inr false.

(** [json.loads(db_task.variables) if db_task.variables else {}] *)
Definition load_variables (db_task : ScheduledTaskModel) : exn + value :=
  match row_variables db_task with
  | Some text => if String.eqb text "" then inr (VDict []) else json_loads lib text
  | None => inr (VDict [])
  end.

(** The body of [for db_task in db_tasks], inside its [try]. *)
Definition load_task (now : Z) (db_task : ScheduledTaskModel) (s : WorkflowScheduler)
  : load_result :=
  match json_loads lib (row_trigger_config db_task), load_variables db_task with
  | inl e, _ => LoadError e
  | _, inl e => LoadError e
  | inr (VDict trigger_config), inr (VDict variables) =>
      let task :=
        mk_ScheduledTask (row_id db_task) (row_workflow_id db_task) (row_name db_task)
          (row_trigger_type db_task) trigger_config variables (row_enabled db_task)
          (row_created_at db_task) (row_last_run db_task) None (row_run_count db_task) in
      match expired (task_trigger_type task) trigger_config now with
      | inl e => LoadError e
      | inr true => Expired
      | inr false =>
          match _create_trigger (task_trigger_type task) trigger_config with
          | inl e => LoadError e
          | inr (Some t) =>
              if SCHEDULER_AVAILABLE lib then
                match add_job t (task_id task) (task_name task) now (jobs s) with
                | inl e => LoadError e
                | inr (j, jobs') =>
                    let task := set_next_run (job_next_run_time j) task in
                    Loaded (mk_WorkflowScheduler (db_session_factory s)
                              (<[task_id task := task]> (scheduled_tasks s)) jobs' (events s))
                end
              else
                Loaded (mk_WorkflowScheduler (db_session_factory s)
                          (<[task_id task := task]> (scheduled_tasks s)) (jobs s) (events s))
          | inr None =>
              Loaded (mk_WorkflowScheduler (db_session_factory s)
                        (<[task_id task := task]> (scheduled_tasks s)) (jobs s) (events s))
          end
      end
  | _, _ => LoadError (mk_exn "ValidationError" "Input should be a valid dictionary")
  end.

(** [load_persisted_tasks]: the enabled rows are loaded in turn; a row that
    is expired or whose loading raises leaves the scheduler as it was.  The
    query itself is taken to succeed. *)
Definition load_persisted_tasks (now : Z) (s : WorkflowScheduler) : WorkflowScheduler :=
  match db_session_factory s with
  | None => s
  | Some rows =>
      fold_left
        (fun s db_task =>
           match load_task now db_task s with
           | Loaded s' => s'
           | Expired | LoadError _ => s
           end)
        (filter (fun r => row_enabled r = true) rows) s
  end.

End Scheduler.

(** ** Notions used by the properties *)

Definition job_ids (s : WorkflowScheduler) : list string := map job_id (jobs s).

(** The jobs registered under an id. *)
Definition jobs_of (id : string) (s : WorkflowScheduler) : list job :=
  List.filter (fun j => String.eqb (job_id j) id) (jobs s).

(** ** Stand-ins for the examples *)

Definition quoted (s : string) : string :=
  String "034"%char s +:+ String "034"%char EmptyString.

Fixpoint dump_items (d : dict) : option string :=
  match d with
  | [] => Some EmptyString
  | (k, VStr v) :: d' =>
      match dump_items d' with
      | Some rest =>
          Some (quoted k +:+ ": " +:+ quoted v +:+
                (if String.eqb rest "" then "" else ", " +:+ rest))
      | None => None
      end
  | _ => None
  end.

(** [json.dumps], exact on dicts whose values are strings. *)
Definition test_json_dumps (v : value) : exn + string :=
  match v with
  | VDict d =>
      match dump_items d with
      | Some body => inr ("{" +:+ body +:+ "}")
      | None => inl (mk_exn "TypeError" "not JSON serializable")
      end
  | _ => inl (mk_exn "TypeError" "not JSON serializable")
  end.

Definition naive_2030 : string := "2030-01-01T00:00:00".
Definition aware_2030 : string := "2030-01-01T00:00:00+00:00".
Definition aware_2020 : string := "2020-01-01T00:00:00+00:00".

(** The configurations the examples store. *)
Definition known_configs : list dict :=
  [ []; [("run_date", VStr naive_2030)]; [("run_date", VStr aware_2030)];
    [("run_date", VStr aware_2020)]; [("minute", VStr "0"); ("hour", VStr "6")] ].

(** [json.loads], exact on the texts that [test_json_dumps] gives for the
    known configurations. *)
Definition test_json_loads (text : string) : exn + value :=
  match
    List.find
      (fun c => match test_json_dumps (VDict c) with
                | inr t => String.eqb t text
                | inl _ => false
                end) known_configs
  with
  | Some c => inr (VDict c)
  | None => inl (mk_exn "JSONDecodeError" text)
  end.

(** [datetime.fromisoformat], exact on three dates. *)
Definition test_fromisoformat (s : string) : exn + (Z * bool) :=
  if String.eqb s naive_2030 then inr (1893456000, false)
  else if String.eqb s aware_2030 then inr (1893456000, true)
  else if String.eqb s aware_2020 then inr (1577836800, true)
  else inl (mk_exn "ValueError" ("Invalid isoformat string: " +:+ s)).

(** The trigger constructors accept a date that is a datetime or [None],
    and every cron or interval field of the examples. *)
Definition test_trigger_error (t : trigger) : option exn :=
  match t with
  | DateTrigger (VDatetime _ _) | DateTrigger VNone => None
  | DateTrigger _ => Some (mk_exn "TypeError" "Unsupported type for run_date")
  | _ => None
  end.

(** A date trigger fires at its date; the others a minute from now. *)
Definition test_next_fire_time (t : trigger) (now : Z) : option Z :=
  match t with
  | DateTrigger (VDatetime ts _) => Some ts
  | DateTrigger _ => Some now
  | _ => Some (now + 60)
  end.

Definition test_lib : Lib :=
  mk_Lib true test_fromisoformat test_json_loads test_json_dumps
    test_trigger_error test_next_fire_time.

(** The same without the scheduling library. *)
Definition test_lib_no_backend : Lib :=
  mk_Lib false test_fromisoformat test_json_loads test_json_dumps
    test_trigger_error test_next_fire_time.

(** A scheduler with a database and nothing scheduled. *)
Definition empty_scheduler : WorkflowScheduler :=
  mk_WorkflowScheduler (Some []) ∅ [] [].

(** The process restarts: the database stays, the memory is gone. *)
Definition restart (s : WorkflowScheduler) : WorkflowScheduler :=
  mk_WorkflowScheduler (db_session_factory s) ∅ [] [].

(** 4 November 2026, 00:00 UTC. *)
Definition today : Z := 1793750400.

Definition test_uuid : string := "9d1c4b7e-52aa-4f3e-8b0d-6c1e2f3a4b5c".

(** ** Pausing, resuming, cancelling and running a task *)

Definition set_enabled (x : bool) (t : ScheduledTask) : ScheduledTask :=
  mk_ScheduledTask (task_id t) (task_workflow_id t) (task_name t) (task_trigger_type t)
    (task_trigger_config t) (task_variables t) x (task_created_at t)
    (task_last_run t) (task_next_run t) (task_run_count t).

(** [task.last_run = now; task.run_count += 1] *)
Definition count_run (now : Z) (t : ScheduledTask) : ScheduledTask :=
  mk_ScheduledTask (task_id t) (task_workflow_id t) (task_name t) (task_trigger_type t)
    (task_trigger_config t) (task_variables t) (task_enabled t) (task_created_at t)
    (Some now) (task_next_run t) (task_run_count t + 1).

Definition set_job_next_run_time (x : option Z) (j : job) : job :=
  mk_job (job_id j) (job_name j) (job_trigger j) x.

Definition set_jobs (js : list job) (s : WorkflowScheduler) : WorkflowScheduler :=
  mk_WorkflowScheduler (db_session_factory s) (scheduled_tasks s) js (events s).

Definition set_scheduled_tasks (tasks : gmap string ScheduledTask) (s : WorkflowScheduler)
  : WorkflowScheduler :=
  mk_WorkflowScheduler (db_session_factory s) tasks (jobs s) (events s).

(** [self.scheduler.get_job(job_id)]: the job, or [None]. *)
Definition get_job (id : string) (js : list job) : option job :=
  List.find (fun j => String.eqb (job_id j) id) js.

(** The scheduling library's [JobLookupError]. *)
Definition lookup_error (id : string) : exn := mk_exn "JobLookupError" id.

Definition modify_job (id : string) (next_run_time : option Z) (js : list job) : list job :=
  map (fun j => if String.eqb (job_id j) id then set_job_next_run_time next_run_time j else j)
    js.

(** [self.scheduler.pause_job(job_id)]: the job loses its next run time. *)
Definition pause_job (id : string) (js : list job) : exn + list job :=
  match get_job id js with
  | None => inl (lookup_error id)
  | Some _ => inr (modify_job id None js)
  end.

(** [self.scheduler.remove_job(job_id)] *)
Definition remove_job (id : string) (js : list job) : exn + list job :=
  match get_job id js with
  | None => inl (lookup_error id)
  | Some _ => inr (List.filter (fun j => negb (String.eqb (job_id j) id)) js)
  end.

(** The dict [get_stats] returns for these counts. *)
Definition stats_of (total enabled : nat) (runs : Z) (running : bool) : dict :=
  [("total_tasks", VInt (Z.of_nat total));
   ("enabled_tasks", VInt (Z.of_nat enabled));
   ("disabled_tasks", VInt (Z.of_nat total - Z.of_nat enabled));
   ("total_runs", VInt runs);
   ("scheduler_running", VBool running)].

Section Control.
Variable lib : Lib.

(** [self.scheduler.resume_job(job_id)]: the next run time is computed anew
    from the trigger; a trigger that has none left has its job removed. *)
Definition resume_job (id : string) (now : Z) (js : list job) : exn + list job :=
  match get_job id js with
  | None => inl (lookup_error id)
  | Some j =>
      match next_fire_time lib (job_trigger j) now with
      | Some t => inr (modify_job id (Some t) js)
      | None => remove_job id js
      end
  end.

(** [_delete_persisted_task] *)
Definition _delete_persisted_task (id : string) (s : WorkflowScheduler) : WorkflowScheduler :=
  match db_session_factory s with
  | None => s
  | Some rows =>
      mk_WorkflowScheduler
        (Some (List.filter (fun r => negb (String.eqb (row_id r) id)) rows))
        (scheduled_tasks s) (jobs s) (events s)
  end.

(** [pause].  The task object is the one the table holds: its [enabled] is
    assigned in place. *)
Definition pause (id : string) (s : WorkflowScheduler) : outcome bool * WorkflowScheduler :=
  if negb (SCHEDULER_AVAILABLE lib) then (Ret false, s)
  else
    match scheduled_tasks s !! id with
    | None => (Ret false, s)
    | Some task =>
        match pause_job id (jobs s) with
        | inl e => (Raise e, s)
        | inr jobs' =>
            let task := set_enabled false task in
            let s1 := set_jobs jobs' (set_scheduled_tasks (<[id := task]> (scheduled_tasks s)) s) in
            (Ret true, emit_event "task_paused" [("task_id", VStr id)] (_persist_task lib task s1))
        end
    end.

(** [resume] *)
Definition resume (id : string) (now : Z) (s : WorkflowScheduler)
  : outcome bool * WorkflowScheduler :=
  if negb (SCHEDULER_AVAILABLE lib) then (Ret false, s)
  else
    match scheduled_tasks s !! id with
    | None => (Ret false, s)
    | Some task =>
        match resume_job id now (jobs s) with
        | inl e => (Raise e, s)
        | inr jobs' =>
            let task := set_enabled true task in
            let task :=
              match get_job id jobs' with
              | Some j => set_next_run (job_next_run_time j) task
              | None => task
              end in
            let s1 := set_jobs jobs' (set_scheduled_tasks (<[id := task]> (scheduled_tasks s)) s) in
            (Ret true, emit_event "task_resumed" [("task_id", VStr id)] (_persist_task lib task s1))
        end
    end.

(** [cancel] *)
Definition cancel (id : string) (s : WorkflowScheduler) : outcome bool * WorkflowScheduler :=
  match scheduled_tasks s !! id with
  | None => (Ret false, s)
  | Some _ =>
      match (if SCHEDULER_AVAILABLE lib then remove_job id (jobs s) else inr (jobs s)) with
      | inl e => (Raise e, s)
      | inr jobs' =>
          let s1 := set_jobs jobs' (set_scheduled_tasks (delete id (scheduled_tasks s)) s) in
          (Ret true,
           emit_event "task_cancelled" [("task_id", VStr id)] (_delete_persisted_task id s1))
      end
  end.

(** What [get_stats] counts. *)
Definition total_tasks (s : WorkflowScheduler) : nat := size (scheduled_tasks s).

Definition enabled_tasks (s : WorkflowScheduler) : nat :=
  size (filter (fun kv => task_enabled kv.2 = true) (scheduled_tasks s)).

(** [sum(t.run_count for t in self.scheduled_tasks.values())] *)
Definition total_runs (s : WorkflowScheduler) : Z :=
  map_fold (fun _ t acc => task_run_count t + acc) 0 (scheduled_tasks s).

(** [get_stats].  The scheduler of the library is started when the object is
    built and the model has no [shutdown]: it is running when the library is
    there. *)
Definition get_stats (s : WorkflowScheduler) : dict :=
  stats_of (total_tasks s) (enabled_tasks s) (total_runs s) (SCHEDULER_AVAILABLE lib).

End Control.

Section Run.
Context {W : Type}.
Variable lib : Lib.
Variable env : Engine.Env W.

(** What a scheduled run leaves: the task object, the workflow table of the
    manager, the world, the scheduler, and the record of the engine. *)
Record run_result : Type := mk_run_result {
  run_task : ScheduledTask;
  run_workflows : gmap string Engine.Workflow;
  run_world : W;
  run_scheduler : WorkflowScheduler;
  run_log : list Engine.action
}.

(** [_run_workflow], called by the job of [task].  [workflows] is the table
    [workflow_manager.get] reads; the engine works on the workflow object of
    the table.  An id is given to one task object only, so the object the
    table holds under the id of [task] is [task] itself, and what is
    assigned to [task] shows in the table.  A run of the engine that does not
    come back keeps [_run_workflow] from coming back. *)
Definition _run_workflow (workflows : gmap string Engine.Workflow) (task : ScheduledTask)
    (w : W) (s : WorkflowScheduler) : outcome run_result :=
  let s1 :=
    emit_event "scheduled_run_started"
      [("task_id", VStr (task_id task)); ("workflow_id", VStr (task_workflow_id task))] s in
  match workflows !! task_workflow_id task with
  | None =>
      Ret (mk_run_result task workflows w
             (emit_event "scheduled_run_failed"
                [("task_id", VStr (task_id task)); ("error", VStr "Workflow not found")] s1)
             [])
  | Some workflow =>
      match Engine.execute env workflow (Some (list_to_map (task_variables task))) w with
      | Hang => Hang
      | Raise e =>
          Ret (mk_run_result task workflows w
                 (emit_event "scheduled_run_failed"
                    [("task_id", VStr (task_id task)); ("error", VStr (exn_msg e))] s1)
                 [])
      | Ret (workflow', execution, w', log) =>
          let task := count_run (Engine.now env w') task in
          let held := bool_decide (is_Some (scheduled_tasks s !! task_id task)) in
          let task :=
            if SCHEDULER_AVAILABLE lib && held then
              match get_job (task_id task) (jobs s) with
              | Some j => set_next_run (job_next_run_time j) task
              | None => task
              end
            else task in
          let s2 :=
            if held
            then set_scheduled_tasks (<[task_id task := task]> (scheduled_tasks s1)) s1
            else s1 in
          let s3 := _persist_task lib task s2 in
          Ret (mk_run_result task (<[task_workflow_id task := workflow']> workflows) w'
                 (emit_event "scheduled_run_completed"
                    [("task_id", VStr (task_id task));
                     ("execution_id", VStr (Engine.exec_id execution));
                     ("status", VStr (Engine.exec_status execution))] s3)
                 log)
      end
  end.

End Run.

(** A row that holds the fields [_persist_task] writes for [task]. *)
Definition holds_task (task : ScheduledTask) (config variables : string)
    (r : ScheduledTaskModel) : Prop :=
  row_id r = task_id task /\ row_workflow_id r = task_workflow_id task /\
  row_name r = task_name task /\ row_trigger_type r = task_trigger_type task /\
  row_trigger_config r = config /\ row_variables r = Some variables /\
  row_enabled r = task_enabled task /\ row_last_run r = task_last_run task /\
  row_next_run r = task_next_run task /\ row_run_count r = task_run_count task.

(** ** Further stand-ins for the examples *)

(** The task that scheduling a nightly run of [wf1] gives, and the scheduler
    after it. *)
Definition nightly_task : ScheduledTask :=
  mk_ScheduledTask "9d1c4b7e-52a" "wf1" "nightly" "cron"
    [("minute", VStr "0"); ("hour", VStr "6")] [] true today None (Some (today + 60)) 0.

Definition nightly_scheduler : WorkflowScheduler :=
  (schedule test_lib "wf1" "nightly" "cron" [("minute", VStr "0"); ("hour", VStr "6")]
     None test_uuid today empty_scheduler).2.

(** The text [json.dumps] gives for the trigger config of the nightly task. *)
Definition nightly_config_text : string :=
  "{" +:+ quoted "minute" +:+ ": " +:+ quoted "0" +:+ ", " +:+
  quoted "hour" +:+ ": " +:+ quoted "6" +:+ "}".

(** The same scheduler after the scheduling library has dropped the job. *)
Definition jobless_scheduler : WorkflowScheduler := set_jobs [] nightly_scheduler.

(** The workflow table of the manager in the examples. *)
Definition test_workflows : gmap string Engine.Workflow :=
  <["wf1" := Engine.failing_workflow]> ∅.

End Scheduler.

(** * The orchestrator's task decomposition ([orchestrator.py]) *)
Module Orchestrator.

(** [AgentRole] *)
Inductive AgentRole : Type :=
| ORCHESTRATOR | RESEARCHER | CODER | ANALYST | EXECUTOR.

Definition AgentRole_value (r : AgentRole) : string :=
  match r with
  | ORCHESTRATOR => "orchestrator" | RESEARCHER => "researcher" | CODER => "coder"
  | ANALYST => "analyst" | EXECUTOR => "executor"
  end.

(** An entry of [TaskDecomposition.subtasks]. *)
Record subtask : Type := mk_subtask {
  sub_id : string;
  sub_description : string;
  sub_agent : AgentRole;
  sub_status : string
}.

Definition set_sub_status (x : string) (t : subtask) : subtask :=
  mk_subtask (sub_id t) (sub_description t) (sub_agent t) x.

Record TaskDecomposition : Type := mk_TaskDecomposition {
  original_task : string;
  subtasks : list subtask;
  dependencies : gmap string (list string);
  completed : gmap string AgentResult
}.

(** [TaskDecomposition(original_task)] *)
Definition new_decomposition (task : string) : TaskDecomposition :=
  mk_TaskDecomposition task [] ∅ ∅.

(** [add_subtask] *)
Definition add_subtask (task_id description : string) (agent : AgentRole)
    (deps : option (list string)) (d : TaskDecomposition) : TaskDecomposition :=
  mk_TaskDecomposition (original_task d)
    (subtasks d ++ [mk_subtask task_id description agent "pending"])
    (<[task_id := default [] deps]> (dependencies d))
    (completed d).

(** [self.dependencies.get(task["id"], [])] *)
Definition deps_of (d : TaskDecomposition) (task_id : string) : list string :=
  default [] (dependencies d !! task_id).

(** [all(d in self.completed for d in deps)] *)
Definition deps_completed (d : TaskDecomposition) (task_id : string) : bool :=
  forallb (fun dep => bool_decide (is_Some (completed d !! dep))) (deps_of d task_id).

(** [get_ready_tasks] *)
Definition get_ready_tasks (d : TaskDecomposition) : list subtask :=
  List.filter
    (fun task => String.eqb (sub_status task) "pending" && deps_completed d (sub_id task))
    (subtasks d).

(** The loop of [mark_completed]: the first subtask with the id gets the new
    status. *)
Fixpoint mark_first (task_id status : string) (l : list subtask) : list subtask :=
  match l with
  | [] => []
  | task :: l' =>
      if String.eqb (sub_id task) task_id
      then set_sub_status status task :: l'
      else task :: mark_first task_id status l'
  end.

(** [mark_completed] *)
Definition mark_completed (task_id : string) (result : AgentResult)
    (d : TaskDecomposition) : TaskDecomposition :=
  mk_TaskDecomposition (original_task d)
    (mark_first task_id (if ar_success result then "completed" else "failed") (subtasks d))
    (dependencies d)
    (<[task_id := result]> (completed d)).

(** What the orchestrator did, in order: the events it emitted, and the
    waves it dispatched, each with the ready set and the [completed] table
    at the moment of the dispatch. *)
Inductive action : Type :=
| Emit (e : Engine.event)
| Wave (ready : list subtask) (done : gmap string AgentResult).

(** [self.agents]: an agent's [execute(task, context)], which returns or
    raises.  An agent call that never returns is not represented. *)
Abbreviation agent_table W :=
  (AgentRole -> option (string -> gmap string value -> W -> (exn + AgentResult) * W)).

Section Orchestrator.
Context {W : Type}.
Variable agents : agent_table W.

Definition failed_result (error : string) : AgentResult :=
  mk_AgentResult false "" [] (Some error).

(** [run_task] of [_execute_subtasks] *)
Definition run_task (task : subtask) (context : gmap string value) (w : W)
  : (string * AgentResult) * W * list action :=
  match agents (sub_agent task) with
  | None =>
      ((sub_id task,
        failed_result ("No agent available for role: " +:+ AgentRole_value (sub_agent task))),
       w, [])
  | Some agent =>
      let start :=
        Emit (Engine.mk_event "subtask_start"
                [("task_id", VStr (sub_id task));
                 ("description", VStr (sub_description task));
                 ("agent", VStr (AgentRole_value (sub_agent task)))]) in
      match agent (sub_description task) context w with
      | (inr result, w') =>
          ((sub_id task, result), w',
           [start;
            Emit (Engine.mk_event "subtask_complete"
                    [("task_id", VStr (sub_id task));
                     ("success", VBool (ar_success result));
                     ("output_preview", VStr (String.substring 0 200 (ar_output result)))])])
      | (inl e, w') => ((sub_id task, failed_result (exn_msg e)), w', [start])
      end
  end.

(** [asyncio.gather] over [run_task]: the model runs the subtasks of a wave
    in list order, all on the context of the wave. *)
Fixpoint run_wave (tasks : list subtask) (context : gmap string value) (w : W)
  : list (string * AgentResult) * W * list action :=
  match tasks with
  | [] => ([], w, [])
  | task :: tasks' =>
      let '(r, w', log) := run_task task context w in
      let '(rs, w'', log') := run_wave tasks' context w' in
      (r :: rs, w'', log ++ log')
  end.

(** [results[task_id] = result] on a dict in insertion order. *)
Fixpoint results_set (task_id : string) (result : AgentResult)
    (results : list (string * AgentResult)) : list (string * AgentResult) :=
  match results with
  | [] => [(task_id, result)]
  | (k, r) :: results' =>
      if String.eqb task_id k then (k, result) :: results'
      else (k, r) :: results_set task_id result results'
  end.

(** [_execute_subtasks]: the dict of results of a wave. *)
Definition _execute_subtasks (tasks : list subtask) (context : gmap string value) (w : W)
  : list (string * AgentResult) * W * list action :=
  let '(task_results, w', log) := run_wave tasks context w in
  (fold_left (fun results r => results_set (fst r) (snd r) results) task_results [],
   w', log).

(** [for task_id, result in results.items()] of [execute] *)
Fixpoint record_results (results : list (string * AgentResult))
    (d : TaskDecomposition) (context : gmap string value)
  : TaskDecomposition * gmap string value :=
  match results with
  | [] => (d, context)
  | (task_id, result) :: results' =>
      record_results results' (mark_completed task_id result d)
        (<["result_" +:+ task_id := VStr (ar_output result)]> context)
  end.

Definition ev_execution_blocked (d : TaskDecomposition) : action :=
  Emit (Engine.mk_event "execution_blocked"
          [("completed", VInt (Z.of_nat (size (completed d))));
           ("total", VInt (Z.of_nat (length (subtasks d))))]).

(** [while step < max_steps] of [execute], with [n = max_steps - step]
    iterations left. *)
Fixpoint run_loop (n : nat) (d : TaskDecomposition) (context : gmap string value)
    (w : W) (log : list action)
  : TaskDecomposition * gmap string value * W * list action :=
  match n with
  | O => (d, context, w, log)
  | S n' =>
      match get_ready_tasks d with
      | [] =>
          if Nat.eqb (size (completed d)) (length (subtasks d))
          then (d, context, w, log)
          else (d, context, w, log ++ [ev_execution_blocked d])
      | ready_tasks =>
          let '(results, w', log') := _execute_subtasks ready_tasks context w in
          let '(d', context') := record_results results d context in
          run_loop n' d' context' w' (log ++ Wave ready_tasks (completed d) :: log')
      end
  end.

(** Step 2 of [execute]: the loop, started with [step = 0]. *)
Definition execute_subtasks_loop (max_steps : Z) (d : TaskDecomposition)
    (context : gmap string value) (w : W)
  : TaskDecomposition * gmap string value * W * list action :=
  run_loop (Z.to_nat max_steps) d context w [].

End Orchestrator.

(** ** Notions used by the properties *)

Definition is_wave (a : action) : bool :=
  match a with Wave _ _ => true | Emit _ => false end.

Definition is_blocked (a : action) : bool :=
  match a with
  | Emit e => String.eqb (Engine.ev_type e) "execution_blocked"
  | Wave _ _ => false
  end.

Definition ids (d : TaskDecomposition) : list string := map sub_id (subtasks d).

(** A decomposition as [_decompose_task] returns it. *)
Definition fresh (d : TaskDecomposition) : Prop :=
  (forall t, t ∈ subtasks d -> sub_status t = "pending") /\ completed d = ∅.

(** Every dependency names a subtask. *)
Definition closed (d : TaskDecomposition) : Prop :=
  forall id dep, id ∈ ids d -> dep ∈ deps_of d id -> dep ∈ ids d.

(** The dependencies have no cycle: the subtasks can be ranked so that every
    dependency ranks below its dependent. *)
Definition acyclic (d : TaskDecomposition) : Prop :=
  exists rank : string -> nat,
    forall id dep, id ∈ ids d -> dep ∈ deps_of d id -> (rank dep < rank id)%nat.

(** Every subtask that has left ["pending"] is in [completed]. *)
Definition finished_recorded (d : TaskDecomposition) : Prop :=
  forall t, t ∈ subtasks d -> sub_status t <> "pending" -> is_Some (completed d !! sub_id t).

(** Every key of [completed] is the id of a subtask. *)
Definition recorded_known (d : TaskDecomposition) : Prop :=
  forall k, is_Some (completed d !! k) -> k ∈ ids d.

(** A subtask that repeats the id of an earlier one is pending:
    [mark_completed] only ever reaches the first. *)
Fixpoint duplicates_pending (l : list subtask) : Prop :=
  match l with
  | [] => True
  | t :: l' =>
      (forall u, u ∈ l' -> sub_id u = sub_id t -> sub_status u = "pending") /\
      duplicates_pending l'
  end.

(** The decomposition that [_decompose_task] builds from the parsed subtask
    list: one [add_subtask] per entry, in order. *)
Definition build (task : string)
    (entries : list (string * string * AgentRole * list string)) : TaskDecomposition :=
  fold_left
    (fun d '(task_id, description, agent, deps) =>
       add_subtask task_id description agent (Some deps) d)
    entries (new_decomposition task).

(** ** Stand-ins for the examples *)

(** The researcher reports a failure, the coder raises, the analyst
    succeeds; no executor is registered.  The world counts the calls. *)
Definition test_agents : agent_table nat :=
  fun role =>
    match role with
    | RESEARCHER =>
        Some (fun _ _ n => (inr (mk_AgentResult false "" [] (Some "nothing found")), S n))
    | CODER => Some (fun _ _ n => (inl (mk_exn "RuntimeError" "sandbox down"), S n))
    | ANALYST => Some (fun task _ n => (inr (mk_AgentResult true task [] None), S n))
    | _ => None
    end.

(** A depends on B and B on A. *)
Definition cyclic : TaskDecomposition :=
  build "compare" [("A", "find sources", RESEARCHER, ["B"]);
                   ("B", "write code", CODER, ["A"])].

(** C depends on A and B, which depend on nothing. *)
Definition diamond : TaskDecomposition :=
  build "report" [("A", "find sources", RESEARCHER, []);
                  ("B", "write code", CODER, []);
                  ("C", "analyse", ANALYST, ["A"; "B"])].

(** A ranking of the subtasks of [diamond]: C above A and B. *)
Definition diamond_rank (id : string) : nat := if String.eqb id "C" then 1 else 0.

(** ** Further notions *)

(** A subtask that has left ["pending"] has its result in [completed], and
    its status says whether the result reports success. *)
Definition settled_by_result (d : TaskDecomposition) : Prop :=
  forall t, t ∈ subtasks d -> sub_status t <> "pending" ->
    exists result,
      completed d !! sub_id t = Some result /\
      sub_status t = if ar_success result then "completed" else "failed".

(** A pending subtask has no result yet. *)
Definition pending_unrecorded (d : TaskDecomposition) : Prop :=
  forall t, t ∈ subtasks d -> sub_status t = "pending" -> completed d !! sub_id t = None.

(** The three facts the loop keeps about statuses and results. *)
Definition recorded (d : TaskDecomposition) : Prop :=
  settled_by_result d /\ pending_unrecorded d /\ recorded_known d.

(** The ids of the subtasks a record dispatched, wave after wave. *)
Definition dispatched (log : list action) : list string :=
  flat_map (fun a => match a with
                     | Wave ready _ => map sub_id ready
                     | Emit _ => []
                     end) log.

(** The results in [completed] are in the context, under [result_<id>]. *)
Definition results_in_context (d : TaskDecomposition) (context : gmap string value) : Prop :=
  forall id result,
    completed d !! id = Some result ->
    context !! ("result_" +:+ id) = Some (VStr (ar_output result)).

End Orchestrator.

(** * The workflow manager ([workflow_manager.py]) *)
Module Manager.
Import Engine.

(** [StepType(value)]: the member with this value, if any. *)
Definition StepType_of_value (s : string) : option StepType :=
  List.find (fun t => String.eqb (StepType_value t) s)
    [TOOL; AGENT; CONDITION; LOOP; PARALLEL; WAIT; TRANSFORM].

(** A [datetime]: its timestamp and whether it carries a zone. *)
Definition datetime : Type := Z * bool.

(** A [Workflow] object with the fields the engine does not read.  After
    [Workflow.__init__] the two dates are always set. *)
Record StoredWorkflow : Type := mk_StoredWorkflow {
  sw_workflow : Workflow;
  sw_triggers : list dict;
  sw_created_at : datetime;
  sw_updated_at : datetime;
  sw_created_by : string
}.

(** What the manager takes from Python and from the validation library.
    When a model object is built, a value of the declared type of its field
    is accepted as it is; what the library does with a value of another type,
    convert it or refuse it, is a [coerce_] function.  [W] is the state of
    the clock and of the random source. *)
Record Lib (W : Type) : Type := mk_Lib {
  coerce_str : value -> exn + string;
  coerce_config : value -> exn + dict;
  coerce_inputs : value -> exn + list (string * string);
  coerce_condition : value -> exn + option string;
  coerce_int : value -> exn + Z;
  coerce_triggers : value -> exn + list dict;
  coerce_tags : value -> exn + list string;
  (** the error for a date field that is given [None], if the library
      refuses it *)
  none_date : option exn;
  isoformat : datetime -> string;
  (** [datetime.fromisoformat(v)] *)
  fromisoformat : value -> exn + datetime;
  (** [int(s)] and [str(n)] *)
  py_int : string -> exn + Z;
  py_str : Z -> string;
  (** [str(uuid.uuid4())] *)
  uuid4 : W -> string * W;
  (** [datetime.now(timezone.utc)] and [datetime.now()], as timestamps *)
  now : W -> Z;
  (** the exception [json.dump] raises on this document, if any *)
  dump_error : dict -> option exn
}.
Arguments coerce_str {W} _ _.
Arguments coerce_config {W} _ _.
Arguments coerce_inputs {W} _ _.
Arguments coerce_condition {W} _ _.
Arguments coerce_int {W} _ _.
Arguments coerce_triggers {W} _ _.
Arguments coerce_tags {W} _ _.
Arguments none_date {W} _.
Arguments isoformat {W} _ _.
Arguments fromisoformat {W} _ _.
Arguments py_int {W} _ _.
Arguments py_str {W} _ _.
Arguments uuid4 {W} _ _.
Arguments now {W} _ _.
Arguments dump_error {W} _ _.

(** Sequencing of computations that may raise. *)
Definition bind {A B : Type} (x : exn + A) (f : A -> exn + B) : exn + B :=
  match x with
  | inl e => inl e
  | inr a => f a
  end.

Notation "x <- e1 ;; e2" := (bind e1 (fun x => e2))
  (at level 100, e1 at next level, right associativity).

(** [d[k]] *)
Definition subscript (k : string) (d : dict) : exn + value :=
  match dict_get k d with
  | Some v => inr v
  | None => inl (mk_exn "KeyError" k)
  end.

(** A value used as a dict: [v.get] on another value raises
    [AttributeError], [v[k]] raises [TypeError]. *)
Definition as_dict (error : string) (v : value) : exn + dict :=
  match v with
  | VDict d => inr d
  | _ => inl (mk_exn error "not a dict")
  end.

(** The values of a list of strings, of a dict of strings and of a list of
    dicts. *)
Fixpoint strings_of (l : list value) : option (list string) :=
  match l with
  | [] => Some []
  | VStr s :: l' => option_map (cons s) (strings_of l')
  | _ => None
  end.

Fixpoint sources_of (d : dict) : option (list (string * string)) :=
  match d with
  | [] => Some []
  | (k, VStr s) :: d' => option_map (cons (k, s)) (sources_of d')
  | _ => None
  end.

Fixpoint dicts_of (l : list value) : option (list dict) :=
  match l with
  | [] => Some []
  | VDict d :: l' => option_map (cons d) (dicts_of l')
  | _ => None
  end.

(** [for x in v] *)
Definition iterate (v : value) : exn + list value :=
  match py_iter v with
  | Some l => inr l
  | None => inl (mk_exn "TypeError" "object is not iterable")
  end.

(** [StepType(v)] *)
Definition step_type_of (v : value) : exn + StepType :=
  match v with
  | VStr s =>
      match StepType_of_value s with
      | Some t => inr t
      | None => inl (mk_exn "ValueError" (s +:+ " is not a valid StepType"))
      end
  | _ => inl (mk_exn "ValueError" "not a valid StepType")
  end.

(** [".".join(parts)] *)
Fixpoint join_dot (parts : list string) : string :=
  match parts with
  | [] => ""
  | [p] => p
  | p :: ps => p +:+ "." +:+ join_dot ps
  end.

(** A step as it is when it has not run. *)
Definition reset_run (s : WorkflowStep) : WorkflowStep :=
  mk_WorkflowStep (step_id s) (step_name s) (step_type s) (step_config s) (step_inputs s)
    (step_condition s) (step_on_error s) (step_max_retries s) (step_timeout s)
    PENDING None None None None.

Definition set_version (x : string) (wf : Workflow) : Workflow :=
  mk_Workflow (wf_id wf) (wf_name wf) (wf_description wf) x (wf_steps wf)
    (wf_variables wf) (wf_tags wf).

Definition set_name (x : string) (wf : Workflow) : Workflow :=
  mk_Workflow (wf_id wf) x (wf_description wf) (wf_version wf) (wf_steps wf)
    (wf_variables wf) (wf_tags wf).

Definition set_description (x : string) (wf : Workflow) : Workflow :=
  mk_Workflow (wf_id wf) (wf_name wf) x (wf_version wf) (wf_steps wf)
    (wf_variables wf) (wf_tags wf).

Definition set_variables (x : gmap string value) (wf : Workflow) : Workflow :=
  mk_Workflow (wf_id wf) (wf_name wf) (wf_description wf) (wf_version wf) (wf_steps wf)
    x (wf_tags wf).

Definition set_workflow (x : Workflow) (sw : StoredWorkflow) : StoredWorkflow :=
  mk_StoredWorkflow x (sw_triggers sw) (sw_created_at sw) (sw_updated_at sw)
    (sw_created_by sw).

Definition set_updated_at (x : datetime) (sw : StoredWorkflow) : StoredWorkflow :=
  mk_StoredWorkflow (sw_workflow sw) (sw_triggers sw) (sw_created_at sw) x
    (sw_created_by sw).

(** The manager: its workflow table, its templates, and the files of its
    storage directory by name.  A file holds the document that was dumped
    into it; [None] is a file that a failed dump left behind. *)
Record WorkflowManager : Type := mk_WorkflowManager {
  workflows : gmap string StoredWorkflow;
  templates : gmap string StoredWorkflow;
  files : gmap string (option dict)
}.

Definition set_workflows (x : gmap string StoredWorkflow) (m : WorkflowManager)
  : WorkflowManager :=
  mk_WorkflowManager x (templates m) (files m).

Definition set_files (x : gmap string (option dict)) (m : WorkflowManager)
  : WorkflowManager :=
  mk_WorkflowManager (workflows m) (templates m) x.

Section Manager.
Context {W : Type}.
Variable lib : Lib W.

(** The validation of a field of type [str], [Dict[str, Any]],
    [Dict[str, str]], [Optional[str]], [int], [List[Dict[str, Any]]] and
    [List[str]]. *)
Definition validate_str (v : value) : exn + string :=
  match v with VStr s => inr s | _ => coerce_str lib v end.

Definition validate_config (v : value) : exn + dict :=
  match v with VDict d => inr d | _ => coerce_config lib v end.

Definition validate_inputs (v : value) : exn + list (string * string) :=
  match v with
  | VDict d => match sources_of d with Some l => inr l | None => coerce_inputs lib v end
  | _ => coerce_inputs lib v
  end.

Definition validate_condition (v : value) : exn + option string :=
  match v with
  | VNone => inr None
  | VStr s => inr (Some s)
  | _ => coerce_condition lib v
  end.

Definition validate_int (v : value) : exn + Z :=
  match v with VInt n => inr n | _ => coerce_int lib v end.

Definition validate_triggers (v : value) : exn + list dict :=
  match v with
  | VList l => match dicts_of l with Some l => inr l | None => coerce_triggers lib v end
  | _ => coerce_triggers lib v
  end.

Definition validate_tags (v : value) : exn + list string :=
  match v with
  | VList l => match strings_of l with Some l => inr l | None => coerce_tags lib v end
  | _ => coerce_tags lib v
  end.

(** A date field that is given a datetime or [None]. *)
Definition validate_date (d : option datetime) : exn + option datetime :=
  match d with
  | Some dt => inr (Some dt)
  | None => match none_date lib with Some e => inl e | None => inr None end
  end.

(** A field that is not given takes its default, which is not validated. *)
Definition field {A : Type} (validate : value -> exn + A) (given : option value)
    (default : A) : exn + A :=
  match given with
  | Some v => validate v
  | None => inr default
  end.

(** The entry of a step in [_workflow_to_dict]. *)
Definition step_to_dict (step : WorkflowStep) : value :=
  VDict [("id", VStr (step_id step));
         ("name", VStr (step_name step));
         ("type", VStr (StepType_value (step_type step)));
         ("config", VDict (step_config step));
         ("inputs", VDict (map (fun '(k, source) => (k, VStr source)) (step_inputs step)));
         ("condition", opt_str (step_condition step));
         ("on_error", VStr (step_on_error step));
         ("max_retries", VInt (step_max_retries step));
         ("timeout", VInt (step_timeout step))].

(** [_workflow_to_dict] *)
Definition _workflow_to_dict (sw : StoredWorkflow) : dict :=
  let workflow := sw_workflow sw in
  [("id", VStr (wf_id workflow));
   ("name", VStr (wf_name workflow));
   ("description", VStr (wf_description workflow));
   ("version", VStr (wf_version workflow));
   ("steps", VList (map step_to_dict (wf_steps workflow)));
   ("variables", VDict (map_to_list (wf_variables workflow)));
   ("triggers", VList (map VDict (sw_triggers sw)));
   ("created_at", VStr (isoformat lib (sw_created_at sw)));
   ("updated_at", VStr (isoformat lib (sw_updated_at sw)));
   ("created_by", VStr (sw_created_by sw));
   ("tags", VList (map VStr (wf_tags workflow)))].

(** [WorkflowStep(id=..., name=..., type=..., config=..., inputs=..., ...)]:
    the validation library checks the values given; the run fields take
    their defaults.  The library reports every failing field in one error;
    the model gives the first. *)
Definition new_WorkflowStep (id name : value) (type : StepType) (config inputs : value)
    (condition on_error max_retries timeout : option value) : exn + WorkflowStep :=
  id <- validate_str id;;
  name <- validate_str name;;
  config <- validate_config config;;
  inputs <- validate_inputs inputs;;
  condition <- field validate_condition condition None;;
  on_error <- field validate_str on_error "fail";;
  max_retries <- field validate_int max_retries 3;;
  timeout <- field validate_int timeout 300;;
  inr (mk_WorkflowStep id name type config inputs condition on_error max_retries timeout
         PENDING None None None None).

(** The body of [for step_data in data.get("steps", [])] of
    [_dict_to_workflow]. *)
Definition step_of_dict (step_data : value) : exn + WorkflowStep :=
  step_data <- as_dict "TypeError" step_data;;
  id <- subscript "id" step_data;;
  name <- subscript "name" step_data;;
  type <- subscript "type" step_data;;
  type <- step_type_of type;;
  new_WorkflowStep id name type
    (dict_get_default "config" (VDict []) step_data)
    (dict_get_default "inputs" (VDict []) step_data)
    (Some (dict_get_default "condition" VNone step_data))
    (Some (dict_get_default "on_error" (VStr "fail") step_data))
    (Some (dict_get_default "max_retries" (VInt 3) step_data))
    (Some (dict_get_default "timeout" (VInt 300) step_data)).

Fixpoint each {A B : Type} (f : A -> exn + B) (l : list A) : exn + list B :=
  match l with
  | [] => inr []
  | a :: l' => b <- f a;; bs <- each f l';; inr (b :: bs)
  end.

(** [datetime.fromisoformat(data[k]) if data.get(k) else None] *)
Definition date_of (k : string) (data : dict) : exn + option datetime :=
  if truthy (dict_get_default k VNone data)
  then dt <- fromisoformat lib (dict_get_default k VNone data);; inr (Some dt)
  else inr None.

(** [Workflow(id=..., name=..., description=..., steps=..., variables=...,
    tags=..., ...)] and its [__init__]: a date that is missing is the
    current time, with the zone of UTC.  [dates] is the pair of dates when
    the two are given. *)
Definition new_Workflow (id name description : value) (version : option value)
    (steps : list WorkflowStep) (variables : value) (triggers : option value)
    (dates : option (option datetime * option datetime))
    (created_by : option value) (tags : value) (t : Z) : exn + StoredWorkflow :=
  id <- validate_str id;;
  name <- validate_str name;;
  description <- validate_str description;;
  version <- field validate_str version "1.0";;
  variables <- validate_config variables;;
  triggers <- field validate_triggers triggers [];;
  created_at <- match dates with Some d => validate_date d.1 | None => inr None end;;
  updated_at <- match dates with Some d => validate_date d.2 | None => inr None end;;
  created_by <- field validate_str created_by "";;
  tags <- validate_tags tags;;
  inr (mk_StoredWorkflow
         (mk_Workflow id name description version steps (list_to_map variables) tags)
         triggers (default (t, true) created_at) (default (t, true) updated_at) created_by).

(** [_dict_to_workflow], at time [t]. *)
Definition _dict_to_workflow (data : dict) (t : Z) : exn + StoredWorkflow :=
  step_entries <- iterate (dict_get_default "steps" (VList []) data);;
  steps <- each step_of_dict step_entries;;
  id <- subscript "id" data;;
  name <- subscript "name" data;;
  created_at <- date_of "created_at" data;;
  updated_at <- date_of "updated_at" data;;
  new_Workflow id name
    (dict_get_default "description" (VStr "") data)
    (Some (dict_get_default "version" (VStr "1.0") data))
    steps
    (dict_get_default "variables" (VDict []) data)
    (Some (dict_get_default "triggers" (VList []) data))
    (Some (created_at, updated_at))
    (Some (dict_get_default "created_by" (VStr "") data))
    (dict_get_default "tags" (VList []) data) t.

(** [_increment_version] *)
Definition _increment_version (version : string) : exn + string :=
  match split_dot version with
  | [major; minor] =>
      n <- py_int lib minor;;
      inr (join_dot [major; py_str lib (n + 1)])
  | parts => inr (join_dot parts)
  end.

(** [_save]: the file is opened for writing, which empties it, and the
    document is dumped into it.  Opening the file is taken to succeed. *)
Definition _save (sw : StoredWorkflow) (m : WorkflowManager) : option exn * WorkflowManager :=
  let name := wf_id (sw_workflow sw) +:+ ".json" in
  match dump_error lib (_workflow_to_dict sw) with
  | Some e => (Some e, set_files (<[name := None]> (files m)) m)
  | None => (None, set_files (<[name := Some (_workflow_to_dict sw)]> (files m)) m)
  end.

(** A step built from an entry by [create] or [update]: the id, the name, the
    type, the config and the inputs are read from the entry, [policy] gives
    the condition and the error policy when they are read as well.  The
    default of [s.get("id", ...)] is computed whether the entry has an id or
    not, so every entry draws a uuid. *)
Definition step_of_entry (policy : dict -> option value * option value) (s : value) (w : W)
  : (exn + WorkflowStep) * W :=
  match as_dict "AttributeError" s with
  | inl e => (inl e, w)
  | inr s =>
      let '(uuid, w1) := uuid4 lib w in
      (name <- subscript "name" s;;
       type <- subscript "type" s;;
       type <- step_type_of type;;
       new_WorkflowStep (dict_get_default "id" (VStr (String.substring 0 8 uuid)) s)
         name type
         (dict_get_default "config" (VDict []) s)
         (dict_get_default "inputs" (VDict []) s)
         (policy s).1 (policy s).2 None None,
       w1)
  end.

Fixpoint steps_of_entries (policy : dict -> option value * option value)
    (entries : list value) (w : W) : (exn + list WorkflowStep) * W :=
  match entries with
  | [] => (inr [], w)
  | s :: entries' =>
      match step_of_entry policy s w with
      | (inl e, w1) => (inl e, w1)
      | (inr step, w1) =>
          let '(rest, w2) := steps_of_entries policy entries' w1 in
          (bs <- rest;; inr (step :: bs), w2)
      end
  end.

(** [create] reads the condition and the error policy of an entry,
    [update] does not. *)
Definition create_policy (s : dict) : option value * option value :=
  (Some (dict_get_default "condition" VNone s),
   Some (dict_get_default "on_error" (VStr "fail") s)).

Definition update_policy (s : dict) : option value * option value := (None, None).

(** [create].  The arguments are given with their declared types. *)
Definition create (name description : string) (steps : option (list value))
    (variables : option dict) (tags : option (list string)) (w : W) (m : WorkflowManager)
  : outcome StoredWorkflow * W * WorkflowManager :=
  let '(uuid, w1) := uuid4 lib w in
  let workflow_id := String.substring 0 12 uuid in
  match steps_of_entries create_policy (default [] steps) w1 with
  | (inl e, w2) => (Raise e, w2, m)
  | (inr parsed_steps, w2) =>
      match
        new_Workflow (VStr workflow_id) (VStr name) (VStr description) None
          parsed_steps (VDict (default [] variables)) None None None
          (VList (map VStr (default [] tags))) (now lib w2)
      with
      | inl e => (Raise e, w2, m)
      | inr workflow =>
          let m1 := set_workflows (<[workflow_id := workflow]> (workflows m)) m in
          match _save workflow m1 with
          | (Some e, m2) => (Raise e, w2, m2)
          | (None, m2) => (Ret workflow, w2, m2)
          end
      end
  end.

(** The step entries [create_from_template] hands to [create]. *)
Definition template_entry (step : WorkflowStep) : value :=
  VDict [("id", VStr (step_id step));
         ("name", VStr (step_name step));
         ("type", VStr (StepType_value (step_type step)));
         ("config", VDict (step_config step));
         ("inputs", VDict (map (fun '(k, source) => (k, VStr source)) (step_inputs step)))].

(** [create_from_template] *)
Definition create_from_template (template_id name : string) (variables : option dict)
    (w : W) (m : WorkflowManager) : outcome (option StoredWorkflow) * W * WorkflowManager :=
  match templates m !! template_id with
  | None => (Ret None, w, m)
  | Some template =>
      let t := sw_workflow template in
      match
        create name (wf_description t) (Some (map template_entry (wf_steps t)))
          (Some (dict_merge (map_to_list (wf_variables t)) (default [] variables)))
          (Some (wf_tags t)) w m
      with
      | (Ret workflow, w', m') => (Ret (Some workflow), w', m')
      | (Raise e, w', m') => (Raise e, w', m')
      | (Hang, w', m') => (Hang, w', m')
      end
  end.

(** [update].  The workflow object is the one the table holds: its fields
    are assigned in place, and an exception leaves it with the assignments
    made so far. *)
Definition update (workflow_id : string) (name description : option string)
    (steps : option (list value)) (variables : option dict) (w : W) (m : WorkflowManager)
  : outcome (option StoredWorkflow) * W * WorkflowManager :=
  match workflows m !! workflow_id with
  | None => (Ret None, w, m)
  | Some sw =>
      let store sw := set_workflows (<[workflow_id := sw]> (workflows m)) m in
      let wf := sw_workflow sw in
      let wf := if truthy (opt_str name) then set_name (default "" name) wf else wf in
      let wf :=
        if truthy (opt_str description) then set_description (default "" description) wf
        else wf in
      let wf :=
        if truthy (VDict (default [] variables))
        then set_variables (list_to_map (default [] variables)) wf else wf in
      let '(parsed, w1) :=
        if truthy (VList (default [] steps))
        then steps_of_entries update_policy (default [] steps) w
        else (inr (wf_steps wf), w) in
      match parsed with
      | inl e => (Raise e, w1, store (set_workflow wf sw))
      | inr steps' =>
          let wf := set_steps steps' wf in
          let sw := set_updated_at (now lib w1, false) (set_workflow wf sw) in
          match _increment_version (wf_version wf) with
          | inl e => (Raise e, w1, store sw)
          | inr version =>
              let sw := set_workflow (set_version version wf) sw in
              match _save sw (store sw) with
              | (Some e, m') => (Raise e, w1, m')
              | (None, m') => (Ret (Some sw), w1, m')
              end
          end
      end
  end.

(** Drawing [n] uuids. *)
Fixpoint draw (n : nat) (w : W) : W :=
  match n with
  | O => w
  | S n' => draw n' (uuid4 lib w).2
  end.

End Manager.

(** ** Notions used by the properties *)

(** The policy fields of a step that [update] built. *)
Definition default_policy (s : WorkflowStep) : Prop :=
  step_condition s = None /\ step_on_error s = "fail" /\
  step_max_retries s = 3 /\ step_timeout s = 300 /\ step_status s = PENDING.

(** The step [create] builds from the entry of a template step. *)
Definition copied_step (s : WorkflowStep) : WorkflowStep :=
  mk_WorkflowStep (step_id s) (step_name s) (step_type s) (step_config s) (step_inputs s)
    None "fail" 3 300 PENDING None None None None.

(** ** Stand-ins for the examples *)

(** A validation library that refuses what is not of the declared type. *)
Definition refuse {A : Type} (v : value) : exn + A := inl (mk_exn "ValidationError" "").

(** [int] and [str] on the numbers 0 to 10. *)
Definition small_numbers : list (string * Z) :=
  [("0", 0); ("1", 1); ("2", 2); ("3", 3); ("4", 4); ("5", 5); ("6", 6); ("7", 7);
   ("8", 8); ("9", 9); ("10", 10)].

Definition test_int (s : string) : exn + Z :=
  match List.find (fun p => String.eqb p.1 s) small_numbers with
  | Some p => inr p.2
  | None => inl (mk_exn "ValueError" ("invalid literal for int(): " +:+ s))
  end.

Definition test_str (n : Z) : string :=
  match List.find (fun p => Z.eqb p.2 n) small_numbers with
  | Some p => p.1
  | None => "?"
  end.

Definition midnight_utc : string := "2026-11-04T00:00:00+00:00".
Definition midnight : string := "2026-11-04T00:00:00".

(** The world counts the uuids drawn; the clock stands still. *)
Definition test_lib : Lib nat :=
  mk_Lib nat refuse refuse refuse refuse refuse refuse refuse None
    (fun d => if d.2 then midnight_utc else midnight)
    (fun v => match v with
              | VStr s =>
                  if String.eqb s midnight_utc then inr (1793750400, true)
                  else if String.eqb s midnight then inr (1793750400, false)
                  else inl (mk_exn "ValueError" "Invalid isoformat string")
              | _ => inl (mk_exn "TypeError" "fromisoformat: argument must be str")
              end)
    test_int test_str
    (fun n => (test_str (Z.of_nat n) +:+ "f1e2d3c-4b5a-4978-8695-a4b3c2d1e0f9", S n))
    (fun _ => 1793750400)
    (fun _ => None).

(** A stored workflow whose step has run, with a condition and a retry
    policy. *)
Definition guarded_retry_step : WorkflowStep :=
  mk_WorkflowStep "fetch" "Fetch" TOOL [("tool", VStr "calculator")] [("x", "seed")]
    (Some "ready") "retry" 5 60 COMPLETED (Some [("success", VBool true)]) None
    (Some 1793750000) (Some 1793750001).

Definition stored_example : StoredWorkflow :=
  mk_StoredWorkflow
    (mk_Workflow "wf1" "example" "an example" "1.9" [guarded_retry_step]
       (<["seed" := VInt 7]> ∅) ["demo"])
    [] (1793750400, true) (1793750400, true) "".

Definition example_manager : WorkflowManager :=
  mk_WorkflowManager (<["wf1" := stored_example]> ∅) (<["tpl" := stored_example]> ∅) ∅.

(** An entry for [update] that names a condition and an error policy. *)
Definition guarded_entry : value :=
  VDict [("name", VStr "Fetch again"); ("type", VStr "tool");
         ("condition", VStr "ready"); ("on_error", VStr "retry")].

End Manager.

(** * Properties of the execution engine *)
Module EngineFacts.
Import Engine.

Section Facts.
Context {W : Type}.
Variable env : Env W.

(** ** Steps are identified by their definition *)

Lemma same_definition_refl s : same_definition s s.
Proof. by repeat split. Qed.

Lemma same_definition_trans s1 s2 s3 :
  same_definition s1 s2 -> same_definition s2 s3 -> same_definition s1 s3.
Proof. unfold same_definition. intros; destruct_and!; repeat split; congruence. Qed.

(** [_execute_step] reads the definition of a step only. *)
Lemma _execute_step_definition s s' context w :
  same_definition s s' ->
  _execute_step env s context w = _execute_step env s' context w.
Proof.
  unfold same_definition, _execute_step. intros; destruct_and!.
  repeat match goal with H : _ = _ |- _ => rewrite <- H; clear H end.
  reflexivity.
Qed.

Lemma never_hangs_definition s s' :
  same_definition s s' -> never_hangs env s -> never_hangs env s'.
Proof.
  intros Hd Hn context w. rewrite <- (_execute_step_definition s s') by done. apply Hn.
Qed.

Lemma retry_loop_same_definition n : forall retry step st,
  same_definition step (retry_loop env n retry step st).1.1.
Proof.
  induction n as [|n IH]; intros retry step st; simpl.
  - apply same_definition_refl.
  - destruct (_execute_step env step _ _) as [[[result|e|] context'] w2]; simpl.
    + by repeat split.
    + destruct (retry =? _); simpl; [apply same_definition_refl | apply IH].
    + apply same_definition_refl.
Qed.

Lemma run_step_same_definition i step st :
  same_definition step (run_step env i step st).1.1.
Proof.
  unfold run_step.
  destruct (skipped_by_condition env step _); simpl.
  { by repeat split. }
  destruct (_execute_step env _ _ _) as [[[result|e|] context'] w']; simpl.
  - by repeat split.
  - destruct (String.eqb _ "skip"); simpl; [by repeat split|].
    destruct (_ && _); simpl; [|by repeat split].
    match goal with |- context [retry_loop env ?n ?r ?s ?t] =>
      pose proof (retry_loop_same_definition n r s t) as Hr;
      destruct (retry_loop env n r s t) as [[s2 st2] f] end.
    simpl in Hr.
    eapply same_definition_trans with (s2 := s2).
    + eapply same_definition_trans; [|exact Hr]. by repeat split.
    + destruct f; simpl; by repeat split.
  - by repeat split.
Qed.

Lemma Forall2_same_definition_refl steps : Forall2 same_definition steps steps.
Proof. induction steps; constructor; [apply same_definition_refl|done]. Qed.

Lemma run_steps_same_definition steps : forall i st,
  Forall2 same_definition steps (run_steps env i steps st).1.1.
Proof.
  induction steps as [|s rest IH]; intros i st; simpl; [constructor|].
  pose proof (run_step_same_definition i s st) as Hs.
  destruct (run_step env i s st) as [[s' st'] f]; simpl in Hs.
  destruct f; simpl.
  - specialize (IH (S i) st').
    destruct (run_steps env (S i) rest st') as [[rest' st''] f']; simpl in *.
    by constructor.
  - constructor; [done|apply Forall2_same_definition_refl].
  - constructor; [done|apply Forall2_same_definition_refl].
Qed.

(** ** The loop over a list of steps *)

Lemma run_steps_app pre : forall i l st,
  run_steps env i (pre ++ l) st =
  let '(pre', st', f) := run_steps env i pre st in
  match f with
  | Next =>
      let '(l', st'', f') := run_steps env (i + length pre)%nat l st' in
      (pre' ++ l', st'', f')
  | _ => (pre' ++ l, st', f)
  end.
Proof.
  induction pre as [|s pre IH]; intros i l st; simpl.
  - rewrite Nat.add_0_r. by destruct (run_steps env i l st) as [[? ?] ?].
  - destruct (run_step env i s st) as [[s' st'] f]. destruct f; simpl; try done.
    rewrite IH. replace (i + S (length pre))%nat with (S i + length pre)%nat by lia.
    destruct (run_steps env (S i) pre st') as [[pre' st''] f']. destruct f'; simpl; try done.
    by destruct (run_steps env _ l st'') as [[? ?] ?].
Qed.

Lemma execute_unfold wf ic w :
  execute env wf ic w =
  let '(steps', st, f) := run_steps env 0 (wf_steps wf) (initial_state env wf ic w) in
  let t := now env (ls_world st) in
  match f with
  | Next =>
      let ex := set_exec_completed_at t (set_exec_status "completed" (ls_exec st)) in
      Ret (set_steps steps' wf, ex, ls_world st, ls_log st ++ [ev_workflow_completed ex t])
  | Abort e =>
      let ex := set_exec_completed_at t
                  (set_exec_error (exn_msg e) (set_exec_status "failed" (ls_exec st))) in
      Ret (set_steps steps' wf, ex, ls_world st, ls_log st ++ [ev_workflow_failed ex e])
  | Stuck => Hang
  end.
Proof. reflexivity. Qed.

(** ** The loop is stuck only where a step hangs *)

Lemma retry_loop_not_stuck n : forall retry step st,
  never_hangs env step -> (retry_loop env n retry step st).2 <> Stuck.
Proof.
  induction n as [|n IH]; intros retry step st Hn; simpl; [done|].
  pose proof (Hn (exec_context (resume env (sleep env (2 ^ retry) (ls_world st)) (ls_exec st)))
                 (sleep env (2 ^ retry) (ls_world st))) as Hh.
  destruct (_execute_step env step _ _) as [[[result|e|] context'] w2]; simpl in *; try done.
  destruct (retry =? _); simpl; [done|]. by apply IH.
Qed.

Lemma run_step_not_stuck i step st :
  never_hangs env step -> (run_step env i step st).2 <> Stuck.
Proof.
  intros Hn. unfold run_step.
  destruct (skipped_by_condition env step _); simpl; [done|].
  set (running := set_started_at _ (set_status RUNNING step)).
  assert (same_definition step running) as Hd by by repeat split.
  pose proof (never_hangs_definition _ _ Hd Hn) as Hr.
  pose proof (Hr (exec_context (set_current_step i (ls_exec st))) (ls_world st)) as Hh.
  destruct (_execute_step env running _ _) as [[[result|e|] context'] w']; simpl in *; try done.
  destruct (String.eqb _ "skip"); simpl; [done|].
  destruct (_ && _); simpl; [|done].
  match goal with |- context [retry_loop env ?n ?r ?s ?t] =>
    assert (never_hangs env s) as Hs
      by (eapply never_hangs_definition; [|exact Hr]; by repeat split);
    pose proof (retry_loop_not_stuck n r s t Hs) as Hl;
    destruct (retry_loop env n r s t) as [[s2 st2] f] end.
  by destruct f.
Qed.

Lemma run_steps_not_stuck steps : forall i st,
  (forall s, s ∈ steps -> never_hangs env s) ->
  (run_steps env i steps st).2 <> Stuck.
Proof.
  induction steps as [|s rest IH]; intros i st Hall; simpl; [done|].
  pose proof (run_step_not_stuck i s st (Hall s ltac:(left))) as Hs.
  destruct (run_step env i s st) as [[s' st'] f]. destruct f; simpl in *; try done.
  assert (forall s0, s0 ∈ rest -> never_hangs env s0) as Hrest
    by (intros s0 Hin; apply Hall; by right).
  specialize (IH (S i) st' Hrest).
  by destruct (run_steps env (S i) rest st') as [[? ?] ?].
Qed.

(** ** Polling: the fuel of [wait_poll] is enough, and [Hang] is real *)



(** A poll that has come back gives the same result with more fuel. *)
Lemma wait_poll_more_fuel fuel : forall k condition timeout interval elapsed context w,
  (wait_poll env fuel condition timeout interval elapsed context w).1 <> Hang ->
  wait_poll env (fuel + k) condition timeout interval elapsed context w =
  wait_poll env fuel condition timeout interval elapsed context w.
Proof.
  induction fuel as [|fuel IH]; intros k condition timeout interval elapsed context w;
    simpl; [done|].
  destruct (elapsed <? timeout); [|done].
  destruct (_evaluate_condition env condition context); [done|].
  destruct (as_number interval); [|done]. apply IH.
Qed.

(** With an interval that is not positive, a poll whose condition is false
    before the timeout never comes back, whatever the fuel. *)
Lemma wait_poll_never_returns fuel : forall condition timeout interval iv elapsed context w,
  as_number interval = Some iv -> iv <= 0 -> elapsed < timeout ->
  _evaluate_condition env condition context = false ->
  (wait_poll env fuel condition timeout interval elapsed context w).1 = Hang.
Proof.
  induction fuel as [|fuel IH];
    intros condition timeout interval iv elapsed context w Hiv Hle Hlt Hc; [done|]. simpl.
  destruct (Z.ltb_spec elapsed timeout); [|lia]. rewrite Hc, Hiv.
  eapply IH; [done|done|lia|done].
Qed.

(** ** A step whose first attempt raises *)

Lemma run_step_first_attempt_raises i step st e context' w' :
  skipped_by_condition env step (exec_context (ls_exec st)) = false ->
  _execute_step env step (exec_context (ls_exec st)) (ls_world st) = (Raise e, context', w') ->
  let ex := resume env w' (set_context context' (set_current_step i (ls_exec st))) in
  let running :=
    set_error (exn_msg e)
      (set_started_at (now env (ls_world st)) (set_status RUNNING step)) in
  let log := ls_log st ++ [ev_step_started step; ActCall (step_id step)] in
  run_step env i step st =
    if String.eqb (step_on_error step) "skip" then
      (set_completed_at (now env w') (set_status SKIPPED running),
       mk_loop_state ex w' (log ++ [ev_step_skipped step (exn_msg e)]), Next)
    else if String.eqb (step_on_error step) "retry" && (0 <? step_max_retries step) then
      let '(step2, st', f) :=
        retry_loop env (Z.to_nat (step_max_retries step)) 0 running
          (mk_loop_state ex w' log) in
      match f with
      | Next => (set_completed_at (now env (ls_world st')) step2, st', Next)
      | _ => (step2, st', f)
      end
    else (set_status FAILED running, mk_loop_state ex w' log, Abort e).
Proof.
  intros Hskip Hexec. unfold run_step. simpl. rewrite Hskip.
  rewrite (_execute_step_definition
             (set_started_at (now env (ls_world st)) (set_status RUNNING step)) step)
    by by repeat split.
  rewrite Hexec. reflexivity.
Qed.

(** Policy [fail]: the step is marked FAILED and the exception leaves the
    loop. *)
Lemma fail_policy_aborts i step st e context' w' :
  skipped_by_condition env step (exec_context (ls_exec st)) = false ->
  _execute_step env step (exec_context (ls_exec st)) (ls_world st) = (Raise e, context', w') ->
  step_on_error step = "fail" ->
  exists step' st',
    run_step env i step st = (step', st', Abort e) /\
    step_status step' = FAILED /\ step_error step' = Some (exn_msg e) /\
    ls_log st' = ls_log st ++ [ev_step_started step; ActCall (step_id step)].
Proof.
  intros Hskip Hexec Hfail.
  rewrite (run_step_first_attempt_raises i step st e context' w' Hskip Hexec).
  rewrite Hfail. simpl. eauto 10.
Qed.

Lemma retry_loop_exhausted n : forall retry step st,
  always_raises env step ->
  (0 < n)%nat -> retry + Z.of_nat n = step_max_retries step ->
  exists st' e,
    retry_loop env n retry step st = (step, st', Abort e) /\
    ls_log st' = ls_log st ++ backoff_log (step_id step) retry n.
Proof.
  induction n as [|n IH]; intros retry step st Hf Hpos Hmax; [lia|]. simpl.
  destruct (Hf (exec_context (resume env (sleep env (2 ^ retry) (ls_world st)) (ls_exec st)))
               (sleep env (2 ^ retry) (ls_world st))) as (e & context' & w2 & ->).
  destruct (Z.eqb_spec retry (step_max_retries step - 1)) as [Heq|Hne].
  - assert (n = 0%nat) as -> by lia. simpl. eauto.
  - destruct (IH (retry + 1) step
                (mk_loop_state
                   (resume env w2 (set_context context'
                      (resume env (sleep env (2 ^ retry) (ls_world st)) (ls_exec st))))
                   w2 (ls_log st ++ [ActSleep (2 ^ retry); ActCall (step_id step)])))
      as (st' & e' & -> & Hlog); [done|lia|lia|].
    exists st', e'. split; [done|]. rewrite Hlog. simpl. by rewrite <- app_assoc.
Qed.

(** Policy [retry], every attempt raising: after the first attempt the loop
    makes [max_retries] more, sleeping [2 ^ retry] seconds before each, and
    the last exception leaves the loop.  The step is left RUNNING: this path
    does not mark it FAILED. *)
Lemma retries_exhausted_abort i step st :
  skipped_by_condition env step (exec_context (ls_exec st)) = false ->
  step_on_error step = "retry" -> 0 < step_max_retries step ->
  always_raises env step ->
  exists step' st' e,
    run_step env i step st = (step', st', Abort e) /\
    step_status step' = RUNNING /\
    ls_log st' =
      ls_log st ++ [ev_step_started step; ActCall (step_id step)] ++
      backoff_log (step_id step) 0 (Z.to_nat (step_max_retries step)).
Proof.
  intros Hskip Hretry Hmax Hf.
  destruct (Hf (exec_context (ls_exec st)) (ls_world st)) as (e & context' & w' & Hexec).
  rewrite (run_step_first_attempt_raises i step st e context' w' Hskip Hexec).
  rewrite Hretry. simpl. destruct (Z.ltb_spec 0 (step_max_retries step)); [|lia]. simpl.
  set (running := set_error _ _).
  assert (always_raises env running) as Hr.
  { intros c w. rewrite (_execute_step_definition running step) by by repeat split.
    apply Hf. }
  edestruct (retry_loop_exhausted (Z.to_nat (step_max_retries step)) 0 running)
    as (st' & e' & -> & Hlog); [exact Hr|lia|simpl; lia|].
  exists running, st', e'. split; [done|]. split; [done|].
  rewrite Hlog. simpl. by rewrite <- app_assoc.
Qed.

(** The status that [execute] returns is ["completed"] or ["failed"], never
    ["cancelled"]: the end of [execute] overwrites what [cancel] has set. *)
Lemma execute_status wf ic w wf' ex w' log :
  execute env wf ic w = Ret (wf', ex, w', log) ->
  exec_status ex = "completed" \/ exec_status ex = "failed".
Proof.
  rewrite execute_unfold. destruct (run_steps env 0 _ _) as [[steps' st] f].
  destruct f; intros [= <- <- <- <-]; simpl; auto.
Qed.

(** ** The claims *)

(** C3, amended.  [execute] never lets an exception out.  It returns a
    [WorkflowExecution] whenever no step of the workflow hangs.  When the
    loop reaches a step whose failure is not recovered, [execute] returns an
    execution with status ["failed"] and the error message of the exception;
    the steps after that one are returned as they were, and the record of the
    run ends with the actions of the failing step followed by
    [workflow_failed].  A step fails unrecovered when its first attempt
    raises under the policy [fail], and when every attempt raises under the
    policy [retry]. *)
Theorem execute_failure_is_structured wf ic w :
  (forall e, execute env wf ic w <> Raise e) /\
  ((forall s, s ∈ wf_steps wf -> never_hangs env s) ->
   exists r, execute env wf ic w = Ret r) /\
  (forall pre s post pre' st s' st' e,
     wf_steps wf = pre ++ s :: post ->
     run_steps env 0 pre (initial_state env wf ic w) = (pre', st, Next) ->
     run_step env (length pre) s st = (s', st', Abort e) ->
     exists ex,
       execute env wf ic w =
         Ret (set_steps (pre' ++ s' :: post) wf, ex, ls_world st',
              ls_log st' ++ [ev_workflow_failed ex e]) /\
       exec_status ex = "failed" /\ exec_error ex = Some (exn_msg e)) /\
  (forall i s st e context' w',
     skipped_by_condition env s (exec_context (ls_exec st)) = false ->
     _execute_step env s (exec_context (ls_exec st)) (ls_world st)
     = (Raise e, context', w') ->
     step_on_error s = "fail" ->
     exists s' st',
       run_step env i s st = (s', st', Abort e) /\
       ls_log st' = ls_log st ++ [ev_step_started s; ActCall (step_id s)]) /\
  (forall i s st,
     skipped_by_condition env s (exec_context (ls_exec st)) = false ->
     step_on_error s = "retry" -> 0 < step_max_retries s -> always_raises env s ->
     exists s' st' e,
       run_step env i s st = (s', st', Abort e) /\
       ls_log st' =
         ls_log st ++ [ev_step_started s; ActCall (step_id s)] ++
         backoff_log (step_id s) 0 (Z.to_nat (step_max_retries s))).
Proof.
  split; [|split; [|split; [|split]]].
  - intros e. rewrite execute_unfold.
    destruct (run_steps env 0 _ _) as [[steps' st] f]. by destruct f.
  - intros Hall. rewrite execute_unfold.
    pose proof (run_steps_not_stuck (wf_steps wf) 0%nat (initial_state env wf ic w) Hall)
      as Hs.
    destruct (run_steps env 0 _ _) as [[steps' st] f]. destruct f; simpl in *; by eauto.
  - intros pre s post pre' st s' st' e Hsteps Hpre Hs.
    rewrite execute_unfold, Hsteps, run_steps_app, Hpre. simpl. rewrite Hs. simpl.
    eexists. split; [reflexivity|]. done.
  - intros i s st e context' w' Hskip Hexec Hfail.
    destruct (fail_policy_aborts i s st e context' w' Hskip Hexec Hfail)
      as (s' & st' & ? & _ & _ & ?).
    eauto.
  - intros i s st Hskip Hretry Hmax Hf.
    destruct (retries_exhausted_abort i s st Hskip Hretry Hmax Hf)
      as (s' & st' & e & ? & _ & ?).
    eauto.
Qed.

(** C4, amended.  A step whose first attempt returns a result ends COMPLETED
    with that result, which is stored in [execution.step_results] under the
    step id and, when it is not empty, in [execution.context] under the step
    id followed by [_output]; an empty result leaves the context as the step
    left it. *)
Theorem first_attempt_result_is_stored i step st result context' w' :
  skipped_by_condition env step (exec_context (ls_exec st)) = false ->
  _execute_step env step (exec_context (ls_exec st)) (ls_world st)
  = (Ret result, context', w') ->
  exists step' st',
    run_step env i step st = (step', st', Next) /\
    step_status step' = COMPLETED /\
    step_result step' = Some result /\
    exec_step_results (ls_exec st') !! step_id step = Some result /\
    (result <> [] ->
     exec_context (ls_exec st') !! (step_id step +:+ "_output") = Some (VDict result)) /\
    (result = [] -> exec_context (ls_exec st') = context').
Proof.
  intros Hskip Hexec. unfold run_step. simpl. rewrite Hskip.
  rewrite (_execute_step_definition
             (set_started_at (now env (ls_world st)) (set_status RUNNING step)) step)
    by by repeat split.
  rewrite Hexec. simpl. eexists _, _. split; [reflexivity|]. simpl.
  assert (forall x, exec_context (resume env w' x) = exec_context x) as Hctx.
  { intros x. unfold resume, cancel_execution. by repeat case_match. }
  repeat split.
  - destruct result; simpl; by rewrite lookup_insert_eq.
  - intros Hne. destruct result as [|kv result]; [done|]. simpl. by rewrite lookup_insert_eq.
  - intros ->. simpl. by rewrite Hctx.
Qed.

(** C5, amended.  The run changes the workflow it is given only in the run
    fields of its steps (status, result, error, started_at, completed_at):
    the workflow returned has the same id, name, description, version,
    variables and tags, and the same steps in the same order, each with the
    definition it had. *)
Theorem execute_keeps_workflow_definition wf ic w wf' ex w' log :
  execute env wf ic w = Ret (wf', ex, w', log) ->
  wf_id wf' = wf_id wf /\ wf_name wf' = wf_name wf /\
  wf_description wf' = wf_description wf /\ wf_version wf' = wf_version wf /\
  wf_variables wf' = wf_variables wf /\ wf_tags wf' = wf_tags wf /\
  Forall2 same_definition (wf_steps wf) (wf_steps wf').
Proof.
  rewrite execute_unfold.
  pose proof (run_steps_same_definition (wf_steps wf) 0%nat (initial_state env wf ic w))
    as Hd.
  destruct (run_steps env 0 _ _) as [[steps' st] f]. simpl in Hd.
  destruct f; intros [= <- <- <- <-]; by repeat split.
Qed.

(** C8.  A step with a condition that evaluates to a false value, or whose
    evaluation raises, is marked SKIPPED; no error is recorded on the step or
    on the execution, nothing is raised, and the loop goes on with the next
    step. *)
Theorem unmet_condition_skips_step i step rest st c :
  step_condition step = Some c -> c <> "" ->
  match simple_eval env c (exec_context (ls_exec st)) with
  | inr result => truthy result = false
  | inl _ => True
  end ->
  let step' := set_status SKIPPED step in
  let st' := mk_loop_state (set_current_step i (ls_exec st)) (ls_world st)
               (ls_log st ++ [ev_step_skipped step "condition_not_met"]) in
  run_step env i step st = (step', st', Next) /\
  step_status step' = SKIPPED /\
  step_error step' = step_error step /\
  exec_error (ls_exec st') = exec_error (ls_exec st) /\
  exec_status (ls_exec st') = exec_status (ls_exec st) /\
  run_steps env i (step :: rest) st =
    (let '(rest', st'', f) := run_steps env (S i) rest st' in (step' :: rest', st'', f)).
Proof.
  intros Hc Hne Heval step' st'.
  assert (run_step env i step st = (step', st', Next)) as Hrun.
  { unfold run_step. simpl. unfold skipped_by_condition, condition_set. rewrite Hc.
    destruct (String.eqb_spec c "") as [|_]; [done|]. unfold _evaluate_condition.
    destruct (simple_eval env c _) as [e|result]; simpl; [done|]. by rewrite Heval. }
  repeat split; try done. simpl. by rewrite Hrun.
Qed.

End Facts.

(** ** The engine on the examples *)

(** The scenario of the specification: one calculator step, no initial
    context. *)
Example sum_workflow_completes :
  match execute test_env sum_workflow None w0 with
  | Ret (wf', ex, _, _) =>
      exec_status ex = "completed" /\
      exec_step_results ex !! "s1"
      = Some [("success", VBool true); ("output", VStr "5"); ("error", VNone)] /\
      exec_current_step ex = 0%nat
  | _ => False
  end.
Proof. by vm_compute. Qed.

(** C1.  A step with [on_error = retry] and [max_retries = 3] whose tool
    raises at every call: the engine makes 4 attempts and sleeps 1, 2 and 4
    seconds between them, and the execution ends ["failed"] with the tool's
    message; the step itself is left RUNNING, not FAILED. *)
Theorem retry_exhausted_leaves_step_running :
  match execute test_env retry_workflow None w0 with
  | Ret (wf', ex, _, log) =>
      calls_of "s1" log = [ActCall "s1"; ActCall "s1"; ActCall "s1"; ActCall "s1"] /\
      sleeps_of log = [1; 2; 4] /\
      exec_status ex = "failed" /\ exec_error ex = Some "boom" /\
      map (fun s => StepStatus_value (step_status s)) (wf_steps wf') = ["running"]
  | _ => False
  end.
Proof. by vm_compute. Qed.

(** C2.  Another task calls [cancel] while the first step is awaited, and the
    execution is ["cancelled"] when that step returns; the loop still runs
    the second step, and the execution returned is ["completed"]. *)
Theorem cancel_during_step_is_overwritten :
  let st0 := initial_state test_env cancelled_workflow None w0 in
  exec_status (ls_exec (run_step test_env 0 (tool_step "s1" "slow" "fail") st0).1.2)
  = "cancelled" /\
  match execute test_env cancelled_workflow None w0 with
  | Ret (wf', ex, w', log) =>
      cancel_requested test_env w' (exec_id ex) = true /\
      calls_of "s2" log = [ActCall "s2"] /\
      map step_status (wf_steps wf') = [COMPLETED; COMPLETED] /\
      exec_status ex = "completed"
  | _ => False
  end.
Proof. by vm_compute. Qed.

(** C3 as stated fails: a WAIT step that polls with interval 0 a condition
    that is not met never comes back, and neither does [execute]. *)
Lemma polling_workflow_never_returns :
  execute test_env polling_workflow None w0 = Hang.
Proof. by vm_compute. Qed.

(** C4 as stated fails: a step that completes with an empty result leaves no
    [_output] entry in the context, and a step that completes on a retry is
    stored neither in [step_results] nor in the context. *)
Lemma completed_result_not_stored :
  match execute test_env idle_workflow None w0 with
  | Ret (wf', ex, _, _) =>
      map step_status (wf_steps wf') = [COMPLETED] /\
      exec_step_results ex !! "w1" = Some [] /\
      exec_context ex !! "w1_output" = None
  | _ => False
  end /\
  match execute test_env flaky_workflow None w0 with
  | Ret (wf', ex, _, _) =>
      map step_status (wf_steps wf') = [COMPLETED] /\
      exec_step_results ex !! "s1" = None /\
      exec_context ex !! "s1_output" = None
  | _ => False
  end.
Proof. by vm_compute. Qed.

(** C5 as stated fails: the run writes the status, the result and the
    timestamps into the steps of the workflow it is given. *)
Lemma execute_mutates_the_steps :
  match execute test_env sum_workflow None w0 with
  | Ret (wf', _, _, _) =>
      map step_status (wf_steps sum_workflow) = [PENDING] /\
      map step_status (wf_steps wf') = [COMPLETED] /\
      map step_started_at (wf_steps wf') = [Some 1000] /\
      wf' <> sum_workflow
  | _ => False
  end.
Proof.
  vm_compute. repeat split. intros H. discriminate H.
Qed.

(** The calculator step always comes back. *)
Lemma calculator_never_hangs id : never_hangs test_env (tool_step id "calculator" "fail").
Proof. intros context w. done. Qed.

(** The theorem of C3 on two examples: a workflow whose only step cannot
    hang, and a workflow whose second step of three fails under the policy
    [fail]. *)
Lemma execute_failure_is_structured_witness :
  (exists r, execute test_env sum_workflow None w0 = Ret r) /\
  match execute test_env failing_workflow None w0 with
  | Ret (wf', ex, _, log) =>
      exec_status ex = "failed" /\ exec_error ex = Some "boom" /\
      map step_status (wf_steps wf') = [COMPLETED; FAILED; PENDING] /\
      calls_of "s3" log = []
  | _ => False
  end.
Proof.
  split.
  - apply (execute_failure_is_structured test_env sum_workflow None w0).
    intros s Hs. apply list_elem_of_singleton in Hs as ->. apply calculator_never_hangs.
  - pose (s1 := tool_step "s1" "calculator" "fail").
    pose (s2 := tool_step "s2" "boom" "fail").
    pose (s3 := tool_step "s3" "calculator" "fail").
    pose (pre := run_steps test_env 0 [s1] (initial_state test_env failing_workflow None w0)).
    pose (failed := run_step test_env 1 s2 pre.1.2).
    destruct (execute_failure_is_structured test_env failing_workflow None w0)
      as (_ & _ & H & _).
    destruct (H [s1] s2 [s3] pre.1.1 pre.1.2 failed.1.1 failed.1.2
                (mk_exn "RuntimeError" "boom"))
      as (ex & -> & Hst & Herr);
      [reflexivity|vm_compute; reflexivity|vm_compute; reflexivity|].
    split; [exact Hst|]. split; [exact Herr|]. by vm_compute.
Defined.

(** The theorem of C4 on the calculator step. *)
Lemma first_attempt_result_is_stored_witness :
  let st0 := initial_state test_env sum_workflow None w0 in
  let step := tool_step "s1" "calculator" "fail" in
  let result := [("success", VBool true); ("output", VStr "5"); ("error", VNone)] in
  step_status (run_step test_env 0 step st0).1.1 = COMPLETED /\
  exec_context (ls_exec (run_step test_env 0 step st0).1.2) !! "s1_output"
  = Some (VDict result).
Proof.
  intros st0 step result.
  destruct (first_attempt_result_is_stored test_env 0 step st0 result
              (exec_context (ls_exec st0)) (tick false (ls_world st0)))
    as (step' & st' & -> & Hst & _ & _ & Hctx & _);
    [vm_compute; reflexivity|vm_compute; reflexivity|].
  split; [exact Hst|]. by apply Hctx.
Defined.

(** The theorem of C5 on the workflow whose step exhausts its retries. *)
Lemma execute_keeps_workflow_definition_witness :
  match execute test_env retry_workflow None w0 with
  | Ret (wf', _, _, _) =>
      wf_variables wf' = wf_variables retry_workflow /\
      Forall2 same_definition (wf_steps retry_workflow) (wf_steps wf')
  | _ => False
  end.
Proof.
  destruct (execute test_env retry_workflow None w0) as [[[[wf' ex] w'] log]|e|] eqn:E.
  - destruct (execute_keeps_workflow_definition test_env retry_workflow None w0 wf' ex w' log E)
      as (_ & _ & _ & _ & Hv & _ & Hs).
    split; [exact Hv|exact Hs].
  - vm_compute in E. discriminate E.
  - vm_compute in E. discriminate E.
Defined.

(** The theorem of C8 on a step whose condition names an undefined
    variable. *)
Lemma unmet_condition_skips_step_witness :
  let st0 := initial_state test_env sum_workflow None w0 in
  (run_step test_env 0 guarded_step st0).2 = Next /\
  step_status (run_step test_env 0 guarded_step st0).1.1 = SKIPPED /\
  step_error (run_step test_env 0 guarded_step st0).1.1 = None.
Proof.
  intros st0.
  destruct (unmet_condition_skips_step test_env 0 guarded_step [] st0 "ready")
    as (Hrun & Hst & Herr & _); [reflexivity|done|vm_compute; exact I|].
  rewrite Hrun. simpl. done.
Defined.

End EngineFacts.

(** * Properties of the scheduler *)
Module SchedulerFacts.
Import Scheduler.

Section Facts.
Variable lib : Lib.

(** ** The job store *)

Lemma add_job_spec t id name now js j js' :
  add_job lib t id name now js = inr (j, js') ->
  (id ∉ map job_id js) /\ js' = js ++ [j] /\
  j = mk_job id name t (next_fire_time lib t now).
Proof.
  unfold add_job. destruct (existsb _ js) eqn:Hex; [done|]. intros [= <- <-].
  repeat split; try done. intros (j & Hid & Hj)%list_elem_of_fmap.
  assert (existsb (fun j => String.eqb (job_id j) id) js = true) as Htrue.
  { apply existsb_exists. exists j. split; [by apply list_elem_of_In|].
    rewrite Hid. apply String.eqb_refl. }
  congruence.
Qed.

Lemma add_job_fresh t id name now js :
  id ∉ map job_id js ->
  add_job lib t id name now js
  = inr (mk_job id name t (next_fire_time lib t now),
         js ++ [mk_job id name t (next_fire_time lib t now)]).
Proof.
  intros Hfresh. unfold add_job.
  destruct (existsb _ js) eqn:Hex; [|done]. exfalso. apply Hfresh.
  apply existsb_exists in Hex as (j & Hj & Hid). apply String.eqb_eq in Hid.
  rewrite <- Hid. apply list_elem_of_fmap_2. by apply list_elem_of_In.
Qed.

(** An id that the job store holds is refused. *)
Lemma add_job_conflict t id name now js :
  id ∈ map job_id js -> exists e, add_job lib t id name now js = inl e.
Proof.
  intros (j & Hid & Hj)%list_elem_of_fmap. unfold add_job.
  assert (existsb (fun j => String.eqb (job_id j) id) js = true) as ->; [|by eexists].
  apply existsb_exists. exists j. split; [by apply list_elem_of_In|].
  rewrite Hid. apply String.eqb_refl.
Qed.

(** ** Loading the persisted tasks *)

Lemma load_task_jobs now db_task s s' :
  load_task lib now db_task s = Loaded s' ->
  db_session_factory s' = db_session_factory s /\
  (jobs s' = jobs s \/
   exists j, jobs s' = jobs s ++ [j] /\ job_id j = row_id db_task /\
             (row_id db_task ∉ job_ids s) /\
             exists task, scheduled_tasks s' !! row_id db_task = Some task /\
                          task_next_run task = job_next_run_time j).
Proof.
  unfold load_task.
  destruct (json_loads lib (row_trigger_config db_task)) as [e|config];
    [by destruct (load_variables lib db_task)|].
  destruct (load_variables lib db_task) as [e|variables]; [by destruct config|].
  destruct config; try done. destruct variables; try done. simpl.
  destruct (expired lib _ _ _) as [e|[|]]; try done.
  destruct (_create_trigger lib _ _) as [e|[t|]]; try done.
  - destruct (SCHEDULER_AVAILABLE lib).
    + destruct (add_job lib t _ _ now (jobs s)) as [e|[j jobs']] eqn:Hadd; [done|].
      apply add_job_spec in Hadd as (Hfresh & -> & ->).
      intros [= <-]. simpl. split; [done|]. right. eexists. repeat split; try done.
      eexists. rewrite lookup_insert_eq. split; [done|]. done.
    + intros [= <-]. simpl. split; [done|]. by left.
  - intros [= <-]. simpl. split; [done|]. by left.
Qed.

Lemma load_task_nodup now db_task s s' :
  load_task lib now db_task s = Loaded s' -> NoDup (job_ids s) -> NoDup (job_ids s').
Proof.
  intros Hload Hnd.
  apply load_task_jobs in Hload as [_ [Heq|(j & Heq & Hid & Hfresh & _)]];
    unfold job_ids in *; rewrite Heq; [done|].
  rewrite map_app. simpl. apply NoDup_app. repeat split; [done| |apply NoDup_singleton].
  intros x Hx ->%list_elem_of_singleton. by rewrite Hid in Hx.
Qed.

Lemma load_rows_nodup now rows : forall s,
  NoDup (job_ids s) ->
  NoDup (job_ids (fold_left
                    (fun s db_task =>
                       match load_task lib now db_task s with
                       | Loaded s' => s'
                       | Expired | LoadError _ => s
                       end) rows s)).
Proof.
  induction rows as [|r rows IH]; intros s Hnd; simpl; [done|].
  apply IH. destruct (load_task lib now r s) as [s'| |e] eqn:Hload; try done.
  by eapply load_task_nodup.
Qed.

(** Loading never puts two jobs with one id into the job store: a row whose
    id is registered already is refused by the store. *)
Lemma load_persisted_tasks_no_duplicate_jobs now s :
  NoDup (job_ids s) -> NoDup (job_ids (load_persisted_tasks lib now s)).
Proof.
  intros Hnd. unfold load_persisted_tasks.
  destruct (db_session_factory s) as [rows|]; [|done]. by apply load_rows_nodup.
Qed.

(** A job store without duplicate ids holds at most one job per id. *)
Lemma at_most_one_job id s :
  NoDup (job_ids s) -> (length (jobs_of id s) <= 1)%nat.
Proof.
  unfold job_ids, jobs_of. induction (jobs s) as [|j js IH]; simpl; [lia|].
  intros [Hj Hjs]%NoDup_cons. destruct (String.eqb_spec (job_id j) id) as [Heq|Hne].
  - simpl. assert (List.filter (fun j0 => String.eqb (job_id j0) id) js = []) as ->;
      [|simpl; lia].
    clear IH Hjs. induction js as [|j' js IHjs]; simpl; [done|].
    destruct (String.eqb_spec (job_id j') id) as [Heq'|_].
    + exfalso. apply Hj. simpl. rewrite Heq, <- Heq'. by left.
    + apply IHjs. intros Hin. apply Hj. simpl. by right.
  - by apply IH.
Qed.

(** A row that is not expired, whose trigger can be built and whose id is
    not registered yet gets one job, and the task gets the job's next run
    time. *)
Lemma load_task_registers now db_task s config variables t :
  SCHEDULER_AVAILABLE lib = true ->
  json_loads lib (row_trigger_config db_task) = inr (VDict config) ->
  load_variables lib db_task = inr (VDict variables) ->
  expired lib (row_trigger_type db_task) config now = inr false ->
  _create_trigger lib (row_trigger_type db_task) config = inr (Some t) ->
  row_id db_task ∉ job_ids s ->
  exists s' task,
    load_task lib now db_task s = Loaded s' /\
    jobs s' = jobs s ++ [mk_job (row_id db_task) (row_name db_task) t
                           (next_fire_time lib t now)] /\
    scheduled_tasks s' !! row_id db_task = Some task /\
    task_next_run task = next_fire_time lib t now.
Proof.
  intros Hav Hcfg Hvars Hexp Htrig Hfresh. unfold load_task.
  rewrite Hcfg, Hvars. simpl. rewrite Hexp, Htrig, Hav.
  rewrite add_job_fresh by done. eexists _, _. split; [reflexivity|]. simpl.
  split; [done|]. by rewrite lookup_insert_eq.
Qed.

(** A date task whose zone-aware [run_date] lies before [now] is skipped. *)
Lemma load_task_skips_expired now db_task s config variables text ts :
  json_loads lib (row_trigger_config db_task) = inr (VDict config) ->
  load_variables lib db_task = inr (VDict variables) ->
  row_trigger_type db_task = "date" ->
  dict_get "run_date" config = Some (VStr text) -> text <> "" ->
  fromisoformat lib text = inr (ts, true) -> ts < now ->
  load_task lib now db_task s = Expired.
Proof.
  intros Hcfg Hvars Hty Hrd Hne Hiso Hlt. unfold load_task.
  rewrite Hcfg, Hvars. simpl.
  unfold expired. rewrite Hty. simpl. unfold dict_get_default. rewrite Hrd. simpl.
  destruct (String.eqb_spec text "") as [|_]; [done|]. simpl.
  unfold parse_date. rewrite Hiso. simpl.
  by destruct (Z.ltb_spec ts now); [|lia].
Qed.

(** A date task whose [run_date] carries no zone does not pass the date
    check, whatever its date: comparing it with the current time raises, and
    the row is not loaded. *)
Lemma load_task_drops_naive_date now db_task s config variables text ts :
  json_loads lib (row_trigger_config db_task) = inr (VDict config) ->
  load_variables lib db_task = inr (VDict variables) ->
  row_trigger_type db_task = "date" ->
  dict_get "run_date" config = Some (VStr text) -> text <> "" ->
  fromisoformat lib text = inr (ts, false) ->
  exists e, load_task lib now db_task s = LoadError e /\ exn_type e = "TypeError".
Proof.
  intros Hcfg Hvars Hty Hrd Hne Hiso. unfold load_task.
  rewrite Hcfg, Hvars. simpl.
  unfold expired. rewrite Hty. simpl. unfold dict_get_default. rewrite Hrd. simpl.
  destruct (String.eqb_spec text "") as [|_]; [done|]. simpl.
  unfold parse_date. rewrite Hiso. simpl. by eexists.
Qed.

(** ** Scheduling *)

Lemma _persist_task_memory task s :
  scheduled_tasks (_persist_task lib task s) = scheduled_tasks s /\
  jobs (_persist_task lib task s) = jobs s.
Proof.
  unfold _persist_task. destruct (db_session_factory s); [|done].
  destruct (json_dumps lib _); [done|]. by destruct (json_dumps lib _).
Qed.

(** C7, amended.  [schedule] returns [None], raises nothing and changes
    nothing when the scheduling library is missing or the trigger type is
    not one of cron, interval and date.  An exception raised while the
    trigger is built leaves [schedule].  The date of a date trigger is not
    compared with the current time: whatever the date, once the trigger is
    built and the id is free the job is registered and the task returned,
    with the next run time of the job. *)
Theorem schedule_returns_none_or_registers workflow_id name trigger_type trigger_config
    variables uuid now s :
  (SCHEDULER_AVAILABLE lib = false ->
   schedule lib workflow_id name trigger_type trigger_config variables uuid now s
   = (Ret None, s)) /\
  (trigger_type <> "cron" -> trigger_type <> "interval" -> trigger_type <> "date" ->
   schedule lib workflow_id name trigger_type trigger_config variables uuid now s
   = (Ret None, s)) /\
  (forall e, SCHEDULER_AVAILABLE lib = true ->
     _create_trigger lib trigger_type trigger_config = inl e ->
     schedule lib workflow_id name trigger_type trigger_config variables uuid now s
     = (Raise e, s)) /\
  (forall text ts aware,
     SCHEDULER_AVAILABLE lib = true -> trigger_type = "date" ->
     dict_get "run_date" trigger_config = Some (VStr text) ->
     fromisoformat lib text = inr (ts, aware) ->
     trigger_error lib (DateTrigger (VDatetime ts aware)) = None ->
     String.substring 0 12 uuid ∉ job_ids s ->
     exists task s',
       schedule lib workflow_id name trigger_type trigger_config variables uuid now s
       = (Ret (Some task), s') /\
       task_id task = String.substring 0 12 uuid /\
       scheduled_tasks s' !! task_id task = Some task /\
       jobs s' = jobs s ++ [mk_job (task_id task) name (DateTrigger (VDatetime ts aware))
                              (task_next_run task)] /\
       task_next_run task = next_fire_time lib (DateTrigger (VDatetime ts aware)) now).
Proof.
  split; [|split; [|split]].
  - intros Hna. unfold schedule. by rewrite Hna.
  - intros Hc Hi Hd. unfold schedule, _create_trigger.
    destruct (SCHEDULER_AVAILABLE lib); simpl; [|done].
    destruct (String.eqb_spec trigger_type "cron"); [done|].
    destruct (String.eqb_spec trigger_type "interval"); [done|].
    by destruct (String.eqb_spec trigger_type "date").
  - intros e Hav He. unfold schedule. by rewrite Hav, He.
  - intros text ts aware Hav -> Hrd Hiso Hok Hfresh. unfold schedule. rewrite Hav. simpl.
    unfold _create_trigger. rewrite Hav. simpl. unfold dict_get_default. rewrite Hrd.
    unfold parse_date. rewrite Hiso. unfold construct. rewrite Hok.
    rewrite add_job_fresh by done.
    eexists _, _. split; [reflexivity|]. simpl.
    match goal with |- context [_persist_task lib ?t ?s0] =>
      destruct (_persist_task_memory t s0) as [-> ->] end.
    simpl. by rewrite lookup_insert_eq.
Qed.

End Facts.

(** ** The scheduler on the examples *)

(** C6.  A date task for 1 January 2030 given without a time zone is
    scheduled and persisted as an enabled row.  After a restart in 2026
    [load_persisted_tasks] registers no job for it and leaves the task table
    empty: the date check raises on the zone-less date and the row is
    dropped. *)
Theorem naive_date_task_lost_on_restart :
  match schedule test_lib "wf1" "new year" "date" [("run_date", VStr naive_2030)] None
          test_uuid today empty_scheduler with
  | (Ret (Some task), s1) =>
      job_ids s1 = [task_id task] /\
      option_map (map (fun r => (row_id r, row_enabled r))) (db_session_factory s1)
      = Some [(task_id task, true)] /\
      today + 3600 < 1893456000 /\
      let s2 := load_persisted_tasks test_lib (today + 3600) (restart s1) in
      jobs_of (task_id task) s2 = [] /\ jobs s2 = [] /\ scheduled_tasks s2 = ∅
  | _ => False
  end.
Proof. by vm_compute. Qed.

(** The same task with a time zone is restored with one job, and loading
    again does not add a second one. *)
Example aware_date_task_restored :
  match schedule test_lib "wf1" "new year" "date" [("run_date", VStr aware_2030)] None
          test_uuid today empty_scheduler with
  | (Ret (Some task), s1) =>
      let s2 := load_persisted_tasks test_lib (today + 3600) (restart s1) in
      length (jobs_of (task_id task) s2) = 1%nat /\
      option_map task_next_run (scheduled_tasks s2 !! task_id task)
      = Some (Some 1893456000) /\
      length (jobs_of (task_id task) (load_persisted_tasks test_lib (today + 7200) s2))
      = 1%nat
  | _ => False
  end.
Proof. by vm_compute. Qed.

(** A date task that expired while the process was down is skipped. *)
Example expired_date_task_skipped :
  match schedule test_lib "wf1" "new year" "date" [("run_date", VStr aware_2030)] None
          test_uuid today empty_scheduler with
  | (Ret (Some task), s1) =>
      let s2 := load_persisted_tasks test_lib (1893456000 + 60) (restart s1) in
      jobs s2 = [] /\ scheduled_tasks s2 = ∅
  | _ => False
  end.
Proof. by vm_compute. Qed.

(** C7 as stated fails: a date trigger for 1 January 2020 is registered in
    2026 and the task returned, and a date that cannot be parsed makes
    [schedule] raise. *)
Lemma schedule_accepts_past_date_and_raises :
  1577836800 < today /\
  match schedule test_lib "wf1" "late" "date" [("run_date", VStr aware_2020)] None
          test_uuid today empty_scheduler with
  | (Ret (Some task), s') =>
      task_next_run task = Some 1577836800 /\ job_ids s' = [task_id task]
  | _ => False
  end /\
  match schedule test_lib "wf1" "late" "date" [("run_date", VStr "tomorrow")] None
          test_uuid today empty_scheduler with
  | (Raise e, s') => exn_type e = "ValueError" /\ s' = empty_scheduler
  | _ => False
  end.
Proof. by vm_compute. Qed.

(** The theorem of C7 on four calls: without the library, with an unknown
    trigger type, with a date that cannot be parsed, and with a past date. *)
Lemma schedule_returns_none_or_registers_witness :
  schedule test_lib_no_backend "wf1" "nightly" "cron" [("minute", VStr "0"); ("hour", VStr "6")]
    None test_uuid today empty_scheduler = (Ret None, empty_scheduler) /\
  schedule test_lib "wf1" "often" "weekly" [] None test_uuid today empty_scheduler
  = (Ret None, empty_scheduler) /\
  (exists e,
     schedule test_lib "wf1" "late" "date" [("run_date", VStr "tomorrow")] None
       test_uuid today empty_scheduler = (Raise e, empty_scheduler)) /\
  (exists task s',
     schedule test_lib "wf1" "late" "date" [("run_date", VStr aware_2020)] None
       test_uuid today empty_scheduler = (Ret (Some task), s') /\
     task_next_run task = Some 1577836800).
Proof.
  split; [|split; [|split]].
  - destruct (schedule_returns_none_or_registers test_lib_no_backend "wf1" "nightly" "cron"
                [("minute", VStr "0"); ("hour", VStr "6")] None test_uuid today
                empty_scheduler) as (H & _).
    apply H. reflexivity.
  - destruct (schedule_returns_none_or_registers test_lib "wf1" "often" "weekly" [] None
                test_uuid today empty_scheduler) as (_ & H & _).
    apply H; discriminate.
  - destruct (schedule_returns_none_or_registers test_lib "wf1" "late" "date"
                [("run_date", VStr "tomorrow")] None test_uuid today empty_scheduler)
      as (_ & _ & H & _).
    exists (mk_exn "ValueError" "Invalid isoformat string: tomorrow").
    apply H; [reflexivity|]. vm_compute. reflexivity.
  - destruct (schedule_returns_none_or_registers test_lib "wf1" "late" "date"
                [("run_date", VStr aware_2020)] None test_uuid today empty_scheduler)
      as (_ & _ & _ & H).
    destruct (H aware_2020 1577836800 true) as (task & s' & Hs & _ & _ & _ & Hnext);
      [reflexivity|reflexivity|reflexivity|reflexivity|reflexivity| |].
    + vm_compute. apply not_elem_of_nil.
    + exists task, s'. split; [exact Hs|]. rewrite Hnext. reflexivity.
Defined.

End SchedulerFacts.

(** * Properties of the orchestrator *)
Module OrchestratorFacts.
Import Orchestrator.

Section Facts.
Context {W : Type}.
Variable agents : agent_table W.

Lemma elem_of_get_ready_tasks d t :
  t ∈ get_ready_tasks d <->
  t ∈ subtasks d /\ sub_status t = "pending" /\
  forall dep, dep ∈ deps_of d (sub_id t) -> is_Some (completed d !! dep).
Proof.
  unfold get_ready_tasks. rewrite list_elem_of_In, filter_In, <- list_elem_of_In.
  rewrite andb_true_iff, String.eqb_eq. unfold deps_completed.
  rewrite forallb_forall. split.
  - intros (Hin & Hp & Hd). repeat split; [done..|].
    intros dep Hdep. apply list_elem_of_In in Hdep. specialize (Hd dep Hdep).
    by apply bool_decide_eq_true in Hd.
  - intros (Hin & Hp & Hd). repeat split; [done..|].
    intros dep Hdep. apply bool_decide_eq_true, Hd. by apply list_elem_of_In.
Qed.

Lemma mark_first_ids task_id status l :
  map sub_id (mark_first task_id status l) = map sub_id l.
Proof.
  induction l as [|t l IH]; simpl; [done|].
  destruct (String.eqb (sub_id t) task_id); simpl; [done|]. by rewrite IH.
Qed.

Lemma elem_of_mark_first task_id status l t' :
  t' ∈ mark_first task_id status l ->
  t' ∈ l \/ (sub_id t' = task_id /\ exists t, t ∈ l /\ t' = set_sub_status status t).
Proof.
  induction l as [|t l IH]; simpl; [by left|].
  destruct (String.eqb_spec (sub_id t) task_id) as [Heq|Hne].
  - intros [->|Hin]%elem_of_cons.
    + right. split; [done|]. exists t. split; [left|done].
    + left. by right.
  - intros [->|Hin]%elem_of_cons; [left; left|].
    destruct (IH Hin) as [?|(? & t0 & ? & ?)]; [left; by right|].
    right. split; [done|]. exists t0. split; [by right|done].
Qed.

Lemma run_task_log task context w :
  Forall (fun a => is_wave a = false /\ is_blocked a = false)
    (run_task agents task context w).2.
Proof.
  unfold run_task. destruct (agents (sub_agent task)) as [agent|]; simpl; [|constructor].
  destruct (agent _ _ _) as [[e|r] w']; simpl; repeat constructor.
Qed.

Lemma run_task_id task context w :
  (run_task agents task context w).1.1.1 = sub_id task.
Proof.
  unfold run_task. destruct (agents (sub_agent task)) as [agent|]; simpl; [|done].
  by destruct (agent _ _ _) as [[e|r] w'].
Qed.

Lemma run_wave_spec tasks : forall context w,
  map fst (run_wave agents tasks context w).1.1 = map sub_id tasks /\
  Forall (fun a => is_wave a = false /\ is_blocked a = false)
    (run_wave agents tasks context w).2.
Proof.
  induction tasks as [|t tasks IH]; intros context w; simpl; [by split|].
  pose proof (run_task_log t context w) as Hl. pose proof (run_task_id t context w) as Hi.
  destruct (run_task agents t context w) as [[r w'] log]. simpl in *.
  destruct (IH context w') as [IH1 IH2].
  destruct (run_wave agents tasks context w') as [[rs w''] log']. simpl in *.
  split; [by rewrite Hi, IH1|]. by apply Forall_app.
Qed.

Lemma results_set_keys task_id result results k :
  k ∈ map fst (results_set task_id result results) <-> k = task_id \/ k ∈ map fst results.
Proof.
  induction results as [|[k' r] results IH]; simpl.
  - rewrite list_elem_of_singleton. split; [by left|]. intros [?|?%elem_of_nil]; done.
  - destruct (String.eqb_spec task_id k') as [->|Hne]; simpl; rewrite !elem_of_cons.
    + tauto.
    + rewrite IH. tauto.
Qed.

Lemma fold_results_set_keys task_results : forall results k,
  k ∈ map fst (fold_left (fun results r => results_set (fst r) (snd r) results)
                 task_results results) <->
  k ∈ map fst task_results \/ k ∈ map fst results.
Proof.
  induction task_results as [|[k' r] task_results IH]; intros results k; simpl.
  - split; [by right|]. intros [?%elem_of_nil|?]; done.
  - rewrite IH, results_set_keys, elem_of_cons. tauto.
Qed.

Lemma _execute_subtasks_spec tasks context w :
  (forall k, k ∈ map fst (_execute_subtasks agents tasks context w).1.1 <->
             k ∈ map sub_id tasks) /\
  Forall (fun a => is_wave a = false /\ is_blocked a = false)
    (_execute_subtasks agents tasks context w).2.
Proof.
  unfold _execute_subtasks.
  destruct (run_wave_spec tasks context w) as [H1 H2].
  destruct (run_wave agents tasks context w) as [[task_results w'] log]. simpl in *.
  split; [|done]. intros k. rewrite fold_results_set_keys, H1.
  split; [intros [?|?%elem_of_nil]; done|by left].
Qed.

Lemma record_results_spec results : forall d context,
  let d' := (record_results results d context).1 in
  dependencies d' = dependencies d /\
  map sub_id (subtasks d') = map sub_id (subtasks d) /\
  (forall k, is_Some (completed d' !! k) <->
             is_Some (completed d !! k) \/ k ∈ map fst results).
Proof.
  induction results as [|[task_id result] results IH]; intros d context; simpl.
  - repeat split; [by left|]. intros [?|?%elem_of_nil]; done.
  - destruct (IH (mark_completed task_id result d)
                 (<["result_" +:+ task_id := VStr (ar_output result)]> context))
      as (Hd & Hi & Hc).
    split; [done|]. split; [by rewrite Hi; apply mark_first_ids|].
    intros k. rewrite Hc. simpl. rewrite elem_of_cons.
    destruct (decide (k = task_id)) as [->|Hne].
    + rewrite lookup_insert_eq. split; [intros _; right; by left|intros _; left; by eexists].
    + rewrite lookup_insert_ne by done. tauto.
Qed.

Lemma run_loop_gated n : forall d context w log d' context' w' log',
  run_loop agents n d context w log = (d', context', w', log') ->
  forall ready done, Wave ready done ∈ log' ->
    Wave ready done ∈ log \/
    (forall t, t ∈ ready ->
       sub_status t = "pending" /\
       forall dep, dep ∈ deps_of d (sub_id t) -> is_Some (done !! dep)).
Proof.
  induction n as [|n IH]; intros d context w log d' context' w' log'; simpl.
  { intros [= <- <- <- <-]. by left. }
  destruct (get_ready_tasks d) as [|t0 ready0] eqn:Hready.
  { destruct (Nat.eqb _ _); intros [= <- <- <- <-] ready done Hin; [by left|].
    apply elem_of_app in Hin as [?|Hin]; [by left|].
    apply list_elem_of_singleton in Hin. discriminate. }
  destruct (_execute_subtasks_spec (t0 :: ready0) context w) as [_ Hlog].
  destruct (_execute_subtasks agents (t0 :: ready0) context w) as [[results w1] logw].
  simpl in Hlog.
  destruct (record_results_spec results d context) as (Hdeps & _ & _).
  destruct (record_results results d context) as [d1 context1]. simpl in Hdeps.
  intros Hrun ready done Hin.
  destruct (IH _ _ _ _ _ _ _ _ Hrun ready done Hin) as [Hold|Hnew].
  - apply elem_of_app in Hold as [?|Hold]; [by left|].
    apply elem_of_cons in Hold as [[= -> ->]|Hold].
    + right. intros t Ht. rewrite <- Hready in Ht.
      apply elem_of_get_ready_tasks in Ht. tauto.
    + rewrite Forall_forall in Hlog. apply Hlog in Hold as [? _]. discriminate.
  - right. intros t Ht. destruct (Hnew t Ht) as [Hp Hd]. split; [done|].
    intros dep Hdep. apply Hd. unfold deps_of in *. by rewrite Hdeps.
Qed.

Lemma run_loop_blocked n d context w log :
  get_ready_tasks d = [] -> size (completed d) <> length (subtasks d) ->
  run_loop agents (S n) d context w log = (d, context, w, log ++ [ev_execution_blocked d]).
Proof.
  intros Hready Hsize. simpl. rewrite Hready.
  by destruct (Nat.eqb_spec (size (completed d)) (length (subtasks d))).
Qed.

Lemma run_loop_waves_bound n : forall d context w log,
  (length (List.filter is_wave (run_loop agents n d context w log).2)
   <= length (List.filter is_wave log) + n)%nat.
Proof.
  induction n as [|n IH]; intros d context w log; simpl; [lia|].
  destruct (get_ready_tasks d) as [|t0 ready0].
  { destruct (Nat.eqb _ _); simpl; [lia|]. rewrite List.filter_app. simpl.
    rewrite length_app. simpl. lia. }
  destruct (_execute_subtasks_spec (t0 :: ready0) context w) as [_ Hlog].
  destruct (_execute_subtasks agents (t0 :: ready0) context w) as [[results w1] logw].
  simpl in Hlog.
  destruct (record_results results d context) as [d1 context1].
  etransitivity; [apply IH|].
  rewrite List.filter_app, length_app. simpl.
  assert (List.filter is_wave logw = []) as ->.
  { clear -Hlog. induction Hlog as [|a l [Ha _] _ IHl]; simpl; [done|]. by rewrite Ha. }
  simpl. lia.
Qed.


Lemma mark_completed_records task_id result d :
  completed (mark_completed task_id result d) !! task_id = Some result.
Proof. simpl. apply lookup_insert_eq. Qed.

Lemma mark_completed_finished_recorded task_id result d :
  finished_recorded d -> finished_recorded (mark_completed task_id result d).
Proof.
  intros Hinv t' Hin Hnp. simpl in *.
  destruct (decide (sub_id t' = task_id)) as [<-|Hne]; [rewrite lookup_insert_eq; by eexists|].
  rewrite lookup_insert_ne by done.
  apply elem_of_mark_first in Hin as [Hin|[? _]]; [by apply Hinv|done].
Qed.

Lemma record_results_finished_recorded results : forall d context,
  finished_recorded d -> finished_recorded (record_results results d context).1.
Proof.
  induction results as [|[task_id result] results IH]; intros d context Hinv; simpl; [done|].
  apply IH. by apply mark_completed_finished_recorded.
Qed.

Lemma pending_dependency_chain d rank n :
  finished_recorded d -> closed d ->
  (forall id dep, id ∈ ids d -> dep ∈ deps_of d id -> (rank dep < rank id)%nat) ->
  forall t, t ∈ subtasks d -> sub_status t = "pending" -> (rank (sub_id t) <= n)%nat ->
  exists t', t' ∈ get_ready_tasks d.
Proof.
  intros Hinv Hclosed Hrank. induction n as [|n IH]; intros t Hin Hp Hle.
  - exists t. apply elem_of_get_ready_tasks. repeat split; [done..|].
    intros dep Hdep. assert (sub_id t ∈ ids d) as Hid by by apply list_elem_of_fmap_2.
    specialize (Hrank _ _ Hid Hdep). lia.
  - destruct (forallb (fun dep => bool_decide (is_Some (completed d !! dep)))
                (deps_of d (sub_id t))) eqn:Hall.
    + exists t. apply elem_of_get_ready_tasks. repeat split; [done..|].
      intros dep Hdep. rewrite forallb_forall in Hall.
      apply list_elem_of_In in Hdep. specialize (Hall dep Hdep).
      by apply bool_decide_eq_true in Hall.
    + assert (exists dep, dep ∈ deps_of d (sub_id t) /\ completed d !! dep = None)
        as (dep & Hdep & Hnone).
      { clear -Hall. induction (deps_of d (sub_id t)) as [|x l IHl]; simpl in *; [done|].
        apply andb_false_iff in Hall as [Hx|Hl].
        - exists x. split; [left|]. apply bool_decide_eq_false in Hx.
          by apply eq_None_not_Some.
        - destruct (IHl Hl) as (dep & ? & ?). exists dep. split; [by right|done]. }
      assert (sub_id t ∈ ids d) as Hid by by apply list_elem_of_fmap_2.
      pose proof (Hclosed _ _ Hid Hdep) as Hknown.
      apply list_elem_of_fmap in Hknown as (u & -> & Hu).
      apply (IH u Hu).
      * destruct (String.eqb_spec (sub_status u) "pending") as [|Hnp]; [done|].
        apply (Hinv u Hu) in Hnp. rewrite Hnone in Hnp. by destruct Hnp.
      * specialize (Hrank _ _ Hid Hdep). lia.
Qed.

Lemma pending_implies_ready d :
  finished_recorded d -> closed d -> acyclic d ->
  (exists t, t ∈ subtasks d /\ sub_status t = "pending") ->
  get_ready_tasks d <> [].
Proof.
  intros Hinv Hclosed [rank Hrank] (t & Hin & Hp).
  destruct (pending_dependency_chain d rank (rank (sub_id t)) Hinv Hclosed Hrank t Hin Hp)
    as (t' & Ht'); [done|].
  intros Hnil. rewrite Hnil in Ht'. by apply elem_of_nil in Ht'.
Qed.

Lemma mark_first_duplicates_pending task_id status l :
  duplicates_pending l -> duplicates_pending (mark_first task_id status l).
Proof.
  induction l as [|t l IH]; simpl; [done|]. intros [Hhead Htail].
  destruct (String.eqb_spec (sub_id t) task_id) as [Heq|Hne]; simpl.
  - split; [|done]. intros u Hu Hid. by apply Hhead.
  - split; [|by apply IH]. intros u Hu Hid.
    apply elem_of_mark_first in Hu as [Hu|[Hu _]]; [by apply Hhead|congruence].
Qed.

Lemma record_results_duplicates_pending results : forall d context,
  duplicates_pending (subtasks d) ->
  duplicates_pending (subtasks (record_results results d context).1).
Proof.
  induction results as [|[task_id result] results IH]; intros d context Hd; simpl; [done|].
  apply IH. simpl. by apply mark_first_duplicates_pending.
Qed.

Lemma all_finished_nodup l :
  duplicates_pending l -> (forall t, t ∈ l -> sub_status t <> "pending") ->
  NoDup (map sub_id l).
Proof.
  induction l as [|t l IH]; simpl; [constructor|]. intros [Hhead Htail] Hall.
  constructor.
  - intros (u & Hid & Hu)%list_elem_of_fmap.
    apply (Hall u); [by right|]. by apply Hhead.
  - apply IH; [done|]. intros u Hu. apply Hall. by right.
Qed.

Lemma all_finished_size d :
  finished_recorded d -> recorded_known d -> duplicates_pending (subtasks d) ->
  (forall t, t ∈ subtasks d -> sub_status t <> "pending") ->
  size (completed d) = length (subtasks d).
Proof.
  intros Hinv Hknown Hdup Hall.
  pose proof (all_finished_nodup _ Hdup Hall) as Hnodup.
  assert (dom (completed d) = list_to_set (ids d)) as Hdom.
  { apply set_eq. intros k. rewrite elem_of_dom, elem_of_list_to_set. split; [apply Hknown|].
    intros (t & -> & Ht)%list_elem_of_fmap. apply Hinv; [done|]. by apply Hall. }
  rewrite <- size_dom, Hdom, size_list_to_set by done. unfold ids. by rewrite length_map.
Qed.

Lemma fresh_invariants d :
  fresh d ->
  finished_recorded d /\ recorded_known d /\ duplicates_pending (subtasks d).
Proof.
  intros [Hp He]. split; [|split].
  - intros t Hin Hnp. by rewrite (Hp t Hin) in Hnp.
  - intros k. rewrite He, lookup_empty. by intros [? ?].
  - induction (subtasks d) as [|t l IH]; simpl; [done|]. split.
    + intros u Hu _. apply Hp. by right.
    + apply IH. intros u Hu. apply Hp. by right.
Qed.

(** What [_decompose_task] builds is fresh. *)
Lemma build_fresh task entries : fresh (build task entries).
Proof.
  unfold build.
  assert (forall d, fresh d ->
            fresh (fold_left
                     (fun d '(task_id, description, agent, deps) =>
                        add_subtask task_id description agent (Some deps) d) entries d))
    as Hfold.
  { induction entries as [|[[[task_id description] agent] deps] entries IH];
      intros d Hd; simpl; [done|].
    apply IH. destruct Hd as [Hp He]. split; [|done]. simpl.
    intros t [Ht|Ht]%elem_of_app; [by apply Hp|].
    by apply list_elem_of_singleton in Ht as ->. }
  apply Hfold. split; [|done]. intros t Ht. by apply elem_of_nil in Ht.
Qed.

Lemma run_loop_never_blocked n : forall d context w log,
  finished_recorded d -> recorded_known d -> duplicates_pending (subtasks d) ->
  closed d -> acyclic d ->
  Forall (fun a => is_blocked a = false) log ->
  Forall (fun a => is_blocked a = false) (run_loop agents n d context w log).2.
Proof.
  induction n as [|n IH]; intros d context w log Hinv Hknown Hdup Hclosed Hacyclic Hlog;
    simpl; [done|].
  destruct (get_ready_tasks d) as [|t0 ready0] eqn:Hready.
  { rewrite (all_finished_size d Hinv Hknown Hdup), Nat.eqb_refl; [done|].
    intros t Hin Hp. apply (pending_implies_ready d Hinv Hclosed Hacyclic); eauto. }
  destruct (_execute_subtasks_spec (t0 :: ready0) context w) as [Hkeys Hlogw].
  destruct (_execute_subtasks agents (t0 :: ready0) context w) as [[results w1] logw].
  cbn [fst snd] in Hkeys, Hlogw.
  pose proof (record_results_finished_recorded results d context Hinv) as Hinv1.
  pose proof (record_results_duplicates_pending results d context Hdup) as Hdup1.
  destruct (record_results_spec results d context) as (Hdeps & Hids & Hcomp).
  destruct (record_results results d context) as [d1 context1]. cbn [fst snd] in *.
  assert (ids d1 = ids d) as Hids' by done.
  apply IH.
  - done.
  - intros k Hk. rewrite Hids'. apply Hcomp in Hk as [Hk|Hk]; [by apply Hknown|].
    apply Hkeys in Hk. apply list_elem_of_fmap in Hk as (t & -> & Ht).
    rewrite <- Hready in Ht. apply elem_of_get_ready_tasks in Ht as [Ht _].
    by apply list_elem_of_fmap_2.
  - done.
  - intros id dep. unfold deps_of. rewrite Hids', Hdeps. apply Hclosed.
  - destruct Hacyclic as [rank Hrank]. exists rank. intros id dep.
    unfold deps_of. rewrite Hids', Hdeps. apply Hrank.
  - apply Forall_app. split; [done|]. constructor; [done|].
    eapply Forall_impl; [exact Hlogw|]. by intros a [_ ?].
Qed.

Lemma run_loop_log_extends n : forall d context w log,
  exists suffix, (run_loop agents n d context w log).2 = log ++ suffix.
Proof.
  induction n as [|n IH]; intros d context w log; simpl; [exists []; by rewrite app_nil_r|].
  destruct (get_ready_tasks d) as [|t0 ready0].
  { destruct (Nat.eqb _ _); simpl; [exists []; by rewrite app_nil_r|by eexists]. }
  destruct (_execute_subtasks agents (t0 :: ready0) context w) as [[results w1] logw].
  destruct (record_results results d context) as [d1 context1].
  destruct (IH d1 context1 w1 (log ++ Wave (t0 :: ready0) (completed d) :: logw))
    as [suffix ->].
  rewrite <- app_assoc. by eexists.
Qed.

(** While the loop runs, a ready set that is not empty is dispatched as a
    whole. *)
Lemma run_loop_dispatches_ready n d context w log :
  get_ready_tasks d <> [] ->
  Wave (get_ready_tasks d) (completed d) ∈ (run_loop agents (S n) d context w log).2.
Proof.
  intros Hne. simpl. destruct (get_ready_tasks d) as [|t0 ready0]; [done|].
  destruct (_execute_subtasks agents (t0 :: ready0) context w) as [[results w1] logw].
  destruct (record_results results d context) as [d1 context1].
  destruct (run_loop_log_extends n d1 context1 w1
              (log ++ Wave (t0 :: ready0) (completed d) :: logw)) as [suffix ->].
  rewrite !elem_of_app, elem_of_cons. left. right. by left.
Qed.

(** ** The claims *)

(** C9.  In the ready-set loop every subtask of a dispatched wave is pending
    and has all its dependency ids in [completed] at the moment of the
    dispatch.  The loop makes at most [max_steps] waves.  When the ready set
    is empty while subtasks are outstanding, the loop stops at once: nothing
    is dispatched, the decomposition, the context and the world are as they
    were, and the only thing recorded is the [execution_blocked] event with
    the number of completed subtasks and their total. *)
Theorem ready_set_loop_gates_and_stops max_steps d context w d' context' w' log :
  execute_subtasks_loop agents max_steps d context w = (d', context', w', log) ->
  (forall ready done, Wave ready done ∈ log ->
     forall t, t ∈ ready ->
       sub_status t = "pending" /\
       forall dep, dep ∈ deps_of d (sub_id t) -> is_Some (done !! dep)) /\
  (length (List.filter is_wave log) <= Z.to_nat max_steps)%nat /\
  (get_ready_tasks d = [] -> size (completed d) <> length (subtasks d) ->
   d' = d /\ context' = context /\ w' = w /\
   log = if 0 <? max_steps then [ev_execution_blocked d] else []).
Proof.
  unfold execute_subtasks_loop. intros Hrun. split; [|split].
  - intros ready done Hin.
    destruct (run_loop_gated _ _ _ _ _ _ _ _ _ Hrun ready done Hin) as [Hnil|Hg]; [|done].
    by apply elem_of_nil in Hnil.
  - pose proof (run_loop_waves_bound (Z.to_nat max_steps) d context w []) as Hb.
    rewrite Hrun in Hb. simpl in Hb. lia.
  - intros Hready Hsize. destruct (Z.ltb_spec 0 max_steps) as [Hpos|Hle].
    + destruct (Z.to_nat max_steps) as [|n] eqn:Hn; [lia|].
      rewrite run_loop_blocked in Hrun by done. by injection Hrun as <- <- <- <-.
    + replace (Z.to_nat max_steps) with 0%nat in Hrun by lia. simpl in Hrun.
      by injection Hrun as <- <- <- <-.
Qed.

(** C10.  [mark_completed] records the result under the subtask id whether
    it reports success or failure.  A pending subtask whose dependency ids
    are all in [completed] is in the ready set, whatever those results say,
    and the loop dispatches the whole ready set.  Hence, when every
    dependency names a subtask and the dependencies have no cycle, the ready
    set is not empty as long as a subtask is pending, and the loop never
    reports [execution_blocked], whatever the agents return. *)
Theorem finished_subtasks_never_block :
  (forall task_id result d,
     completed (mark_completed task_id result d) !! task_id = Some result) /\
  (forall d t,
     t ∈ subtasks d -> sub_status t = "pending" ->
     (forall dep, dep ∈ deps_of d (sub_id t) -> is_Some (completed d !! dep)) ->
     t ∈ get_ready_tasks d) /\
  (forall n d context w log,
     get_ready_tasks d <> [] ->
     Wave (get_ready_tasks d) (completed d) ∈ (run_loop agents (S n) d context w log).2) /\
  (forall task_id result d,
     finished_recorded d -> finished_recorded (mark_completed task_id result d)) /\
  (forall d,
     finished_recorded d -> closed d -> acyclic d ->
     (exists t, t ∈ subtasks d /\ sub_status t = "pending") ->
     get_ready_tasks d <> []) /\
  (forall max_steps d context w,
     fresh d -> closed d -> acyclic d ->
     Forall (fun a => is_blocked a = false)
       (execute_subtasks_loop agents max_steps d context w).2).
Proof.
  split; [|split; [|split; [|split; [|split]]]].
  - apply mark_completed_records.
  - intros d t Hin Hp Hdeps. by apply elem_of_get_ready_tasks.
  - apply run_loop_dispatches_ready.
  - apply mark_completed_finished_recorded.
  - apply pending_implies_ready.
  - intros max_steps d context w Hfresh Hclosed Hacyclic.
    destruct (fresh_invariants d Hfresh) as (Hinv & Hknown & Hdup).
    by apply run_loop_never_blocked.
Qed.

End Facts.

(** ** The orchestrator on the examples *)

(** The wave of A and B, then the wave of C: A and B both fail, and C is
    dispatched all the same. *)
Example diamond_runs_in_two_waves :
  match execute_subtasks_loop test_agents 15 diamond ∅ 0%nat with
  | (d', _, calls, log) =>
      map (fun a => match a with
                    | Wave ready done => (map sub_id ready, map fst (map_to_list done))
                    | Emit _ => ([], [])
                    end) (List.filter is_wave log)
      = [(["A"; "B"], []); (["C"], ["A"; "B"])] /\
      map sub_status (subtasks d') = ["failed"; "failed"; "completed"] /\
      calls = 3%nat
  end.
Proof. by vm_compute. Qed.

(** With A waiting for B and B for A nothing is ready. *)
Lemma cyclic_has_no_ready_task : get_ready_tasks cyclic = [].
Proof. by vm_compute. Qed.

(** The theorem of C9 on the cyclic decomposition. *)
Lemma ready_set_loop_gates_and_stops_witness :
  execute_subtasks_loop test_agents 15 cyclic ∅ 0%nat
  = (cyclic, ∅, 0%nat, [ev_execution_blocked cyclic]).
Proof.
  destruct (execute_subtasks_loop test_agents 15 cyclic ∅ 0%nat)
    as [[[d' context'] w'] log] eqn:E.
  destruct (ready_set_loop_gates_and_stops test_agents 15 cyclic ∅ 0%nat d' context' w' log E)
    as (_ & _ & H).
  destruct H as (-> & -> & -> & ->); [apply cyclic_has_no_ready_task|by vm_compute|].
  reflexivity.
Defined.

(** In [diamond] every dependency names a subtask of lower rank. *)
Lemma diamond_closed_acyclic :
  forall id dep, id ∈ ids diamond -> dep ∈ deps_of diamond id ->
    dep ∈ ids diamond /\ (diamond_rank dep < diamond_rank id)%nat.
Proof.
  intros id dep Hid Hdep.
  change (ids diamond) with ["A"; "B"; "C"] in *.
  rewrite !elem_of_cons in Hid. destruct Hid as [->|[->|[->|Hid]]].
  - vm_compute in Hdep. by apply elem_of_nil in Hdep.
  - vm_compute in Hdep. by apply elem_of_nil in Hdep.
  - change (deps_of diamond "C") with ["A"; "B"] in Hdep.
    rewrite !elem_of_cons in Hdep. destruct Hdep as [->|[->|Hdep]].
    + split; [set_solver|vm_compute; lia].
    + split; [set_solver|vm_compute; lia].
    + by apply elem_of_nil in Hdep.
  - by apply elem_of_nil in Hid.
Qed.

(** The theorem of C10 on [diamond], where both dependencies of C fail. *)
Lemma finished_subtasks_never_block_witness :
  Forall (fun a => is_blocked a = false)
    (execute_subtasks_loop test_agents 15 diamond ∅ 0%nat).2.
Proof.
  apply (finished_subtasks_never_block test_agents).
  - apply build_fresh.
  - intros id dep Hid Hdep. by apply diamond_closed_acyclic with id.
  - exists diamond_rank. intros id dep Hid Hdep. by apply diamond_closed_acyclic.
Defined.

End OrchestratorFacts.

(** * Further properties of the execution engine *)
Module EngineBehaviour.
Import Engine EngineFacts.

Section Run.
Context {W : Type}.
Variable env : Env W.

(** [cancel] reaches the status and the completion time only. *)
Lemma resume_fields w ex :
  exec_context (resume env w ex) = exec_context ex /\
  exec_step_results (resume env w ex) = exec_step_results ex /\
  exec_current_step (resume env w ex) = exec_current_step ex /\
  exec_error (resume env w ex) = exec_error ex /\
  exec_id (resume env w ex) = exec_id ex.
Proof. unfold resume, cancel_execution. by repeat case_match. Qed.

Lemma _execute_step_effective step context w :
  _execute_step env step context w =
  match step_type step with
  | TOOL =>
      let '(o, w') := _execute_tool_step env (VDict (effective_config step context)) w in
      (o, context, w')
  | AGENT => _execute_agent_step env (VDict (effective_config step context)) context w
  | PARALLEL => _execute_parallel_step env (effective_config step context) context w
  | LOOP => _execute_loop_step env (effective_config step context) context w
  | CONDITION =>
      let '(o, w') := _execute_condition_step env (effective_config step context) context w in
      (o, context, w')
  | TRANSFORM => (_execute_transform_step env (effective_config step context) context, context, w)
  | WAIT =>
      let '(o, w') := _execute_wait_step env (effective_config step context) context w in
      (o, context, w')
  end.
Proof. reflexivity. Qed.

(** X1.  When the first attempt of a step raises and the step's on_error is
    'skip', the loop of execute() goes on with the next step: the step ends
    with status SKIPPED and error str(e), its result is left as it was,
    nothing is added to execution.step_results, the execution gets no error,
    and what is recorded for the step is step_started, the one call of
    _execute_step and step_skipped with reason str(e). *)
Theorem skip_policy_continues i step rest st e context' w' :
  skipped_by_condition env step (exec_context (ls_exec st)) = false ->
  _execute_step env step (exec_context (ls_exec st)) (ls_world st) = (Raise e, context', w') ->
  step_on_error step = "skip" ->
  exists step' st',
    run_step env i step st = (step', st', Next) /\
    step_status step' = SKIPPED /\ step_error step' = Some (exn_msg e) /\
    step_result step' = step_result step /\
    exec_step_results (ls_exec st') = exec_step_results (ls_exec st) /\
    exec_context (ls_exec st') = context' /\
    exec_error (ls_exec st') = exec_error (ls_exec st) /\
    ls_log st' =
      ls_log st ++ [ev_step_started step; ActCall (step_id step);
                    ev_step_skipped step (exn_msg e)] /\
    run_steps env i (step :: rest) st =
      (let '(rest', st'', f) := run_steps env (S i) rest st' in (step' :: rest', st'', f)).
Proof.
  intros Hskip Hexec Hpol.
  pose proof (run_step_first_attempt_raises env i step st e context' w' Hskip Hexec) as Hrun.
  simpl in Hrun. rewrite Hpol in Hrun. simpl in Hrun.
  eexists _, _. split; [exact Hrun|]. simpl.
  destruct (resume_fields w' (set_context context' (set_current_step i (ls_exec st))))
    as (-> & -> & _ & -> & _).
  repeat split; try done.
  - by rewrite <- app_assoc.
  - by rewrite Hrun.
Qed.


(** ** What one iteration of the loop records *)

Lemma retry_loop_log n : forall retry step st,
  0 <= retry ->
  exists suffix,
    ls_log (retry_loop env n retry step st).1.2 = ls_log st ++ suffix /\
    Forall (fun a => is_terminal a = false) suffix /\
    (length (List.filter is_call suffix) <= n)%nat /\
    Forall (fun secs => exists k, retry <= k < retry + Z.of_nat n /\ secs = 2 ^ k)
      (sleeps_of suffix).
Proof.
  induction n as [|n IH]; intros retry step st Hr; simpl.
  { exists []. rewrite app_nil_r. repeat split; constructor. }
  destruct (_execute_step env step _ _) as [[[result|e|] context'] w2]; simpl.
  - eexists. split; [reflexivity|]. repeat split; [repeat constructor|simpl; lia|].
    simpl. constructor; [|constructor]. exists retry. split; [lia|done].
  - destruct (retry =? _); simpl.
    + eexists. split; [reflexivity|]. repeat split; [repeat constructor|simpl; lia|].
      simpl. constructor; [|constructor]. exists retry. split; [lia|done].
    + match goal with |- context [retry_loop env n (retry + 1) step ?s2] =>
        destruct (IH (retry + 1) step s2) as (suffix & Hlog & Hterm & Hcalls & Hsleeps);
          [lia|] end.
      rewrite Hlog. simpl. rewrite <- app_assoc. eexists. split; [reflexivity|].
      repeat split.
      * simpl. by repeat constructor.
      * simpl. lia.
      * simpl. constructor; [exists retry; split; [lia|done]|].
        eapply Forall_impl; [exact Hsleeps|]. intros secs (k & Hk & ->). exists k.
        split; [lia|done].
  - eexists. split; [reflexivity|]. repeat split; [repeat constructor|simpl; lia|].
    simpl. constructor; [|constructor]. exists retry. split; [lia|done].
Qed.

Lemma retry_loop_fields n : forall retry step st,
  let ex' := ls_exec (retry_loop env n retry step st).1.2 in
  exec_step_results ex' = exec_step_results (ls_exec st) /\
  exec_current_step ex' = exec_current_step (ls_exec st) /\
  exec_error ex' = exec_error (ls_exec st) /\
  exec_id ex' = exec_id (ls_exec st).
Proof.
  induction n as [|n IH]; intros retry step st; simpl; [done|].
  destruct (_execute_step env step _ _) as [[[result|e|] context'] w2]; simpl.
  - destruct (resume_fields w2 (set_context context'
                (resume env (sleep env (2 ^ retry) (ls_world st)) (ls_exec st))))
      as (_ & -> & -> & -> & ->). simpl.
    by destruct (resume_fields (sleep env (2 ^ retry) (ls_world st)) (ls_exec st))
      as (_ & -> & -> & -> & ->).
  - assert (forall x : WorkflowExecution,
              x = resume env w2 (set_context context'
                    (resume env (sleep env (2 ^ retry) (ls_world st)) (ls_exec st))) ->
              exec_step_results x = exec_step_results (ls_exec st) /\
              exec_current_step x = exec_current_step (ls_exec st) /\
              exec_error x = exec_error (ls_exec st) /\
              exec_id x = exec_id (ls_exec st)) as Hx.
    { intros x ->.
      destruct (resume_fields w2 (set_context context'
                  (resume env (sleep env (2 ^ retry) (ls_world st)) (ls_exec st))))
        as (_ & -> & -> & -> & ->). simpl.
      by destruct (resume_fields (sleep env (2 ^ retry) (ls_world st)) (ls_exec st))
        as (_ & -> & -> & -> & ->). }
    destruct (retry =? _); simpl; [by apply Hx|].
    match goal with |- context [retry_loop env n (retry + 1) step ?s2] =>
      destruct (IH (retry + 1) step s2) as (-> & -> & -> & ->) end.
    simpl. by apply Hx.
  - by destruct (resume_fields (sleep env (2 ^ retry) (ls_world st)) (ls_exec st))
      as (_ & -> & -> & -> & ->).
Qed.

(** How the retries of a step end: a retry that returns completes the
    step, and an exception leaves the loop at the last retry. *)
Lemma retry_loop_status n : forall retry step st,
  (0 < n)%nat -> retry + Z.of_nat n = step_max_retries step ->
  match (retry_loop env n retry step st).2 with
  | Next =>
      exists result,
        (retry_loop env n retry step st).1.1 = set_result result (set_status COMPLETED step)
  | _ => (retry_loop env n retry step st).1.1 = step
  end.
Proof.
  induction n as [|n IH]; intros retry step st Hn Hmax; [lia|]. simpl.
  destruct (_execute_step env step _ _) as [[[result|e|] context'] w2]; simpl.
  - by eexists.
  - destruct (Z.eqb_spec retry (step_max_retries step - 1)) as [Heq|Hne]; simpl; [done|].
    apply IH; lia.
  - done.
Qed.

Lemma _execute_step_keeps_context step context w :
  keeps_context (step_type step) = true ->
  (_execute_step env step context w).1.2 = context.
Proof.
  rewrite _execute_step_effective. destruct (step_type step); try done; intros _.
  - by destruct (_execute_tool_step env (VDict (effective_config step context)) w).
  - by destruct (_execute_condition_step env (effective_config step context) context w).
  - by destruct (_execute_wait_step env (effective_config step context) context w).
Qed.

Lemma retry_loop_context n : forall retry step st,
  keeps_context (step_type step) = true ->
  exec_context (ls_exec (retry_loop env n retry step st).1.2) = exec_context (ls_exec st).
Proof.
  induction n as [|n IH]; intros retry step st Hk; simpl; [done|].
  pose proof (_execute_step_keeps_context step
                (exec_context (resume env (sleep env (2 ^ retry) (ls_world st)) (ls_exec st)))
                (sleep env (2 ^ retry) (ls_world st)) Hk) as Hc.
  destruct (_execute_step env step _ _) as [[[result|e|] context'] w2]; simpl in *; subst.
  - destruct (resume_fields w2 (set_context
                (exec_context (resume env (sleep env (2 ^ retry) (ls_world st)) (ls_exec st)))
                (resume env (sleep env (2 ^ retry) (ls_world st)) (ls_exec st))))
      as (-> & _). simpl.
    by destruct (resume_fields (sleep env (2 ^ retry) (ls_world st)) (ls_exec st)) as (-> & _).
  - assert (exec_context (resume env w2 (set_context
                (exec_context (resume env (sleep env (2 ^ retry) (ls_world st)) (ls_exec st)))
                (resume env (sleep env (2 ^ retry) (ls_world st)) (ls_exec st))))
            = exec_context (ls_exec st)) as Hx.
    { destruct (resume_fields w2 (set_context
                (exec_context (resume env (sleep env (2 ^ retry) (ls_world st)) (ls_exec st)))
                (resume env (sleep env (2 ^ retry) (ls_world st)) (ls_exec st))))
        as (-> & _). simpl.
      by destruct (resume_fields (sleep env (2 ^ retry) (ls_world st)) (ls_exec st))
        as (-> & _). }
    destruct (retry =? _); simpl; [done|]. rewrite IH by done. done.
  - by destruct (resume_fields (sleep env (2 ^ retry) (ls_world st)) (ls_exec st)) as (-> & _).
Qed.


Lemma run_step_log i step st :
  exists suffix,
    ls_log (run_step env i step st).1.2 = ls_log st ++ suffix /\
    Forall (fun a => is_terminal a = false) suffix /\
    (length (List.filter is_call suffix) <= 1 + Z.to_nat (step_max_retries step))%nat /\
    (step_on_error step <> "retry" -> (length (List.filter is_call suffix) <= 1)%nat) /\
    Forall (fun secs => exists k, 0 <= k < step_max_retries step /\ secs = 2 ^ k)
      (sleeps_of suffix).
Proof.
  unfold run_step.
  destruct (skipped_by_condition env step _); simpl.
  { eexists. split; [reflexivity|]. repeat split; try (simpl; lia); repeat constructor. }
  destruct (_execute_step env _ _ _) as [[[result|e|] context'] w']; simpl.
  - rewrite <- app_assoc. eexists. split; [reflexivity|].
    repeat split; try (simpl; lia); repeat constructor.
  - destruct (String.eqb_spec (step_on_error step) "skip") as [Hs|Hs]; simpl.
    { rewrite <- app_assoc. eexists. split; [reflexivity|].
      repeat split; try (simpl; lia); repeat constructor. }
    destruct (String.eqb_spec (step_on_error step) "retry") as [Hr|Hr]; simpl;
      [|eexists; split; [reflexivity|];
        repeat split; try (simpl; lia); repeat constructor].
    destruct (Z.ltb_spec 0 (step_max_retries step)) as [Hm|Hm]; simpl;
      [|eexists; split; [reflexivity|];
        repeat split; try (simpl; lia); repeat constructor].
    match goal with |- context [retry_loop env ?n 0 ?s ?t] =>
      destruct (retry_loop_log n 0 s t) as (suffix & Hlog & Hterm & Hcalls & Hsleeps);
        [lia|]; destruct (retry_loop env n 0 s t) as [[s2 st2] f] end.
    simpl in *.
    assert (ls_log (match f with
                    | Next => (set_completed_at (now env (ls_world st2)) s2, st2, Next)
                    | _ => (s2, st2, f)
                    end).1.2 = ls_log st2) as -> by by destruct f.
    rewrite Hlog, <- app_assoc. eexists. split; [reflexivity|]. repeat split.
    + simpl. by repeat constructor.
    + simpl. lia.
    + done.
    + simpl. eapply Forall_impl; [exact Hsleeps|]. intros secs (k & Hk & ->).
      exists k. split; [lia|done].
  - eexists. split; [reflexivity|]. repeat split; try (simpl; lia); repeat constructor.
Qed.

Lemma run_step_fields i step st :
  let ex' := ls_exec (run_step env i step st).1.2 in
  exec_current_step ex' = i /\
  exec_error ex' = exec_error (ls_exec st) /\
  exec_id ex' = exec_id (ls_exec st) /\
  (forall k, k <> step_id step ->
     exec_step_results ex' !! k = exec_step_results (ls_exec st) !! k).
Proof.
  unfold run_step.
  destruct (skipped_by_condition env step _); simpl; [done|].
  destruct (_execute_step env _ _ _) as [[[result|e|] context'] w']; simpl.
  - destruct (resume_fields w' (set_context context' (set_current_step i (ls_exec st))))
      as (Hc & Hr & Hi & He & Hid).
    destruct result as [|kv result]; simpl; rewrite Hi, He, Hid, Hr; simpl;
      (repeat split; intros k Hk; by rewrite lookup_insert_ne).
  - destruct (resume_fields w' (set_context context' (set_current_step i (ls_exec st))))
      as (Hc & Hr & Hi & He & Hid).
    destruct (String.eqb (step_on_error step) "skip"); simpl.
    { rewrite Hi, He, Hid, Hr. done. }
    destruct (_ && _); simpl; [|rewrite Hi, He, Hid, Hr; done].
    match goal with |- context [retry_loop env ?n 0 ?s ?t] =>
      destruct (retry_loop_fields n 0 s t) as (Hr2 & Hi2 & He2 & Hid2);
      destruct (retry_loop env n 0 s t) as [[s2 st2] f] end.
    simpl in *.
    assert (ls_exec (match f with
                     | Next => (set_completed_at (now env (ls_world st2)) s2, st2, Next)
                     | _ => (s2, st2, f)
                     end).1.2 = ls_exec st2) as -> by by destruct f.
    rewrite Hr2, Hi2, He2, Hid2, Hi, He, Hid, Hr. done.
  - done.
Qed.

Lemma run_step_status i step st :
  match (run_step env i step st).2 with
  | Next => settled (run_step env i step st).1.1
  | Abort e =>
      (step_status (run_step env i step st).1.1 = FAILED \/
       step_status (run_step env i step st).1.1 = RUNNING) /\
      is_Some (step_error (run_step env i step st).1.1)
  | Stuck => True
  end.
Proof.
  unfold run_step.
  destruct (skipped_by_condition env step _); simpl; [by right|].
  destruct (_execute_step env _ _ _) as [[[result|e|] context'] w']; simpl.
  - by left.
  - destruct (String.eqb (step_on_error step) "skip"); simpl; [by right|].
    destruct (String.eqb (step_on_error step) "retry"); simpl; [|split; [by left|by eexists]].
    destruct (Z.ltb_spec 0 (step_max_retries step)) as [Hm|Hm]; simpl;
      [|split; [by left|by eexists]].
    match goal with |- context [retry_loop env ?n 0 ?s ?t] =>
      pose proof (retry_loop_status n 0 s t) as Hst;
      destruct (retry_loop env n 0 s t) as [[s2 st2] f] end.
    simpl in Hst. destruct f; simpl.
    + destruct Hst as [result ->]; [lia|lia|]. by left.
    + rewrite Hst by lia. split; [by right|by eexists].
    + done.
  - done.
Qed.

Lemma run_step_context i step st k :
  keeps_context (step_type step) = true ->
  k <> step_id step +:+ "_output" ->
  exec_context (ls_exec (run_step env i step st).1.2) !! k = exec_context (ls_exec st) !! k.
Proof.
  intros Hk Hne. unfold run_step.
  destruct (skipped_by_condition env step _); simpl; [done|].
  set (running := set_started_at _ (set_status RUNNING step)).
  pose proof (_execute_step_keeps_context running
                (exec_context (ls_exec st)) (ls_world st) Hk) as Hc.
  destruct (_execute_step env running _ _) as [[[result|e|] context'] w']; simpl in *; subst.
  - destruct (resume_fields w' (set_context (exec_context (ls_exec st))
                                  (set_current_step i (ls_exec st)))) as (Hc & _).
    destruct result as [|kv result]; simpl; rewrite ?Hc; simpl; [done|].
    by rewrite lookup_insert_ne.
  - destruct (resume_fields w' (set_context (exec_context (ls_exec st))
                                  (set_current_step i (ls_exec st)))) as (Hc & _).
    destruct (String.eqb (step_on_error step) "skip"); simpl; [by rewrite Hc|].
    destruct (_ && _); simpl; [|by rewrite Hc].
    match goal with |- context [retry_loop env ?n 0 ?s ?t] =>
      pose proof (retry_loop_context n 0 s t Hk) as Hr;
      destruct (retry_loop env n 0 s t) as [[s2 st2] f] end.
    simpl in Hr.
    assert (ls_exec (match f with
                     | Next => (set_completed_at (now env (ls_world st2)) s2, st2, Next)
                     | _ => (s2, st2, f)
                     end).1.2 = ls_exec st2) as -> by by destruct f.
    by rewrite Hr, Hc.
  - done.
Qed.


(** ** What the whole loop keeps *)

Lemma run_steps_log steps : forall i st,
  exists suffix,
    ls_log (run_steps env i steps st).1.2 = ls_log st ++ suffix /\
    Forall (fun a => is_terminal a = false) suffix.
Proof.
  induction steps as [|s rest IH]; intros i st; simpl.
  { exists []. by rewrite app_nil_r. }
  destruct (run_step_log i s st) as (suffix & Hlog & Hterm & _).
  destruct (run_step env i s st) as [[s' st'] f]. simpl in Hlog.
  destruct f; simpl; [|by eauto..].
  destruct (IH (S i) st') as (suffix' & Hlog' & Hterm').
  destruct (run_steps env (S i) rest st') as [[rest' st''] f']. simpl in *.
  exists (suffix ++ suffix'). rewrite Hlog', Hlog, <- app_assoc. split; [done|].
  by apply Forall_app.
Qed.

Lemma run_steps_fields steps : forall i st,
  let ex' := ls_exec (run_steps env i steps st).1.2 in
  exec_error ex' = exec_error (ls_exec st) /\
  exec_id ex' = exec_id (ls_exec st) /\
  (forall k, k ∉ map step_id steps ->
     exec_step_results ex' !! k = exec_step_results (ls_exec st) !! k).
Proof.
  induction steps as [|s rest IH]; intros i st; simpl; [done|].
  destruct (run_step_fields i s st) as (_ & He & Hid & Hr).
  destruct (run_step env i s st) as [[s' st'] f]. simpl in *.
  assert (forall k, k ∉ step_id s :: map step_id rest ->
            k <> step_id s /\ k ∉ map step_id rest) as Hsplit.
  { intros k Hk. split; intros ?; apply Hk; [subst; left|by right]. }
  destruct f; simpl.
  - destruct (IH (S i) st') as (He' & Hid' & Hr').
    destruct (run_steps env (S i) rest st') as [[rest' st''] f']. simpl in *.
    rewrite He', Hid', He, Hid. repeat split. intros k Hk.
    destruct (Hsplit k Hk) as [Hne Hnin]. by rewrite Hr', Hr.
  - repeat split; try done. intros k Hk. destruct (Hsplit k Hk) as [Hne Hnin]. by apply Hr.
  - repeat split; try done. intros k Hk. destruct (Hsplit k Hk) as [Hne Hnin]. by apply Hr.
Qed.

Lemma run_steps_context steps : forall i st k,
  Forall (fun s => keeps_context (step_type s) = true) steps ->
  (forall s, s ∈ steps -> k <> step_id s +:+ "_output") ->
  exec_context (ls_exec (run_steps env i steps st).1.2) !! k = exec_context (ls_exec st) !! k.
Proof.
  induction steps as [|s rest IH]; intros i st k Hall Hk; simpl; [done|].
  apply Forall_cons in Hall as [Hs Hrest].
  pose proof (run_step_context i s st k Hs (Hk s ltac:(left))) as Hc.
  destruct (run_step env i s st) as [[s' st'] f]. simpl in Hc.
  destruct f; simpl; try done.
  specialize (IH (S i) st' k Hrest ltac:(intros s0 H0; apply Hk; by right)).
  destruct (run_steps env (S i) rest st') as [[rest' st''] f']. simpl in *.
  by rewrite IH.
Qed.

(** The steps as the loop leaves them: those it went past are settled, the
    one that made it stop is FAILED or RUNNING, and the ones behind it are
    as they were. *)
Lemma run_steps_status steps : forall i st,
  match (run_steps env i steps st).2 with
  | Next =>
      Forall settled (run_steps env i steps st).1.1 /\
      (steps <> [] ->
       exec_current_step (ls_exec (run_steps env i steps st).1.2)
       = (i + length steps - 1)%nat)
  | Abort e =>
      exists pre s post,
        (run_steps env i steps st).1.1 = pre ++ s :: post /\
        Forall settled pre /\
        (step_status s = FAILED \/ step_status s = RUNNING) /\
        is_Some (step_error s) /\
        post = drop (S (length pre)) steps /\
        exec_current_step (ls_exec (run_steps env i steps st).1.2) = (i + length pre)%nat
  | Stuck => True
  end.
Proof.
  induction steps as [|s rest IH]; intros i st; simpl; [by split|].
  pose proof (run_step_status i s st) as Hst.
  destruct (run_step_fields i s st) as (Hi & _).
  destruct (run_step env i s st) as [[s' st'] f]. simpl in *.
  destruct f; simpl.
  - destruct rest as [|s2 rest2].
    { simpl. split; [constructor; [done|constructor]|]. intros _. rewrite Hi. lia. }
    specialize (IH (S i) st').
    destruct (run_steps env (S i) (s2 :: rest2) st') as [[rest' st''] f']. simpl in *.
    destruct f'; simpl; [| |done].
    + destruct IH as [Hall Hcur]. split; [by constructor|]. intros _.
      rewrite Hcur by done. lia.
    + destruct IH as (pre & s0 & post & -> & Hpre & Hs0 & Herr & -> & Hcur).
      exists (s' :: pre), s0, (drop (S (length pre)) (s2 :: rest2)). simpl.
      repeat split; try done; [by constructor|]. rewrite Hcur. lia.
  - destruct Hst as [Hs Herr]. exists [], s', rest. simpl. rewrite drop_0.
    repeat split; try done. rewrite Hi. lia.
  - done.
Qed.


Lemma initial_state_fields wf ic w :
  let st := initial_state env wf ic w in
  exec_error (ls_exec st) = None /\
  exec_step_results (ls_exec st) = ∅ /\
  exec_context (ls_exec st) = default ∅ ic ∪ wf_variables wf /\
  exists data, ls_log st = [ActEmit (mk_event "workflow_started" data)].
Proof.
  unfold initial_state. destruct (uuid4 env w) as [uuid w0]. simpl.
  repeat split. by eexists.
Qed.

(** ** What a run leaves *)

(** X2.  When execute() returns, either the execution is 'completed' with no
    error, every step is COMPLETED or SKIPPED and current_step is the index of
    the last step (when there is one); or it is 'failed' with an error, the
    steps before the failing one are COMPLETED or SKIPPED, the failing step is
    FAILED (RUNNING after exhausted retries) with its error set, the steps
    after it are as they were, and current_step is the index of the failing
    step. *)
Theorem steps_settled_after_run wf ic w wf' ex w' log :
  execute env wf ic w = Ret (wf', ex, w', log) ->
  (exec_status ex = "completed" /\ exec_error ex = None /\
   Forall settled (wf_steps wf') /\
   (wf_steps wf <> [] -> exec_current_step ex = (length (wf_steps wf) - 1)%nat)) \/
  (exec_status ex = "failed" /\ is_Some (exec_error ex) /\
   exists pre s post,
     wf_steps wf' = pre ++ s :: post /\
     Forall settled pre /\
     (step_status s = FAILED \/ step_status s = RUNNING) /\
     is_Some (step_error s) /\
     post = drop (S (length pre)) (wf_steps wf) /\
     exec_current_step ex = length pre).
Proof.
  rewrite execute_unfold.
  pose proof (run_steps_status (wf_steps wf) 0%nat (initial_state env wf ic w)) as Hst.
  destruct (run_steps_fields (wf_steps wf) 0%nat (initial_state env wf ic w)) as (He & _).
  destruct (initial_state_fields wf ic w) as (Herr & _).
  destruct (run_steps env 0 _ _) as [[steps' st] f]. simpl in *.
  destruct f; intros [= <- <- <- <-]; simpl.
  - left. destruct Hst as [Hall Hcur]. repeat split; [congruence|done|].
    intros Hne. by rewrite Hcur.
  - right. repeat split; [by eexists|].
    destruct Hst as (pre & s & post & -> & ? & ? & ? & ? & ?). exists pre, s, post.
    by repeat split.
Qed.

(** X3.  The record of a run that returns starts with workflow_started and
    ends with its only terminal event: workflow_completed when the status is
    'completed', workflow_failed with the error that execution.error holds
    when it is 'failed'; no workflow_completed or workflow_failed occurs
    before the end. *)
Theorem one_terminal_event_ends_the_record wf ic w wf' ex w' log :
  execute env wf ic w = Ret (wf', ex, w', log) ->
  exists data body final,
    log = ActEmit (mk_event "workflow_started" data) :: body ++ [final] /\
    Forall (fun a => is_terminal a = false) body /\
    ((exec_status ex = "completed" /\ exists t, final = ev_workflow_completed ex t) \/
     (exec_status ex = "failed" /\
      exists e, final = ev_workflow_failed ex e /\ exec_error ex = Some (exn_msg e))).
Proof.
  rewrite execute_unfold.
  destruct (run_steps_log (wf_steps wf) 0%nat (initial_state env wf ic w))
    as (suffix & Hlog & Hterm).
  destruct (initial_state_fields wf ic w) as (_ & _ & _ & data & Hstart).
  destruct (run_steps env 0 _ _) as [[steps' st] f]. simpl in *.
  rewrite Hstart in Hlog.
  destruct f; intros [= <- <- <- <-]; rewrite Hlog; simpl;
    exists data, suffix; eexists; (split; [reflexivity|]); (split; [done|]).
  - left. split; [done|]. by eexists.
  - right. split; [done|]. by eexists.
Qed.

(** X4.  After a run, every key of execution.step_results is the id of a step
    of the workflow, and step_results has at most as many entries as the
    workflow has steps. *)
Theorem step_results_only_for_steps wf ic w wf' ex w' log :
  execute env wf ic w = Ret (wf', ex, w', log) ->
  (forall k, is_Some (exec_step_results ex !! k) -> k ∈ map step_id (wf_steps wf)) /\
  (size (exec_step_results ex) <= length (wf_steps wf))%nat.
Proof.
  rewrite execute_unfold.
  destruct (run_steps_fields (wf_steps wf) 0%nat (initial_state env wf ic w)) as (_ & _ & Hr).
  destruct (initial_state_fields wf ic w) as (_ & Hres & _).
  destruct (run_steps env 0 _ _) as [[steps' st] f]. simpl in *.
  assert (forall k, is_Some (exec_step_results (ls_exec st) !! k) ->
                    k ∈ map step_id (wf_steps wf)) as Hdom.
  { intros k Hk. destruct (decide (k ∈ map step_id (wf_steps wf))) as [|Hnin]; [done|].
    rewrite (Hr k Hnin), Hres, lookup_empty in Hk. by destruct Hk. }
  assert (size (exec_step_results (ls_exec st)) <= length (wf_steps wf))%nat as Hsize.
  { rewrite <- (length_map step_id (wf_steps wf)).
    rewrite <- length_map_to_list, <- (length_map fst (map_to_list _)).
    apply NoDup_incl_length.
    - apply NoDup_ListNoDup, NoDup_fst_map_to_list.
    - intros k Hk. apply list_elem_of_In. apply Hdom.
      apply list_elem_of_In, list_elem_of_fmap in Hk as ([k' v] & -> & Hkv).
      apply elem_of_map_to_list in Hkv. by eexists. }
  destruct f; intros [= <- <- <- <-]; simpl; by split.
Qed.

(** X5.  In a workflow made of TOOL, CONDITION, TRANSFORM and WAIT steps, a
    context key that is not '<step id>_output' for a step of the workflow has,
    after the run, the value it started with: the one of initial_context if it
    has the key, else the one of workflow.variables. *)
Theorem variables_survive_the_run wf ic w wf' ex w' log k :
  execute env wf ic w = Ret (wf', ex, w', log) ->
  Forall (fun s => keeps_context (step_type s) = true) (wf_steps wf) ->
  (forall s, s ∈ wf_steps wf -> k <> step_id s +:+ "_output") ->
  exec_context ex !! k =
    match default ∅ ic !! k with
    | Some v => Some v
    | None => wf_variables wf !! k
    end.
Proof.
  rewrite execute_unfold. intros Hrun Hall Hk.
  pose proof (run_steps_context (wf_steps wf) 0%nat (initial_state env wf ic w) k Hall Hk)
    as Hc.
  destruct (initial_state_fields wf ic w) as (_ & _ & Hctx & _).
  destruct (run_steps env 0 _ _) as [[steps' st] f]. simpl in *.
  assert (exec_context (ls_exec st) !! k =
          match default ∅ ic !! k with
          | Some v => Some v
          | None => wf_variables wf !! k
          end) as Hgoal.
  { rewrite Hc, Hctx, lookup_union.
    destruct (default ∅ ic !! k), (wf_variables wf !! k); done. }
  revert Hrun. destruct f; intros [= <- <- <- <-]; done.
Qed.

(** X6.  One iteration of the loop of execute() only appends to the record of
    the run; it calls _execute_step at most 1 + max_retries times, and at most
    once when on_error is not 'retry'; every sleep it makes lasts 2^k seconds
    for some 0 <= k < max_retries. *)
Theorem attempts_are_bounded i step st :
  exists record,
    ls_log (run_step env i step st).1.2 = ls_log st ++ record /\
    (length (List.filter is_call record) <= 1 + Z.to_nat (step_max_retries step))%nat /\
    (step_on_error step <> "retry" -> (length (List.filter is_call record) <= 1)%nat) /\
    Forall (fun secs => exists k, 0 <= k < step_max_retries step /\ secs = 2 ^ k)
      (sleeps_of record).
Proof.
  destruct (run_step_log i step st) as (suffix & Hlog & _ & Hcalls & Hone & Hsleeps).
  by exists suffix.
Qed.

(** X7.  A TOOL step whose effective config names a tool that is not
    registered raises ValueError('Unknown tool: <name>') without touching the
    context or the outside world; under on_error='fail' the step ends FAILED
    with that message as its error, and that exception leaves the loop. *)
Theorem unknown_tool_fails_the_step i step st tool_name :
  skipped_by_condition env step (exec_context (ls_exec st)) = false ->
  step_type step = TOOL ->
  dict_get "tool" (effective_config step (exec_context (ls_exec st))) = Some (VStr tool_name) ->
  tools env tool_name = None ->
  step_on_error step = "fail" ->
  _execute_step env step (exec_context (ls_exec st)) (ls_world st)
  = (raise "ValueError" ("Unknown tool: " +:+ tool_name),
     exec_context (ls_exec st), ls_world st) /\
  exists step' st',
    run_step env i step st = (step', st', Abort (mk_exn "ValueError" ("Unknown tool: " +:+ tool_name))) /\
    step_status step' = FAILED /\
    step_error step' = Some ("Unknown tool: " +:+ tool_name) /\
    ls_world st' = ls_world st.
Proof.
  intros Hskip Hty Hname Hnone Hpol.
  assert (_execute_step env step (exec_context (ls_exec st)) (ls_world st)
          = (raise "ValueError" ("Unknown tool: " +:+ tool_name),
             exec_context (ls_exec st), ls_world st)) as Hexec.
  { rewrite _execute_step_effective, Hty. unfold _execute_tool_step, dict_get_default.
    by rewrite Hname, Hnone. }
  split; [done|].
  pose proof (run_step_first_attempt_raises env i step st _ _ _ Hskip Hexec) as Hrun.
  simpl in Hrun. rewrite Hpol in Hrun. simpl in Hrun.
  eexists _, _. split; [exact Hrun|]. done.
Qed.

End Run.

(** ** Dicts *)

Lemma dict_get_set k k' v d :
  dict_get k (dict_set k' v d) = if String.eqb k k' then Some v else dict_get k d.
Proof.
  induction d as [|[k0 v0] d IH]; simpl.
  - destruct (String.eqb_spec k k'); done.
  - destruct (String.eqb_spec k' k0) as [->|Hne]; simpl.
    + destruct (String.eqb_spec k k0); done.
    + rewrite IH. destruct (String.eqb_spec k k0) as [->|]; [|done].
      destruct (String.eqb_spec k0 k'); [congruence|done].
Qed.

Lemma dict_get_merge_other k b : forall a,
  ~ In k (map fst b) -> dict_get k (dict_merge a b) = dict_get k a.
Proof.
  unfold dict_merge. induction b as [|[k1 v1] b IH]; intros a Hnin; simpl; [done|].
  simpl in Hnin. rewrite IH by tauto. rewrite dict_get_set.
  destruct (String.eqb_spec k k1); [|done]. subst. tauto.
Qed.

Lemma dict_get_merge_in k v b : forall a,
  List.NoDup (map fst b) -> In (k, v) b -> dict_get k (dict_merge a b) = Some v.
Proof.
  induction b as [|[k1 v1] b IH]; intros a Hnd Hin; simpl in *; [done|].
  apply List.NoDup_cons_iff in Hnd as [Hnin Hnd]. destruct Hin as [[= -> ->]|Hin].
  - change (dict_get k (dict_merge (dict_set k v a) b) = Some v).
    rewrite dict_get_merge_other by done. rewrite dict_get_set.
    by rewrite String.eqb_refl.
  - change (dict_get k (dict_merge (dict_set k1 v1 a) b) = Some v). by apply IH.
Qed.

(** ** References *)

Lemma split_dot_head s : exists p ps, split_dot s = p :: ps /\ dot_free p = true.
Proof.
  induction s as [|c s (p & ps & IH & Hp)]; simpl; [by eexists _, _|].
  destruct (Ascii.eqb c ".") eqn:Hc; [by eexists _, _|].
  rewrite IH. eexists _, _. split; [done|]. simpl. by rewrite Hc.
Qed.

Lemma split_dot_dot_free s : dot_free s = true -> split_dot s = [s].
Proof.
  induction s as [|c s IH]; simpl; [done|]. intros [Hc Hs]%andb_true_iff.
  apply negb_true_iff in Hc. by rewrite Hc, IH.
Qed.

Lemma split_dot_app a b :
  dot_free a = true -> split_dot (a +:+ "." +:+ b) = a :: split_dot b.
Proof.
  induction a as [|c a IH]; simpl; [done|]. intros [Hc Ha]%andb_true_iff.
  apply negb_true_iff in Hc. rewrite Hc.
  change (String.append a (String "." b)) with (a +:+ "." +:+ b). by rewrite IH.
Qed.

Section Handlers.
Context {W : Type}.
Variable env : Env W.

(** X8.  _resolve_reference looks up only the part of the reference before its
    first dot in the context: a context entry whose key contains a dot (such
    as '<id>_output' for a step whose id contains a dot) changes the result of
    no reference. *)
Theorem dotted_context_keys_are_unreachable reference k v (context : gmap string value) :
  dot_free k = false ->
  _resolve_reference reference (<[k := v]> context) = _resolve_reference reference context.
Proof.
  intros Hk. unfold _resolve_reference.
  destruct (split_dot_head reference) as (p & ps & -> & Hp).
  rewrite lookup_insert_ne; [done|]. intros ->. congruence.
Qed.

(** X9.  For a context key k without a dot that holds a dict: the reference
    'k' gives the dict; 'k.f', for f without a dot, gives the value of its
    field f, or None when the dict has no field f; and a longer reference
    'k.f.more' through a missing field f gives None. *)
Theorem reference_reads_result_field key field result (context : gmap string value) :
  dot_free key = true -> dot_free field = true ->
  context !! key = Some (VDict result) ->
  _resolve_reference key context = VDict result /\
  _resolve_reference (key +:+ "." +:+ field) context = default VNone (dict_get field result) /\
  forall more,
    dict_get field result = None ->
    _resolve_reference (key +:+ "." +:+ field +:+ "." +:+ more) context = VNone.
Proof.
  intros Hkey Hfield Hctx. unfold _resolve_reference. repeat split.
  - by rewrite split_dot_dot_free, Hctx.
  - by rewrite split_dot_app, split_dot_dot_free, Hctx.
  - intros more Hnone. rewrite !split_dot_app by done. rewrite Hctx. simpl.
    rewrite Hnone. simpl. by destruct (split_dot more).
Qed.

(** X10.  In the config that _execute_step dispatches on, the name of an input
    has the resolved value of its source, whatever step.config holds under
    that name; a name that is not an input has the value step.config gives it. *)
Theorem inputs_override_config step (context : gmap string value) name :
  List.NoDup (map fst (step_inputs step)) ->
  (forall source, In (name, source) (step_inputs step) ->
     dict_get name (effective_config step context)
     = Some (_resolve_reference source context)) /\
  (~ In name (map fst (step_inputs step)) ->
     dict_get name (effective_config step context) = dict_get name (step_config step)).
Proof.
  intros Hnd. unfold effective_config. split.
  - intros source Hin. apply dict_get_merge_in.
    + rewrite map_map. erewrite map_ext; [exact Hnd|]. by intros [].
    + apply in_map_iff. by exists (name, source).
  - intros Hnin. apply dict_get_merge_other. rewrite map_map.
    erewrite map_ext; [exact Hnin|]. by intros [].
Qed.

(** ** WAIT steps *)



(** ** LOOP steps *)

Lemma loop_items_blind items : forall items' k body results context context' w,
  length items = length items' ->
  (loop_items env items (VStr k) body results context w).1.1
  = (loop_items env items' (VStr k) body results context' w).1.1 /\
  (loop_items env items (VStr k) body results context w).2
  = (loop_items env items' (VStr k) body results context' w).2.
Proof.
  induction items as [|item items IH]; intros [|item' items'] k body results context context' w
    Hlen; simpl in *; try done.
  destruct (_execute_tool_step env body w) as [[result|e|] w2]; simpl; [|done|done].
  apply IH. lia.
Qed.

Lemma loop_items_context items : forall k body results context w r context' w',
  loop_items env items (VStr k) body results context w = (Ret r, context', w') ->
  context' = bind_all k items context /\
  exists rs, r = [("results", VList (results ++ rs))] /\ length rs = length items.
Proof.
  induction items as [|item items IH]; intros k body results context w r context' w'; simpl.
  - intros [= <- <- <-]. split; [done|]. exists []. by rewrite app_nil_r.
  - destruct (_execute_tool_step env body w) as [[result|e|] w2]; simpl; [|done|done].
    intros Hrun. destruct (IH _ _ _ _ _ _ _ _ Hrun) as (-> & rs & -> & Hlen).
    split; [done|]. exists (VDict result :: rs). rewrite <- app_assoc. simpl. split; [done|lia].
Qed.

Lemma bind_all_lookup k items : forall (context : gmap string value),
  bind_all k items context !! k = match last items with
                                   | Some item => Some item
                                   | None => context !! k
                                   end /\
  forall k', k' <> k -> bind_all k items context !! k' = context !! k'.
Proof.
  induction items as [|item items IH]; intros context; [done|].
  change (bind_all k (item :: items) context) with (bind_all k items (<[k := item]> context)).
  destruct (IH (<[k := item]> context)) as [Hk Hother]. split.
  - rewrite Hk, last_cons. destruct (last items); [done|by rewrite lookup_insert_eq].
  - intros k' Hne. rewrite Hother by done. by rewrite lookup_insert_ne.
Qed.

Lemma _execute_loop_step_blind config context w items items' k :
  dict_get "items" config = Some (VList items) ->
  dict_get_default "variable" (VStr "item") config = VStr k ->
  length items = length items' ->
  (_execute_loop_step env config context w).1.1
  = (_execute_loop_step env (dict_set "items" (VList items') config) context w).1.1 /\
  (_execute_loop_step env config context w).2
  = (_execute_loop_step env (dict_set "items" (VList items') config) context w).2.
Proof.
  intros Hitems Hvar Hlen. unfold _execute_loop_step, dict_get_default in *.
  rewrite !dict_get_set. simpl. rewrite Hitems. simpl.
  destruct (dict_get "variable" config) as [v|]; subst; by apply loop_items_blind.
Qed.

Lemma _execute_loop_step_bound config context w items k r context' w' :
  dict_get "items" config = Some (VList items) ->
  dict_get_default "variable" (VStr "item") config = VStr k ->
  _execute_loop_step env config context w = (Ret r, context', w') ->
  (exists rs, r = [("results", VList rs)] /\ length rs = length items) /\
  context' !! k = match last items with
                  | Some item => Some item
                  | None => context !! k
                  end /\
  forall k', k' <> k -> context' !! k' = context !! k'.
Proof.
  intros Hitems Hvar. unfold _execute_loop_step. rewrite Hvar.
  unfold dict_get_default at 1. rewrite Hitems. simpl. intros Hrun.
  apply loop_items_context in Hrun as (-> & rs & -> & Hlen).
  split; [by exists rs|]. apply bind_all_lookup.
Qed.

(** X12.  A LOOP step over a list, with a string as the loop variable: the
    outcome of the step and what it does to the outside world depend on the
    number of items only, not on the items (the body is handed to
    _execute_tool_step as it is; an item is only stored in the context). When
    the step returns, results has one entry per item, the loop variable is
    left in the context bound to the last item, and no other context key has
    changed. *)
Theorem loop_binds_the_variable_only config context w items k :
  dict_get "items" config = Some (VList items) ->
  dict_get_default "variable" (VStr "item") config = VStr k ->
  (forall items',
     length items = length items' ->
     (_execute_loop_step env config context w).1.1
     = (_execute_loop_step env (dict_set "items" (VList items') config) context w).1.1 /\
     (_execute_loop_step env config context w).2
     = (_execute_loop_step env (dict_set "items" (VList items') config) context w).2) /\
  (forall r context' w',
     _execute_loop_step env config context w = (Ret r, context', w') ->
     (exists rs, r = [("results", VList rs)] /\ length rs = length items) /\
     context' !! k = match last items with
                     | Some item => Some item
                     | None => context !! k
                     end /\
     forall k', k' <> k -> context' !! k' = context !! k').
Proof.
  intros Hitems Hvar. split.
  - intros items' Hlen. by apply (_execute_loop_step_blind config context w items items' k).
  - intros r context' w' Hrun.
    by apply (_execute_loop_step_bound config context w items k r context' w').
Qed.

(** ** PARALLEL steps *)

Lemma run_task_unknown d context w :
  dict_get "type" d <> Some (VStr "tool") ->
  dict_get "type" d <> Some (VStr "agent") ->
  run_task env (VDict d) context w = (Ret [("error", VStr "Unknown task type")], context, w).
Proof.
  intros Htool Hagent. unfold run_task.
  repeat case_match; try done; subst; congruence.
Qed.

Lemma gather_ret os : forall rs,
  gather os = Ret rs -> Forall2 (fun o v => exists d, o = Ret d /\ v = VDict d) os rs.
Proof.
  induction os as [|[r|e|] os IH]; intros rs; simpl.
  - intros [= <-]. constructor.
  - destruct (gather os) as [rs'| |]; [|done|done]. intros [= <-].
    constructor; [by eexists|]. by apply IH.
  - done.
  - by destruct (gather os).
Qed.

Lemma run_tasks_each tasks : forall context w,
  Forall2 (fun t o => exists context0 w0, o = (run_task env t context0 w0).1.1)
    tasks (run_tasks env tasks context w).1.1.
Proof.
  induction tasks as [|t tasks IH]; intros context w; simpl; [constructor|].
  destruct (run_task env t context w) as [[o context1] w1] eqn:Ht.
  specialize (IH context1 w1). destruct (run_tasks env tasks context1 w1) as [[os c2] w2].
  simpl in *. constructor; [|done]. exists context, w. by rewrite Ht.
Qed.

(** X13.  When a PARALLEL step returns, its result is {'results': rs} with one
    entry per task, in the order of the tasks, and the entry of a task dict
    whose type is neither 'tool' nor 'agent' is {'error': 'Unknown task
    type'}: such a task does not fail the step. *)
Theorem parallel_results_line_up config context w tasks r context' w' :
  py_iter (dict_get_default "tasks" (VList []) config) = Some tasks ->
  _execute_parallel_step env config context w = (Ret r, context', w') ->
  exists rs,
    r = [("results", VList rs)] /\ length rs = length tasks /\
    forall (i : nat) d,
      tasks !! i = Some (VDict d) ->
      dict_get "type" d <> Some (VStr "tool") ->
      dict_get "type" d <> Some (VStr "agent") ->
      rs !! i = Some (VDict [("error", VStr "Unknown task type")]).
Proof.
  intros Htasks. unfold _execute_parallel_step. rewrite Htasks.
  pose proof (run_tasks_each tasks context w) as Heach.
  destruct (run_tasks env tasks context w) as [[os c1] w1]. simpl in Heach.
  destruct (gather os) as [rs| |] eqn:Hg; [|done|done]. intros [= <- <- <-].
  apply gather_ret in Hg. exists rs. split; [done|]. split.
  { apply Forall2_length in Heach, Hg. lia. }
  intros i d Hi Htool Hagent.
  destruct (Forall2_lookup_l _ _ _ _ _ Heach Hi) as (o & Ho & c0 & w0 & ->).
  rewrite run_task_unknown in Ho by done. simpl in Ho.
  destruct (Forall2_lookup_l _ _ _ _ _ Hg Ho) as (v & Hv & d' & [= <-] & ->). done.
Qed.

(** ** Cancelling *)

(** X14.  cancel(id) returns True exactly when the table holds an execution
    with this id whose status is 'running'; it then sets its status to
    'cancelled' and its completed_at, and leaves every other execution as it
    was; when it returns False nothing changes; a second cancel of the same id
    returns False. An execution that execute() has returned is refused by
    cancel. *)
Theorem cancel_reaches_running_executions_only executions execution_id t :
  (let '(ok, executions') := cancel executions execution_id t in
   (ok = true <->
    exists e, executions !! execution_id = Some e /\ exec_status e = "running") /\
   (ok = false -> executions' = executions) /\
   (ok = true ->
    exists e, executions !! execution_id = Some e /\
      executions' !! execution_id
      = Some (set_exec_completed_at t (set_exec_status "cancelled" e))) /\
   (forall other, other <> execution_id -> executions' !! other = executions !! other) /\
   (forall t', cancel executions' execution_id t' = (false, executions'))) /\
  (forall wf ic w wf' ex w' log,
     execute env wf ic w = Ret (wf', ex, w', log) ->
     cancel (<[exec_id ex := ex]> executions) (exec_id ex) t
     = (false, <[exec_id ex := ex]> executions)).
Proof.
  split.
  - unfold cancel, cancel_execution.
    destruct (executions !! execution_id) as [e|] eqn:He.
    + destruct (String.eqb_spec (exec_status e) "running") as [Hrun|Hrun].
      * repeat split; try done.
        -- by exists e.
        -- intros _. exists e. by rewrite lookup_insert_eq.
        -- intros other Hne. by rewrite lookup_insert_ne.
        -- intros t'. by rewrite lookup_insert_eq.
      * repeat split; try done.
        -- by intros (e' & [= <-] & ?).
        -- intros t'. rewrite He. by destruct (String.eqb_spec (exec_status e) "running").
    + repeat split; try done.
      * by intros (e' & ? & ?).
      * intros t'. by rewrite He.
  - intros wf ic w wf' ex w' log Hrun. unfold cancel, cancel_execution.
    rewrite lookup_insert_eq.
    destruct (execute_status env wf ic w wf' ex w' log Hrun) as [-> | ->]; done.
Qed.

End Handlers.

(** ** The theorems above on the examples *)

(** The skip policy on the first step of [skipping_workflow]. *)
Lemma skip_policy_continues_witness :
  let st0 := initial_state test_env skipping_workflow None w0 in
  let step := tool_step "s1" "boom" "skip" in
  (run_step test_env 0 step st0).2 = Next /\
  step_status (run_step test_env 0 step st0).1.1 = SKIPPED /\
  step_error (run_step test_env 0 step st0).1.1 = Some "boom".
Proof.
  intros st0 step.
  destruct (skip_policy_continues test_env 0 step [] st0 (mk_exn "RuntimeError" "boom")
              (exec_context (ls_exec st0)) (tick false (ls_world st0)))
    as (step' & st' & -> & Hst & Herr & _);
    [vm_compute; reflexivity|vm_compute; reflexivity|reflexivity|].
  split; [reflexivity|]. split; [exact Hst|exact Herr].
Defined.

(** The final statuses of [failing_workflow]. *)
Lemma steps_settled_after_run_witness :
  match execute test_env failing_workflow None w0 with
  | Ret (wf', ex, _, _) =>
      exists pre s post,
        wf_steps wf' = pre ++ s :: post /\ Forall settled pre /\
        (step_status s = FAILED \/ step_status s = RUNNING) /\
        exec_current_step ex = length pre
  | _ => False
  end.
Proof.
  destruct (execute test_env failing_workflow None w0) as [[[[wf' ex] w'] log]|e|] eqn:E.
  - destruct (steps_settled_after_run test_env failing_workflow None w0 wf' ex w' log E)
      as [(Hst & _)|(_ & _ & pre & s & post & Hsteps & Hpre & Hs & _ & _ & Hcur)].
    + exfalso. vm_compute in E. injection E as <- <- <- <-. discriminate Hst.
    + by exists pre, s, post.
  - vm_compute in E. discriminate E.
  - vm_compute in E. discriminate E.
Defined.

(** The record of [sum_workflow]. *)
Lemma one_terminal_event_ends_the_record_witness :
  match execute test_env sum_workflow None w0 with
  | Ret (_, _, _, log) =>
      exists data body final,
        log = ActEmit (mk_event "workflow_started" data) :: body ++ [final] /\
        Forall (fun a => is_terminal a = false) body
  | _ => False
  end.
Proof.
  destruct (execute test_env sum_workflow None w0) as [[[[wf' ex] w'] log]|e|] eqn:E.
  - destruct (one_terminal_event_ends_the_record test_env sum_workflow None w0 wf' ex w' log E)
      as (data & body & final & Hlog & Hbody & _).
    by exists data, body, final.
  - vm_compute in E. discriminate E.
  - vm_compute in E. discriminate E.
Defined.

(** The results of [failing_workflow]. *)
Lemma step_results_only_for_steps_witness :
  match execute test_env failing_workflow None w0 with
  | Ret (_, ex, _, _) => (size (exec_step_results ex) <= 3)%nat
  | _ => False
  end.
Proof.
  destruct (execute test_env failing_workflow None w0) as [[[[wf' ex] w'] log]|e|] eqn:E.
  - destruct (step_results_only_for_steps test_env failing_workflow None w0 wf' ex w' log E)
      as (_ & Hsize).
    exact Hsize.
  - vm_compute in E. discriminate E.
  - vm_compute in E. discriminate E.
Defined.

(** An initial variable after the run of [sum_workflow]. *)
Lemma variables_survive_the_run_witness :
  match execute test_env sum_workflow (Some (<["ready" := VBool true]> ∅)) w0 with
  | Ret (_, ex, _, _) => exec_context ex !! "ready" = Some (VBool true)
  | _ => False
  end.
Proof.
  destruct (execute test_env sum_workflow (Some (<["ready" := VBool true]> ∅)) w0)
    as [[[[wf' ex] w'] log]|e|] eqn:E.
  - rewrite (variables_survive_the_run test_env sum_workflow _ w0 wf' ex w' log "ready" E).
    + reflexivity.
    + repeat constructor.
    + intros s Hs. apply list_elem_of_singleton in Hs as ->. discriminate.
  - vm_compute in E. discriminate E.
  - vm_compute in E. discriminate E.
Defined.

(** The step of [unknown_tool_workflow]. *)
Lemma unknown_tool_fails_the_step_witness :
  let st0 := initial_state test_env unknown_tool_workflow None w0 in
  let step := tool_step "s1" "teleport" "fail" in
  (run_step test_env 0 step st0).2 = Abort (mk_exn "ValueError" "Unknown tool: teleport") /\
  step_status (run_step test_env 0 step st0).1.1 = FAILED.
Proof.
  intros st0 step.
  destruct (unknown_tool_fails_the_step test_env 0 step st0 "teleport")
    as (_ & step' & st' & -> & Hst & _);
    [reflexivity|reflexivity|vm_compute; reflexivity|reflexivity|reflexivity|].
  split; [reflexivity|exact Hst].
Defined.

(** The output of a step whose id is [a.b]. *)
Lemma dotted_context_keys_are_unreachable_witness :
  _resolve_reference "a.b_output.x" (<["a.b_output" := VDict [("x", VInt 1)]]> ∅) = VNone.
Proof.
  rewrite (dotted_context_keys_are_unreachable "a.b_output.x" "a.b_output"
             (VDict [("x", VInt 1)]) ∅); [|reflexivity].
  vm_compute. reflexivity.
Defined.

(** The field [output] of the output of [s1]. *)
Lemma reference_reads_result_field_witness :
  _resolve_reference "s1_output.output" output_context = VStr "5".
Proof.
  destruct (reference_reads_result_field "s1_output" "output"
              [("success", VBool true); ("output", VStr "5")] output_context)
    as (_ & H & _);
    [reflexivity|reflexivity|vm_compute; reflexivity|].
  exact H.
Defined.

(** The input [x] of [reading_step] replaces the [x] of its config. *)
Lemma inputs_override_config_witness :
  dict_get "x" (effective_config (reading_step "s1_output.output") output_context)
  = Some (VStr "5").
Proof.
  destruct (inputs_override_config (reading_step "s1_output.output") output_context "x")
    as (H & _).
  - constructor; [simpl; tauto|constructor].
  - rewrite (H "s1_output.output"); [|left; reflexivity]. vm_compute. reflexivity.
Defined.


(** A loop over two numbers and a loop over two strings, and the variable
    [n] after the first. *)
Lemma loop_binds_the_variable_only_witness :
  (_execute_loop_step test_env (loop_config [VInt 1; VInt 2]) ∅ w0).1.1
  = (_execute_loop_step test_env (loop_config [VStr "a"; VStr "b"]) ∅ w0).1.1 /\
  match _execute_loop_step test_env (loop_config [VInt 1; VInt 2]) ∅ w0 with
  | (Ret r, context', _) =>
      (exists rs, r = [("results", VList rs)] /\ length rs = 2%nat) /\
      context' !! "n" = Some (VInt 2)
  | _ => False
  end.
Proof.
  destruct (loop_binds_the_variable_only test_env (loop_config [VInt 1; VInt 2]) ∅ w0
              [VInt 1; VInt 2] "n") as [Hblind Hbound]; [reflexivity|reflexivity|].
  split.
  - destruct (Hblind [VStr "a"; VStr "b"]) as [H _]; [reflexivity|]. exact H.
  - destruct (_execute_loop_step test_env (loop_config [VInt 1; VInt 2]) ∅ w0)
      as [[[r|e|] context'] w'] eqn:E.
    + destruct (Hbound r context' w' eq_refl) as (Hr & Hn & _).
      split; [exact Hr|exact Hn].
    + vm_compute in E. discriminate E.
    + vm_compute in E. discriminate E.
Defined.

(** The two sub-tasks of [parallel_config]. *)
Lemma parallel_results_line_up_witness :
  match _execute_parallel_step test_env parallel_config ∅ w0 with
  | (Ret r, _, _) =>
      exists rs, r = [("results", VList rs)] /\ length rs = 2%nat /\
                 rs !! 1%nat = Some (VDict [("error", VStr "Unknown task type")])
  | _ => False
  end.
Proof.
  destruct (_execute_parallel_step test_env parallel_config ∅ w0)
    as [[[r|e|] context'] w'] eqn:E.
  - destruct (parallel_results_line_up test_env parallel_config ∅ w0
                [VDict [("type", VStr "tool"); ("tool", VStr "calculator")];
                 VDict [("type", VStr "email")]] r context' w')
      as (rs & Hr & Hlen & Hunknown); [reflexivity|exact E|].
    exists rs. split; [exact Hr|]. split; [exact Hlen|].
    apply (Hunknown 1%nat [("type", VStr "email")]); [reflexivity|discriminate|discriminate].
  - vm_compute in E. discriminate E.
  - vm_compute in E. discriminate E.
Defined.

(** Cancelling the run of [sum_workflow] once it has returned. *)
Lemma cancel_reaches_running_executions_only_witness :
  match execute test_env sum_workflow None w0 with
  | Ret (_, ex, _, _) => (cancel (<[exec_id ex := ex]> ∅) (exec_id ex) 2000).1 = false
  | _ => False
  end.
Proof.
  destruct (execute test_env sum_workflow None w0) as [[[[wf' ex] w'] log]|e|] eqn:E.
  - destruct (cancel_reaches_running_executions_only test_env ∅ "" 2000) as [_ H].
    by rewrite (H sum_workflow None w0 wf' ex w' log E).
  - vm_compute in E. discriminate E.
  - vm_compute in E. discriminate E.
Defined.

End EngineBehaviour.

(** * Further properties of the scheduler *)
Module SchedulerBehaviour.
Import Scheduler SchedulerFacts.

(** ** The job store *)

Lemma get_job_id id js j : get_job id js = Some j -> job_id j = id /\ j ∈ js.
Proof.
  unfold get_job. intros [Hin Hid]%find_some. apply String.eqb_eq in Hid.
  split; [done|]. by apply list_elem_of_In.
Qed.

Lemma get_job_None id js : get_job id js = None <-> id ∉ map job_id js.
Proof.
  unfold get_job. induction js as [|j js IH]; simpl.
  - split; [intros _; apply not_elem_of_nil|done].
  - destruct (String.eqb_spec (job_id j) id) as [Heq|Hne].
    + split; [done|]. intros Hnin. exfalso. apply Hnin. rewrite Heq. by left.
    + rewrite IH, not_elem_of_cons. split; [by split|by intros [_ ?]].
Qed.

Lemma get_job_modify id x js :
  get_job id (modify_job id x js) = set_job_next_run_time x <$> get_job id js.
Proof.
  unfold get_job, modify_job. induction js as [|j js IH]; simpl; [done|].
  destruct (String.eqb_spec (job_id j) id) as [Heq|Hne]; simpl.
  - by rewrite Heq, String.eqb_refl.
  - by destruct (String.eqb_spec (job_id j) id).
Qed.

Lemma get_job_removed id js :
  get_job id (List.filter (fun j => negb (String.eqb (job_id j) id)) js) = None.
Proof.
  unfold get_job. induction js as [|j js IH]; simpl; [done|].
  destruct (String.eqb_spec (job_id j) id) as [Heq|Hne]; simpl; [done|].
  by destruct (String.eqb_spec (job_id j) id).
Qed.

Lemma filter_other_jobs id js :
  id ∉ map job_id js -> List.filter (fun j => negb (String.eqb (job_id j) id)) js = js.
Proof.
  induction js as [|j js IH]; simpl; [done|]. intros [Hne Hnin]%not_elem_of_cons.
  destruct (String.eqb_spec (job_id j) id); [done|]. simpl. by rewrite IH.
Qed.

Lemma remove_added_job id j js :
  job_id j = id -> id ∉ map job_id js -> remove_job id (js ++ [j]) = inr js.
Proof.
  intros Hid Hnin. unfold remove_job.
  destruct (get_job id (js ++ [j])) eqn:Hget.
  - rewrite List.filter_app, filter_other_jobs by done. simpl.
    rewrite Hid, String.eqb_refl. simpl. by rewrite app_nil_r.
  - apply get_job_None in Hget. exfalso. apply Hget. rewrite map_app.
    apply elem_of_app. right. rewrite <- Hid. by left.
Qed.

(** ** The rows *)

Lemma upsert_row_ids task c v rows :
  map row_id (upsert_row task c v rows)
  = if decide (task_id task ∈ map row_id rows) then map row_id rows
    else map row_id rows ++ [task_id task].
Proof.
  induction rows as [|r rows IH]; cbn [upsert_row map].
  - by rewrite decide_False by apply not_elem_of_nil.
  - destruct (String.eqb_spec (row_id r) (task_id task)) as [Heq|Hne]; cbn [map].
    + rewrite decide_True; [done|]. rewrite Heq. by left.
    + rewrite IH. destruct (decide (task_id task ∈ map row_id rows)) as [Hin|Hnin].
      * rewrite decide_True; [done|]. by right.
      * rewrite decide_False; [done|]. rewrite not_elem_of_cons. split; [congruence|done].
Qed.

Lemma upsert_row_nodup task c v rows :
  NoDup (map row_id rows) -> NoDup (map row_id (upsert_row task c v rows)).
Proof.
  intros Hnd. rewrite upsert_row_ids. case_decide; [done|].
  apply NoDup_app. repeat split; [done| |apply NoDup_singleton].
  by intros x Hx ->%list_elem_of_singleton.
Qed.

Lemma upsert_row_other task c v rows r :
  row_id r <> task_id task -> r ∈ upsert_row task c v rows <-> r ∈ rows.
Proof.
  intros Hne. induction rows as [|r0 rows IH]; simpl.
  - rewrite list_elem_of_singleton. split; [intros ->; by destruct Hne|].
    by intros ?%elem_of_nil.
  - destruct (String.eqb_spec (row_id r0) (task_id task)) as [Heq|Hne0].
    + rewrite !elem_of_cons. split.
      * intros [->|?]; [by destruct Hne|by right].
      * intros [->|?]; [by destruct Hne|by right].
    + rewrite !elem_of_cons, IH. done.
Qed.

Lemma upsert_row_holds task c v rows :
  NoDup (map row_id rows) ->
  exists r, r ∈ upsert_row task c v rows /\ holds_task task c v r /\
            forall r', r' ∈ upsert_row task c v rows -> row_id r' = task_id task -> r' = r.
Proof.
  induction rows as [|r0 rows IH]; simpl; intros Hnd.
  - exists (new_row task c v). split; [by left|]. split; [by repeat split|].
    by intros r' ->%list_elem_of_singleton.
  - apply NoDup_cons in Hnd as [Hr0 Hnd].
    destruct (String.eqb_spec (row_id r0) (task_id task)) as [Heq|Hne].
    + exists (update_row task c v r0). split; [by left|]. split; [by repeat split|].
      intros r' [->|Hin]%elem_of_cons Hid; [done|]. exfalso. apply Hr0.
      rewrite Heq, <- Hid. by apply list_elem_of_fmap_2.
    + destruct (IH Hnd) as (r & Hin & Hholds & Huniq). exists r.
      split; [by right|]. split; [done|].
      intros r' [->|Hin']%elem_of_cons Hid; [congruence|by apply Huniq].
Qed.

Lemma filter_upsert_row task c v rows :
  task_id task ∉ map row_id rows ->
  List.filter (fun r => negb (String.eqb (row_id r) (task_id task))) (upsert_row task c v rows)
  = rows.
Proof.
  induction rows as [|r rows IH]; simpl.
  - intros _. by rewrite String.eqb_refl.
  - intros [Hne Hnin]%not_elem_of_cons.
    destruct (String.eqb_spec (row_id r) (task_id task)); [congruence|]. simpl.
    destruct (String.eqb_spec (row_id r) (task_id task)); [congruence|]. simpl.
    by rewrite IH.
Qed.

Lemma filter_other_rows id (rows : list ScheduledTaskModel) :
  id ∉ map row_id rows ->
  List.filter (fun r => negb (String.eqb (row_id r) id)) rows = rows.
Proof.
  induction rows as [|r rows IH]; simpl; [done|]. intros [Hne Hnin]%not_elem_of_cons.
  destruct (String.eqb_spec (row_id r) id); [congruence|]. simpl. by rewrite IH.
Qed.

Section Facts.
Variable lib : Lib.

Lemma _persist_task_rows task s :
  events (_persist_task lib task s) = events s /\
  match db_session_factory s with
  | None => db_session_factory (_persist_task lib task s) = None
  | Some rows =>
      match json_dumps lib (VDict (task_trigger_config task)),
            json_dumps lib (VDict (task_variables task)) with
      | inr c, inr v =>
          db_session_factory (_persist_task lib task s) = Some (upsert_row task c v rows)
      | _, _ => db_session_factory (_persist_task lib task s) = Some rows
      end
  end.
Proof.
  unfold _persist_task. destruct (db_session_factory s) as [rows|] eqn:Hdb; [|done].
  destruct (json_dumps lib (VDict (task_trigger_config task))); [done|].
  by destruct (json_dumps lib (VDict (task_variables task))).
Qed.

(** X15.  On a table with one row per id, _persist_task leaves one row per id
    and neither adds, removes nor changes a row of another id. When the
    trigger config and the variables can be dumped, the table then holds
    exactly one row with the task's id, and it carries the task's workflow_id,
    name, trigger type, dumped config and variables, enabled, last_run,
    next_run and run_count; when a dump fails the table is as it was. *)
Theorem persist_task_keeps_one_row_per_id task s rows :
  db_session_factory s = Some rows ->
  NoDup (map row_id rows) ->
  exists rows',
    db_session_factory (_persist_task lib task s) = Some rows' /\
    NoDup (map row_id rows') /\
    (forall r, row_id r <> task_id task -> r ∈ rows' <-> r ∈ rows) /\
    (forall c v,
       json_dumps lib (VDict (task_trigger_config task)) = inr c ->
       json_dumps lib (VDict (task_variables task)) = inr v ->
       exists r, r ∈ rows' /\ holds_task task c v r /\
                 forall r', r' ∈ rows' -> row_id r' = task_id task -> r' = r) /\
    ((forall c, json_dumps lib (VDict (task_trigger_config task)) <> inr c) \/
     (forall v, json_dumps lib (VDict (task_variables task)) <> inr v) ->
     rows' = rows).
Proof.
  intros Hdb Hnd. destruct (_persist_task_rows task s) as [_ Hrows]. rewrite Hdb in Hrows.
  destruct (json_dumps lib (VDict (task_trigger_config task))) as [e|c] eqn:Hc.
  { exists rows. repeat split; try done. }
  destruct (json_dumps lib (VDict (task_variables task))) as [e|v] eqn:Hv.
  { exists rows. repeat split; try done. }
  exists (upsert_row task c v rows). split; [done|]. split; [by apply upsert_row_nodup|].
  split; [intros r Hne; by apply upsert_row_other|]. split.
  - intros c' v' [= <-] [= <-]. by apply upsert_row_holds.
  - intros [H|H]; by edestruct H.
Qed.

(** ** Loading *)

Lemma load_task_tasks now db_task s s' :
  load_task lib now db_task s = Loaded s' ->
  exists task,
    scheduled_tasks s' = <[row_id db_task := task]> (scheduled_tasks s) /\
    task_id task = row_id db_task.
Proof.
  unfold load_task.
  destruct (json_loads lib (row_trigger_config db_task)) as [e|config];
    [by destruct (load_variables lib db_task)|].
  destruct (load_variables lib db_task) as [e|variables]; [by destruct config|].
  destruct config; try done. destruct variables; try done. simpl.
  destruct (expired lib _ _ _) as [e|[|]]; try done.
  destruct (_create_trigger lib _ _) as [e|[t|]]; try done.
  - destruct (SCHEDULER_AVAILABLE lib).
    + destruct (add_job lib t _ _ now (jobs s)) as [e|[j jobs']] eqn:Hadd; [done|].
      intros [= <-]. simpl. by eexists.
    + intros [= <-]. simpl. by eexists.
  - intros [= <-]. simpl. by eexists.
Qed.

(** The rows of other ids leave a task id alone. *)
Lemma load_rows_other now id rows : forall s,
  id ∉ map row_id rows ->
  let s' := fold_left
              (fun s db_task =>
                 match load_task lib now db_task s with
                 | Loaded s' => s'
                 | Expired | LoadError _ => s
                 end) rows s in
  scheduled_tasks s' !! id = scheduled_tasks s !! id /\
  (id ∉ job_ids s -> id ∉ job_ids s') /\
  jobs_of id s' = jobs_of id s.
Proof.
  induction rows as [|r rows IH]; intros s Hnin; simpl; [done|].
  apply not_elem_of_cons in Hnin as [Hne Hnin].
  destruct (load_task lib now r s) as [s1| |e] eqn:Hload; try by apply IH.
  destruct (IH s1 Hnin) as (Htasks & Hjobs & Hof). simpl in *.
  destruct (load_task_tasks _ _ _ _ Hload) as (task & Hs1 & _).
  destruct (load_task_jobs lib _ _ _ _ Hload) as [_ [Heq|(j & Heq & Hid & _)]].
  - rewrite Htasks, Hs1, lookup_insert_ne by done. split; [done|]. split.
    + intros H. apply Hjobs. unfold job_ids. by rewrite Heq.
    + rewrite Hof. unfold jobs_of. by rewrite Heq.
  - rewrite Htasks, Hs1, lookup_insert_ne by done. split; [done|]. split.
    + intros H. apply Hjobs. unfold job_ids. rewrite Heq, map_app. simpl.
      rewrite elem_of_app, list_elem_of_singleton. intros [?|?]; [done|congruence].
    + rewrite Hof. unfold jobs_of. rewrite Heq, List.filter_app. simpl.
      destruct (String.eqb_spec (job_id j) id); [congruence|]. by rewrite app_nil_r.
Qed.


(** ** Scheduling and cancelling *)

Lemma schedule_inv workflow_id name trigger_type trigger_config variables uuid now s task s1 :
  schedule lib workflow_id name trigger_type trigger_config variables uuid now s
  = (Ret (Some task), s1) ->
  SCHEDULER_AVAILABLE lib = true /\
  task_id task = String.substring 0 12 uuid /\
  (task_id task ∉ job_ids s) /\
  exists t,
    _create_trigger lib trigger_type trigger_config = inr (Some t) /\
    task = mk_ScheduledTask (String.substring 0 12 uuid) workflow_id name trigger_type
             trigger_config (default [] variables) true now None
             (next_fire_time lib t now) 0 /\
    s1 = emit_event "task_scheduled"
           [("task_id", VStr (task_id task)); ("workflow_id", VStr workflow_id);
            ("next_run", opt_int (task_next_run task))]
           (_persist_task lib task
              (mk_WorkflowScheduler (db_session_factory s)
                 (<[task_id task := task]> (scheduled_tasks s))
                 (jobs s ++ [mk_job (task_id task) name t (next_fire_time lib t now)])
                 (events s))).
Proof.
  unfold schedule. destruct (SCHEDULER_AVAILABLE lib); simpl; [|done].
  destruct (_create_trigger lib trigger_type trigger_config) as [e|[t|]]; try done.
  destruct (add_job lib t _ name now (jobs s)) as [e|[j jobs']] eqn:Hadd; [done|].
  apply add_job_spec in Hadd as (Hfresh & -> & ->). intros [= <- <-]. simpl.
  repeat split; try done. by exists t.
Qed.

(** X16.  After schedule() has returned a task whose id was neither in
    scheduled_tasks nor in the database, cancel(task.id) returns True and puts
    scheduled_tasks, the job store and the database rows back to what they
    were before schedule(); the two events emitted are task_scheduled and
    task_cancelled. *)
Theorem cancel_undoes_schedule workflow_id name trigger_type trigger_config variables uuid
    now s task s1 :
  schedule lib workflow_id name trigger_type trigger_config variables uuid now s
  = (Ret (Some task), s1) ->
  scheduled_tasks s !! task_id task = None ->
  (forall rows, db_session_factory s = Some rows -> task_id task ∉ map row_id rows) ->
  exists s2,
    cancel lib (task_id task) s1 = (Ret true, s2) /\
    scheduled_tasks s2 = scheduled_tasks s /\
    jobs s2 = jobs s /\
    db_session_factory s2 = db_session_factory s /\
    events s2 =
      events s ++
      [Engine.mk_event "task_scheduled"
         [("task_id", VStr (task_id task)); ("workflow_id", VStr workflow_id);
          ("next_run", opt_int (task_next_run task))];
       Engine.mk_event "task_cancelled" [("task_id", VStr (task_id task))]].
Proof.
  intros Hs Hfresh Hrows.
  apply schedule_inv in Hs as (Hav & Hid & Hjob & t & Ht & Htask & ->).
  remember (mk_WorkflowScheduler (db_session_factory s)
              (<[task_id task := task]> (scheduled_tasks s))
              (jobs s ++ [mk_job (task_id task) name t (next_fire_time lib t now)])
              (events s)) as s0 eqn:Hs0.
  assert (db_session_factory s0 = db_session_factory s /\
          scheduled_tasks s0 = <[task_id task := task]> (scheduled_tasks s) /\
          jobs s0 = jobs s ++ [mk_job (task_id task) name t (next_fire_time lib t now)] /\
          events s0 = events s) as (Hdb0 & Htasks0 & Hjobs0 & Hev0) by by subst s0.
  clear Hs0.
  destruct (_persist_task_memory lib task s0) as [Htasks Hjobs].
  destruct (_persist_task_rows task s0) as [Hev Hdb].
  remember (_persist_task lib task s0) as s1 eqn:Hs1. clear Hs1.
  rewrite Htasks0 in Htasks. rewrite Hjobs0 in Hjobs. rewrite Hev0 in Hev.
  rewrite Hdb0 in Hdb.
  assert (db_session_factory s1 = None /\ db_session_factory s = None \/
          exists rows rows1, db_session_factory s = Some rows /\
            db_session_factory s1 = Some rows1 /\
            List.filter (fun r => negb (String.eqb (row_id r) (task_id task))) rows1 = rows)
    as Hcases.
  { destruct (db_session_factory s) as [rows|] eqn:Hrows0; [right|by left].
    specialize (Hrows rows eq_refl).
    destruct (json_dumps lib (VDict (task_trigger_config task))) as [e|c].
    { exists rows, rows. repeat split; try done. by apply filter_other_rows. }
    destruct (json_dumps lib (VDict (task_variables task))) as [e|v].
    { exists rows, rows. repeat split; try done. by apply filter_other_rows. }
    exists rows, (upsert_row task c v rows). repeat split; try done.
    by apply filter_upsert_row. }
  unfold cancel. cbn [emit_event scheduled_tasks jobs]. rewrite Htasks, Hjobs, Hav.
  rewrite lookup_insert_eq, remove_added_job by done.
  eexists. split; [reflexivity|]. unfold _delete_persisted_task.
  cbn [emit_event set_jobs set_scheduled_tasks db_session_factory scheduled_tasks jobs events].
  try rewrite Htasks. rewrite delete_insert_id by done.
  destruct Hcases as [[Hn1 Hn]|(rows & rows1 & Hr & Hr1 & Hfilter)].
  - rewrite Hn1.
    cbn [emit_event set_jobs set_scheduled_tasks db_session_factory scheduled_tasks jobs events].
    rewrite Hn1, Hn, Hev, <- app_assoc. done.
  - rewrite Hr1.
    cbn [emit_event set_jobs set_scheduled_tasks db_session_factory scheduled_tasks jobs events].
    rewrite Hfilter, Hr, Hev, <- app_assoc. done.
Qed.

(** X17.  pause, resume and cancel return False and change nothing for an id
    that is not in scheduled_tasks. With the scheduling library present, for a
    task that is in scheduled_tasks while the job store has no job with its id
    (the library then raises JobLookupError), each of the three raises that
    error and changes nothing: the task stays in scheduled_tasks and in the
    database. *)
Theorem control_needs_task_and_job id now s :
  (scheduled_tasks s !! id = None ->
   pause lib id s = (Ret false, s) /\
   resume lib id now s = (Ret false, s) /\
   cancel lib id s = (Ret false, s)) /\
  (SCHEDULER_AVAILABLE lib = true ->
   is_Some (scheduled_tasks s !! id) ->
   get_job id (jobs s) = None ->
   pause lib id s = (Raise (lookup_error id), s) /\
   resume lib id now s = (Raise (lookup_error id), s) /\
   cancel lib id s = (Raise (lookup_error id), s)).
Proof.
  split.
  - intros Htask. unfold pause, resume, cancel. rewrite Htask.
    by destruct (SCHEDULER_AVAILABLE lib).
  - intros Hav [task Htask] Hjob.
    unfold pause, resume, cancel, pause_job, resume_job, remove_job.
    by rewrite Hav, Htask, Hjob.
Qed.

(** ** Pausing *)

Lemma pause_inv id s s1 :
  pause lib id s = (Ret true, s1) ->
  exists task j,
    SCHEDULER_AVAILABLE lib = true /\
    scheduled_tasks s !! id = Some task /\ get_job id (jobs s) = Some j /\
    s1 = emit_event "task_paused" [("task_id", VStr id)]
           (_persist_task lib (set_enabled false task)
              (set_jobs (modify_job id None (jobs s))
                 (set_scheduled_tasks (<[id := set_enabled false task]> (scheduled_tasks s))
                    s))).
Proof.
  unfold pause, pause_job. destruct (SCHEDULER_AVAILABLE lib); simpl; [|done].
  destruct (scheduled_tasks s !! id) as [task|]; [|done].
  destruct (get_job id (jobs s)) as [j|]; [|done]. intros [= <-]. by exists task, j.
Qed.

(** X18.  After pause(id) has returned True, with a database that has one row
    per id and a task whose trigger config and variables can be dumped, the
    row of the task is the only row with its id and has enabled = False;
    load_persisted_tasks after a restart therefore neither puts the task into
    scheduled_tasks nor registers a job for it. *)
Theorem paused_task_is_not_restored id now s s1 rows :
  pause lib id s = (Ret true, s1) ->
  db_session_factory s = Some rows ->
  NoDup (map row_id rows) ->
  (forall task, scheduled_tasks s !! id = Some task ->
     task_id task = id /\
     (exists c, json_dumps lib (VDict (task_trigger_config task)) = inr c) /\
     (exists v, json_dumps lib (VDict (task_variables task)) = inr v)) ->
  (exists rows1 r,
     db_session_factory s1 = Some rows1 /\ r ∈ rows1 /\ row_id r = id /\
     row_enabled r = false /\
     forall r', r' ∈ rows1 -> row_id r' = id -> r' = r) /\
  scheduled_tasks (load_persisted_tasks lib now (restart s1)) !! id = None /\
  jobs_of id (load_persisted_tasks lib now (restart s1)) = [].
Proof.
  intros Hpause Hdb Hnd Htask.
  apply pause_inv in Hpause as (task & j & Hav & Hlook & Hjob & ->).
  destruct (Htask task Hlook) as (Hid & [c Hc] & [v Hv]).
  set (s0 := set_jobs _ _).
  destruct (_persist_task_rows (set_enabled false task) s0) as [_ Hrows].
  simpl in Hrows. rewrite Hdb, Hc, Hv in Hrows.
  destruct (upsert_row_holds (set_enabled false task) c v rows Hnd)
    as (r & Hin & Hholds & Huniq).
  destruct Hholds as (Hrid & _ & _ & _ & _ & _ & Hen & _). simpl in Hrid, Hen.
  assert (id ∉ map row_id
            (filter (fun r => row_enabled r = true)
               (upsert_row (set_enabled false task) c v rows))) as Hnin.
  { intros (r' & Hid' & [Hen' Hin']%list_elem_of_filter)%list_elem_of_fmap.
    assert (r' = r) as -> by (apply Huniq; [done|simpl; congruence]). congruence. }
  split.
  - exists (upsert_row (set_enabled false task) c v rows), r. simpl.
    repeat split; try done; [congruence|]. intros r' Hin' Hid'. apply Huniq; [done|].
    simpl. congruence.
  - unfold load_persisted_tasks, restart. simpl. rewrite Hrows.
    destruct (load_rows_other now id _
                (mk_WorkflowScheduler (Some (upsert_row (set_enabled false task) c v rows))
                   ∅ [] []) Hnin) as (Htasks & _ & Hjobs).
    simpl in *. rewrite Htasks, Hjobs. done.
Qed.

(** X19.  pause sets task.enabled = False and leaves task.next_run as it was,
    while the job loses its next run time. resume then returns True and sets
    enabled = True; if the trigger has a next fire time from the current time,
    the job and task.next_run get it; if it has none, the job is removed and
    the task stays in scheduled_tasks, enabled, with its old next_run. *)
Theorem pause_then_resume id now s s1 :
  pause lib id s = (Ret true, s1) ->
  exists task j,
    scheduled_tasks s !! id = Some task /\ get_job id (jobs s) = Some j /\
    scheduled_tasks s1 !! id = Some (set_enabled false task) /\
    get_job id (jobs s1) = Some (set_job_next_run_time None j) /\
    exists s2,
      resume lib id now s1 = (Ret true, s2) /\
      match next_fire_time lib (job_trigger j) now with
      | Some t =>
          scheduled_tasks s2 !! id = Some (set_next_run (Some t) (set_enabled true task)) /\
          get_job id (jobs s2) = Some (set_job_next_run_time (Some t) j)
      | None =>
          scheduled_tasks s2 !! id = Some (set_enabled true task) /\
          get_job id (jobs s2) = None
      end.
Proof.
  intros Hpause. apply pause_inv in Hpause as (task & j & Hav & Hlook & Hjob & ->).
  exists task, j. set (s0 := set_jobs _ _).
  destruct (_persist_task_memory lib (set_enabled false task) s0) as [Htasks Hjobs].
  simpl. rewrite Htasks, Hjobs. simpl. rewrite lookup_insert_eq, get_job_modify, Hjob. simpl.
  repeat split; try done.
  unfold resume, resume_job. simpl. rewrite Hav, Htasks, Hjobs. simpl.
  rewrite lookup_insert_eq, get_job_modify, Hjob. simpl.
  destruct (next_fire_time lib (job_trigger j) now) as [t|] eqn:Hnext.
  - eexists. split; [reflexivity|]. simpl.
    match goal with |- context [_persist_task lib ?t0 ?s0] =>
      destruct (_persist_task_memory lib t0 s0) as [-> ->] end.
    simpl. rewrite lookup_insert_eq, !get_job_modify, Hjob. simpl.
    split; [by destruct task|by destruct j].
  - unfold remove_job. rewrite get_job_modify, Hjob. simpl.
    eexists. split; [reflexivity|]. simpl.
    match goal with |- context [_persist_task lib ?t0 ?s0] =>
      destruct (_persist_task_memory lib t0 s0) as [-> ->] end.
    simpl. rewrite lookup_insert_eq, !get_job_removed. by destruct task.
Qed.


(** ** Persisting, then loading *)

Lemma load_task_registers_task now db_task s config variables t :
  SCHEDULER_AVAILABLE lib = true ->
  json_loads lib (row_trigger_config db_task) = inr (VDict config) ->
  load_variables lib db_task = inr (VDict variables) ->
  expired lib (row_trigger_type db_task) config now = inr false ->
  _create_trigger lib (row_trigger_type db_task) config = inr (Some t) ->
  row_id db_task ∉ job_ids s ->
  load_task lib now db_task s
  = Loaded (mk_WorkflowScheduler (db_session_factory s)
              (<[row_id db_task :=
                   mk_ScheduledTask (row_id db_task) (row_workflow_id db_task)
                     (row_name db_task) (row_trigger_type db_task) config variables
                     (row_enabled db_task) (row_created_at db_task) (row_last_run db_task)
                     (next_fire_time lib t now) (row_run_count db_task)]>
                 (scheduled_tasks s))
              (jobs s ++ [mk_job (row_id db_task) (row_name db_task) t
                            (next_fire_time lib t now)])
              (events s)).
Proof.
  intros Hav Hcfg Hvars Hexp Htrig Hfresh. unfold load_task.
  rewrite Hcfg, Hvars. simpl. rewrite Hexp, Htrig, Hav.
  by rewrite add_job_fresh by done.
Qed.

Lemma not_elem_of_filter_ids id (P : ScheduledTaskModel -> Prop) `{forall r, Decision (P r)}
    (rows : list ScheduledTaskModel) :
  id ∉ map row_id rows -> id ∉ map row_id (filter P rows).
Proof.
  intros Hnin (r & Hid & [_ Hin]%list_elem_of_filter)%list_elem_of_fmap.
  apply Hnin. rewrite Hid. by apply list_elem_of_fmap_2.
Qed.

(** X20.  An enabled task whose trigger config and variables come back
    unchanged from json.dumps and json.loads (the text of the variables not
    being empty), persisted into a table with one row per id, is restored by
    load_persisted_tasks after a restart, provided its trigger can be built
    and its date check passes: scheduled_tasks then holds a task with the same
    id, workflow_id, name, trigger type, trigger config, variables and
    run_count, enabled, whose next_run is the next run time of the one job
    registered under its id. *)
Theorem persisted_task_round_trip task s rows c v t now :
  db_session_factory s = Some rows ->
  NoDup (map row_id rows) ->
  SCHEDULER_AVAILABLE lib = true ->
  task_enabled task = true ->
  json_dumps lib (VDict (task_trigger_config task)) = inr c ->
  json_dumps lib (VDict (task_variables task)) = inr v ->
  json_loads lib c = inr (VDict (task_trigger_config task)) ->
  json_loads lib v = inr (VDict (task_variables task)) ->
  v <> "" ->
  expired lib (task_trigger_type task) (task_trigger_config task) now = inr false ->
  _create_trigger lib (task_trigger_type task) (task_trigger_config task) = inr (Some t) ->
  exists task',
    scheduled_tasks (load_persisted_tasks lib now (restart (_persist_task lib task s)))
      !! task_id task = Some task' /\
    task_id task' = task_id task /\
    task_workflow_id task' = task_workflow_id task /\
    task_name task' = task_name task /\
    task_trigger_type task' = task_trigger_type task /\
    task_trigger_config task' = task_trigger_config task /\
    task_variables task' = task_variables task /\
    task_enabled task' = true /\
    task_run_count task' = task_run_count task /\
    task_next_run task' = next_fire_time lib t now /\
    jobs_of (task_id task) (load_persisted_tasks lib now (restart (_persist_task lib task s)))
    = [mk_job (task_id task) (task_name task) t (next_fire_time lib t now)].
Proof.
  intros Hdb Hnd Hav Hen Hc Hv Hlc Hlv Hne Hexp Htrig.
  destruct (_persist_task_rows task s) as [_ Hrows]. rewrite Hdb, Hc, Hv in Hrows.
  unfold load_persisted_tasks, restart. cbn [db_session_factory]. rewrite Hrows.
  pose proof (upsert_row_nodup task c v rows Hnd) as Hnd'.
  destruct (upsert_row_holds task c v rows Hnd) as (r & Hin & Hholds & _).
  destruct Hholds as (Hid & Hwf & Hname & Hty & Hcfg & Hvars & Henr & _ & _ & Hcount).
  apply list_elem_of_split in Hin as (pre & post & Hsplit). rewrite Hsplit in Hnd' |- *.
  rewrite map_app in Hnd'. apply NoDup_app in Hnd' as (_ & Hpre & Hpost).
  cbn [map] in Hpre, Hpost. apply NoDup_cons in Hpost as [Hpost _].
  assert (row_id r ∉ map row_id pre) as Hpre'.
  { intros Hx. apply (Hpre _ Hx). by left. }
  rewrite filter_app, filter_cons_True by congruence. rewrite fold_left_app. cbn [fold_left].
  set (s0 := mk_WorkflowScheduler (Some (pre ++ r :: post)) ∅ [] []).
  destruct (load_rows_other now (row_id r) (filter (fun r => row_enabled r = true) pre) s0
              (not_elem_of_filter_ids _ _ _ Hpre')) as (Htasks1 & Hjobs1 & Hof1).
  cbv zeta in Htasks1, Hjobs1, Hof1.
  set (s1 := fold_left _ (filter (fun r => row_enabled r = true) pre) s0) in *.
  assert (load_variables lib r = inr (VDict (task_variables task))) as Hlvars.
  { unfold load_variables. rewrite Hvars. by destruct (String.eqb_spec v ""). }
  pose proof (load_task_registers_task now r s1 (task_trigger_config task)
                (task_variables task) t Hav) as Hload.
  rewrite Hcfg, Hty in Hload.
  specialize (Hload Hlc Hlvars Hexp Htrig (Hjobs1 (not_elem_of_nil _))).
  rewrite Hload.
  match goal with |- context [fold_left _ _ ?s2] =>
    destruct (load_rows_other now (row_id r) (filter (fun r => row_enabled r = true) post) s2
                (not_elem_of_filter_ids _ _ _ Hpost)) as (Htasks2 & _ & Hof2) end.
  cbv zeta in Htasks2, Hof2. rewrite <- Hid. rewrite Htasks2, Hof2.
  cbn [scheduled_tasks]. rewrite lookup_insert_eq. eexists. split; [reflexivity|].
  cbn. repeat split; try congruence.
  unfold jobs_of in *. cbn [jobs]. rewrite List.filter_app, Hof1. simpl.
  by rewrite String.eqb_refl, Hname.
Qed.

(** ** The counts of [get_stats] *)

Lemma total_runs_insert id task task' (m : gmap string ScheduledTask) :
  m !! id = Some task -> task_run_count task' = task_run_count task ->
  map_fold (fun _ t acc => task_run_count t + acc) 0 (<[id := task']> m)
  = map_fold (fun _ t acc => task_run_count t + acc) 0 m.
Proof.
  intros Hlook Hcount.
  rewrite (map_fold_delete_L _ 0 id task m); [|intros; lia|done].
  rewrite <- (insert_delete_eq m id task').
  rewrite map_fold_insert_L; [|intros; lia|apply lookup_delete_eq].
  by rewrite Hcount.
Qed.

Lemma pause_tasks id s s1 :
  pause lib id s = (Ret true, s1) ->
  exists task,
    scheduled_tasks s !! id = Some task /\
    scheduled_tasks s1 = <[id := set_enabled false task]> (scheduled_tasks s).
Proof.
  intros Hpause. apply pause_inv in Hpause as (task & j & _ & Hlook & _ & ->).
  exists task. split; [done|]. set (s0 := set_jobs _ _).
  destruct (_persist_task_memory lib (set_enabled false task) s0) as [Htasks _].
  cbn [emit_event scheduled_tasks]. by rewrite Htasks.
Qed.

(** X21.  Pausing an enabled task changes two entries of what get_stats
    returns: enabled_tasks goes down by one and disabled_tasks up by one,
    while total_tasks, total_runs and scheduler_running are as they were;
    pausing the task once more changes nothing in it. *)
Theorem pause_moves_a_task_to_disabled id s s1 task :
  pause lib id s = (Ret true, s1) ->
  scheduled_tasks s !! id = Some task ->
  task_enabled task = true ->
  exists total enabled,
    get_stats lib s
    = stats_of total (S enabled) (total_runs s) (SCHEDULER_AVAILABLE lib) /\
    get_stats lib s1 = stats_of total enabled (total_runs s) (SCHEDULER_AVAILABLE lib) /\
    forall s2, pause lib id s1 = (Ret true, s2) -> get_stats lib s2 = get_stats lib s1.
Proof.
  intros Hpause Hlook Hen.
  destruct (pause_tasks id s s1 Hpause) as (task0 & Hlook0 & Htasks).
  rewrite Hlook in Hlook0. injection Hlook0 as <-.
  assert (filter (fun kv : string * ScheduledTask => task_enabled kv.2 = true)
            (<[id := set_enabled false task]> (scheduled_tasks s))
          = delete id (filter (fun kv : string * ScheduledTask => task_enabled kv.2 = true)
                         (scheduled_tasks s))) as Hfilter.
  { rewrite map_filter_insert_False by done. by rewrite map_filter_delete. }
  assert (filter (fun kv : string * ScheduledTask => task_enabled kv.2 = true)
            (scheduled_tasks s) !! id = Some task) as Hin.
  { by apply map_lookup_filter_Some. }
  exists (total_tasks s), (enabled_tasks s1).
  assert (total_tasks s1 = total_tasks s) as Htotal.
  { unfold total_tasks. rewrite Htasks. apply map_size_insert_Some. by eexists. }
  assert (S (enabled_tasks s1) = enabled_tasks s) as Henabled.
  { unfold enabled_tasks. rewrite Htasks, Hfilter, map_size_delete_Some by by eexists.
    assert (size (filter (fun kv : string * ScheduledTask => task_enabled kv.2 = true)
                    (scheduled_tasks s)) <> 0%nat) as Hpos; [|lia].
    apply map_size_ne_0_lookup. by exists id, task. }
  assert (total_runs s1 = total_runs s) as Hruns.
  { unfold total_runs. rewrite Htasks. by apply total_runs_insert with task. }
  split; [|split].
  - unfold get_stats. by rewrite Henabled.
  - unfold get_stats. by rewrite Htotal, Hruns.
  - intros s2 Hpause2. destruct (pause_tasks id s1 s2 Hpause2) as (task1 & Hlook1 & Htasks2).
    rewrite Htasks, lookup_insert_eq in Hlook1. injection Hlook1 as <-.
    rewrite Htasks, insert_insert_eq in Htasks2.
    unfold get_stats, total_tasks, enabled_tasks, total_runs. by rewrite Htasks2, Htasks.
Qed.

End Facts.

(** ** A scheduled run *)

Section RunFacts.
Context {W : Type}.
Variable lib : Lib.
Variable env : Engine.Env W.

(** X22.  _run_workflow for a task whose workflow the manager does not have
    emits scheduled_run_started and scheduled_run_failed with 'Workflow not
    found', and changes nothing else. When the workflow exists and the
    engine's execute() returns, run_count grows by one and last_run is set
    whether the execution completed or failed; the event emitted after
    scheduled_run_started is scheduled_run_completed with the id and the
    status of the execution, which is 'completed' or 'failed'; the entry of
    the task in scheduled_tasks, when there is one, shows the new counts, and
    the job store is as it was. *)
Theorem scheduled_run_counts_every_execution workflows task w s :
  (workflows !! task_workflow_id task = None ->
   exists s',
     _run_workflow lib env workflows task w s = Ret (mk_run_result task workflows w s' []) /\
     scheduled_tasks s' = scheduled_tasks s /\ jobs s' = jobs s /\
     db_session_factory s' = db_session_factory s /\
     events s' =
       events s ++
       [Engine.mk_event "scheduled_run_started"
          [("task_id", VStr (task_id task)); ("workflow_id", VStr (task_workflow_id task))];
        Engine.mk_event "scheduled_run_failed"
          [("task_id", VStr (task_id task)); ("error", VStr "Workflow not found")]]) /\
  (forall workflow workflow' execution w' log,
     workflows !! task_workflow_id task = Some workflow ->
     Engine.execute env workflow (Some (list_to_map (task_variables task))) w
     = Ret (workflow', execution, w', log) ->
     exists r,
       _run_workflow lib env workflows task w s = Ret r /\
       task_run_count (run_task r) = task_run_count task + 1 /\
       task_last_run (run_task r) = Some (Engine.now env w') /\
       task_enabled (run_task r) = task_enabled task /\
       run_workflows r !! task_workflow_id task = Some workflow' /\
       run_world r = w' /\ run_log r = log /\
       jobs (run_scheduler r) = jobs s /\
       (is_Some (scheduled_tasks s !! task_id task) ->
        scheduled_tasks (run_scheduler r) !! task_id task = Some (run_task r)) /\
       (Engine.exec_status execution = "completed" \/
        Engine.exec_status execution = "failed") /\
       events (run_scheduler r) =
         events s ++
         [Engine.mk_event "scheduled_run_started"
            [("task_id", VStr (task_id task)); ("workflow_id", VStr (task_workflow_id task))];
          Engine.mk_event "scheduled_run_completed"
            [("task_id", VStr (task_id task));
             ("execution_id", VStr (Engine.exec_id execution));
             ("status", VStr (Engine.exec_status execution))]]).
Proof.
  split.
  - intros Hnone. unfold _run_workflow. rewrite Hnone. eexists. split; [reflexivity|].
    simpl. by rewrite <- app_assoc.
  - intros workflow workflow' execution w' log Hwf Hrun.
    pose proof (EngineFacts.execute_status env _ _ _ _ _ _ _ Hrun) as Hstatus.
    unfold _run_workflow. rewrite Hwf, Hrun.
    change (task_id (count_run (Engine.now env w') task)) with (task_id task).
    destruct (bool_decide (is_Some (scheduled_tasks s !! task_id task))) eqn:Hheld;
      destruct (SCHEDULER_AVAILABLE lib); destruct (get_job (task_id task) (jobs s)) as [j|];
      cbn [andb]; (eexists; split; [reflexivity|]);
      cbn [run_task run_workflows run_world run_log run_scheduler];
      match goal with |- context [_persist_task lib ?t0 ?s0] =>
        destruct (_persist_task_memory lib t0 s0) as [Htasks Hjobs];
        destruct (_persist_task_rows lib t0 s0) as [Hev _] end;
      cbn [emit_event scheduled_tasks jobs events set_scheduled_tasks set_next_run count_run
             task_id task_run_count task_last_run task_enabled] in *;
      rewrite ?Htasks, ?Hjobs, ?Hev, ?lookup_insert_eq, <- ?app_assoc;
      repeat split; try done;
      intros Hsome; apply bool_decide_eq_false in Hheld; done.
Qed.

End RunFacts.

(** ** The theorems above on the examples *)

(** Persisting the nightly task again updates its row. *)
Lemma persist_task_keeps_one_row_per_id_witness :
  exists rows',
    db_session_factory (_persist_task test_lib nightly_task nightly_scheduler) = Some rows' /\
    NoDup (map row_id rows').
Proof.
  destruct (persist_task_keeps_one_row_per_id test_lib nightly_task nightly_scheduler
              (default [] (db_session_factory nightly_scheduler)))
    as (rows' & Hdb & Hnd & _).
  - vm_compute. reflexivity.
  - vm_compute. apply NoDup_singleton.
  - by exists rows'.
Defined.

(** Scheduling the nightly task and cancelling it. *)
Lemma cancel_undoes_schedule_witness :
  exists s2,
    cancel test_lib "9d1c4b7e-52a" nightly_scheduler = (Ret true, s2) /\
    scheduled_tasks s2 = ∅ /\ jobs s2 = [] /\ db_session_factory s2 = Some [].
Proof.
  destruct (cancel_undoes_schedule test_lib "wf1" "nightly" "cron"
              [("minute", VStr "0"); ("hour", VStr "6")] None test_uuid today
              empty_scheduler nightly_task nightly_scheduler)
    as (s2 & Hcancel & Htasks & Hjobs & Hdb & _).
  - vm_compute. reflexivity.
  - reflexivity.
  - intros rows [= <-]. apply not_elem_of_nil.
  - by exists s2.
Defined.

(** Cancelling the nightly task once its job is gone, and pausing a task
    that was never scheduled. *)
Lemma control_needs_task_and_job_witness :
  cancel test_lib "9d1c4b7e-52a" jobless_scheduler
  = (Raise (lookup_error "9d1c4b7e-52a"), jobless_scheduler) /\
  pause test_lib "0123456789ab" nightly_scheduler = (Ret false, nightly_scheduler).
Proof.
  split.
  - destruct (control_needs_task_and_job test_lib "9d1c4b7e-52a" today jobless_scheduler)
      as [_ H].
    destruct H as (_ & _ & H); [reflexivity|vm_compute; by eexists|reflexivity|].
    exact H.
  - destruct (control_needs_task_and_job test_lib "0123456789ab" today nightly_scheduler)
      as [H _].
    destruct H as (H & _); [vm_compute; reflexivity|].
    exact H.
Defined.

(** The nightly task is paused and the process restarts. *)
Lemma paused_task_is_not_restored_witness :
  scheduled_tasks
    (load_persisted_tasks test_lib (today + 3600)
       (restart (pause test_lib "9d1c4b7e-52a" nightly_scheduler).2))
    !! "9d1c4b7e-52a" = None.
Proof.
  destruct (paused_task_is_not_restored test_lib "9d1c4b7e-52a" (today + 3600)
              nightly_scheduler (pause test_lib "9d1c4b7e-52a" nightly_scheduler).2
              (default [] (db_session_factory nightly_scheduler)))
    as (_ & H & _).
  - vm_compute. reflexivity.
  - vm_compute. reflexivity.
  - vm_compute. apply NoDup_singleton.
  - intros task Htask. vm_compute in Htask. injection Htask as <-.
    split; [reflexivity|]. split; eexists; vm_compute; reflexivity.
  - exact H.
Defined.

(** Pausing the nightly task and resuming it an hour later. *)
Lemma pause_then_resume_witness :
  exists s2,
    resume test_lib "9d1c4b7e-52a" (today + 3600)
      (pause test_lib "9d1c4b7e-52a" nightly_scheduler).2 = (Ret true, s2).
Proof.
  destruct (pause_then_resume test_lib "9d1c4b7e-52a" (today + 3600) nightly_scheduler
              (pause test_lib "9d1c4b7e-52a" nightly_scheduler).2)
    as (task & j & _ & _ & _ & _ & s2 & Hresume & _).
  - vm_compute. reflexivity.
  - by exists s2.
Defined.

(** The nightly task is persisted and loaded an hour later. *)
Lemma persisted_task_round_trip_witness :
  exists task',
    scheduled_tasks
      (load_persisted_tasks test_lib (today + 3600)
         (restart (_persist_task test_lib nightly_task empty_scheduler)))
      !! "9d1c4b7e-52a" = Some task' /\
    task_name task' = "nightly" /\ task_next_run task' = Some (today + 3660).
Proof.
  destruct (persisted_task_round_trip test_lib nightly_task empty_scheduler []
              nightly_config_text "{}"
              (CronTrigger (VStr "0") (VStr "6") (VStr "*") (VStr "*") (VStr "*"))
              (today + 3600))
    as (task' & Hlook & _ & _ & Hname & _ & _ & _ & _ & _ & Hnext & _).
  - reflexivity.
  - apply NoDup_nil_2.
  - reflexivity.
  - reflexivity.
  - vm_compute. reflexivity.
  - vm_compute. reflexivity.
  - vm_compute. reflexivity.
  - vm_compute. reflexivity.
  - discriminate.
  - vm_compute. reflexivity.
  - vm_compute. reflexivity.
  - exists task'. split; [exact Hlook|]. split; [exact Hname|exact Hnext].
Defined.

(** The counts after pausing the nightly task. *)
Lemma pause_moves_a_task_to_disabled_witness :
  get_stats test_lib nightly_scheduler = stats_of 1 1 0 true /\
  get_stats test_lib (pause test_lib "9d1c4b7e-52a" nightly_scheduler).2
  = stats_of 1 0 0 true.
Proof.
  destruct (pause_moves_a_task_to_disabled test_lib "9d1c4b7e-52a" nightly_scheduler
              (pause test_lib "9d1c4b7e-52a" nightly_scheduler).2 nightly_task)
    as (total & enabled & Hbefore & Hafter & _).
  - vm_compute. reflexivity.
  - vm_compute. reflexivity.
  - reflexivity.
  - assert (total = 1%nat /\ enabled = 0%nat) as [-> ->].
    { assert (dict_get "total_tasks" (get_stats test_lib nightly_scheduler)
              = Some (VInt 1)) as Ht by (vm_compute; reflexivity).
      assert (dict_get "enabled_tasks" (get_stats test_lib nightly_scheduler)
              = Some (VInt 1)) as He by (vm_compute; reflexivity).
      rewrite Hbefore in Ht, He. cbn in Ht, He.
      injection Ht as Ht. injection He as He. split; lia. }
    split; [exact Hbefore|exact Hafter].
Defined.

(** The nightly run of a workflow whose second step fails. *)
Lemma scheduled_run_counts_every_execution_witness :
  match _run_workflow test_lib Engine.test_env test_workflows nightly_task Engine.w0
          nightly_scheduler with
  | Ret r =>
      task_run_count (run_task r) = 1 /\
      option_map Engine.ev_type (last (events (run_scheduler r)))
      = Some "scheduled_run_completed"
  | _ => False
  end.
Proof.
  destruct (Engine.execute Engine.test_env Engine.failing_workflow
              (Some (list_to_map (task_variables nightly_task))) Engine.w0)
    as [[[[wf' ex] w'] log]|e|] eqn:E.
  - destruct (scheduled_run_counts_every_execution test_lib Engine.test_env test_workflows
                nightly_task Engine.w0 nightly_scheduler) as (_ & H).
    destruct (H Engine.failing_workflow wf' ex w' log)
      as (r & -> & Hcount & _ & _ & _ & _ & _ & _ & _ & _ & Hev); [reflexivity|exact E|].
    split; [exact Hcount|]. rewrite Hev. by rewrite last_app.
  - vm_compute in E. discriminate E.
  - vm_compute in E. discriminate E.
Defined.

End SchedulerBehaviour.

(** * Further properties of the orchestrator *)
Module OrchestratorBehaviour.
Import Orchestrator OrchestratorFacts.

Section Facts.
Context {W : Type}.
Variable agents : agent_table W.

(** ** What [mark_completed] keeps when the ids are distinct *)

Lemma mark_first_unique task_id status l t' :
  NoDup (map sub_id l) -> t' ∈ mark_first task_id status l -> sub_id t' = task_id ->
  sub_status t' = status.
Proof.
  induction l as [|t l IH]; simpl; [by intros _ ?%elem_of_nil|].
  intros [Hhead Htail]%NoDup_cons.
  destruct (String.eqb_spec (sub_id t) task_id) as [Heq|Hne].
  - intros [->|Hin]%elem_of_cons Hid; [done|]. exfalso. apply Hhead.
    rewrite Heq, <- Hid. by apply list_elem_of_fmap_2.
  - intros [->|Hin]%elem_of_cons Hid; [done|]. by apply IH.
Qed.

Lemma mark_completed_recorded task_id result d :
  NoDup (ids d) -> task_id ∈ ids d -> recorded d ->
  recorded (mark_completed task_id result d).
Proof.
  intros Hnd Hid (Hsettled & Hpending & Hknown). split; [|split].
  - intros t' Hin Hnp. simpl in *.
    destruct (decide (sub_id t' = task_id)) as [Heq|Hne].
    + exists result. rewrite Heq, lookup_insert_eq. split; [done|].
      by apply (mark_first_unique task_id _ (subtasks d)).
    + rewrite lookup_insert_ne by done.
      apply elem_of_mark_first in Hin as [Hin|[? _]]; [by apply Hsettled|done].
  - intros t' Hin Hp. simpl in *.
    destruct (decide (sub_id t' = task_id)) as [Heq|Hne].
    + exfalso. pose proof (mark_first_unique task_id _ (subtasks d) t' Hnd Hin Heq) as Hst.
      rewrite Hp in Hst. by destruct (ar_success result).
    + rewrite lookup_insert_ne by done.
      apply elem_of_mark_first in Hin as [Hin|[? _]]; [by apply Hpending|done].
  - intros k. simpl. unfold ids. simpl. rewrite mark_first_ids.
    destruct (decide (k = task_id)) as [->|Hne]; [done|].
    rewrite lookup_insert_ne by done. apply Hknown.
Qed.

Lemma record_results_recorded results : forall d context,
  NoDup (ids d) -> (forall k, k ∈ map fst results -> k ∈ ids d) -> recorded d ->
  recorded (record_results results d context).1.
Proof.
  induction results as [|[task_id result] results IH]; intros d context Hnd Hkeys Hrec;
    simpl; [done|].
  apply IH.
  - unfold ids. simpl. by rewrite mark_first_ids.
  - intros k Hk. unfold ids. simpl. rewrite mark_first_ids. apply Hkeys. by right.
  - apply mark_completed_recorded; [done| |done]. apply Hkeys. by left.
Qed.

Lemma fresh_recorded d : fresh d -> recorded d.
Proof.
  intros [Hp He]. split; [|split].
  - intros t Hin Hnp. by rewrite (Hp t Hin) in Hnp.
  - intros t _ _. by rewrite He.
  - intros k. rewrite He, lookup_empty. by intros [? ?].
Qed.

Lemma settled_finished_recorded d : settled_by_result d -> finished_recorded d.
Proof. intros Hs t Hin Hnp. destruct (Hs t Hin Hnp) as (r & -> & _). by eexists. Qed.

(** ** The results of a wave *)

Lemma completed_bound d :
  NoDup (ids d) -> recorded_known d -> (size (completed d) <= length (subtasks d))%nat.
Proof.
  intros Hnd Hknown. rewrite <- size_dom.
  replace (length (subtasks d)) with (size (list_to_set (ids d) : gset string)).
  - apply subseteq_size. intros k Hk%elem_of_dom. apply elem_of_list_to_set. by apply Hknown.
  - rewrite size_list_to_set by done. unfold ids. by rewrite length_map.
Qed.

(** One step of the loop on a ready set that is not empty. *)
Lemma wave_progress d context w t0 ready0 :
  NoDup (ids d) -> recorded d -> get_ready_tasks d = t0 :: ready0 ->
  let d1 := (record_results (_execute_subtasks agents (t0 :: ready0) context w).1.1
               d context).1 in
  ids d1 = ids d /\ dependencies d1 = dependencies d /\ recorded d1 /\
  (size (completed d) < size (completed d1))%nat /\
  (forall k, is_Some (completed d1 !! k) <->
             is_Some (completed d !! k) \/ k ∈ map sub_id (t0 :: ready0)).
Proof.
  intros Hnd Hrec Hready.
  destruct (_execute_subtasks_spec agents (t0 :: ready0) context w) as [Hkeys _].
  destruct (_execute_subtasks agents (t0 :: ready0) context w) as [[results w1] logw].
  cbn [fst snd] in *.
  assert (forall k, k ∈ map fst results -> k ∈ ids d) as Hin.
  { intros k Hk. apply Hkeys, list_elem_of_fmap in Hk as (t & -> & Ht).
    rewrite <- Hready in Ht. apply elem_of_get_ready_tasks in Ht as [Ht _].
    by apply list_elem_of_fmap_2. }
  pose proof (record_results_recorded results d context Hnd Hin Hrec) as Hrec1.
  pose proof (record_results_spec results d context) as Hspec. cbv zeta in Hspec.
  destruct Hspec as (Hdeps & Hids & Hcomp).
  destruct (record_results results d context) as [d1 context1]. cbn [fst snd] in *.
  split; [exact Hids|]. split; [exact Hdeps|]. split; [exact Hrec1|]. split.
  - rewrite <- !size_dom. apply subset_size. split.
    + intros k Hk%elem_of_dom. apply elem_of_dom, Hcomp. by left.
    + intros Hsub. assert (sub_id t0 ∈ dom (completed d)) as Hk.
      { apply Hsub, elem_of_dom, Hcomp. right. apply Hkeys. by left. }
      apply elem_of_dom in Hk. destruct Hrec as (_ & Hpending & _).
      assert (t0 ∈ get_ready_tasks d) as Ht0 by (rewrite Hready; by left).
      apply elem_of_get_ready_tasks in Ht0 as (Ht0 & Hp & _).
      rewrite (Hpending t0 Ht0 Hp) in Hk. by destruct Hk.
  - intros k. rewrite Hcomp. by rewrite Hkeys.
Qed.

Lemma run_loop_step n d context w log t0 ready0 :
  get_ready_tasks d = t0 :: ready0 ->
  run_loop agents (S n) d context w log =
  run_loop agents n
    (record_results (_execute_subtasks agents (t0 :: ready0) context w).1.1 d context).1
    (record_results (_execute_subtasks agents (t0 :: ready0) context w).1.1 d context).2
    (_execute_subtasks agents (t0 :: ready0) context w).1.2
    (log ++ Wave (t0 :: ready0) (completed d)
         :: (_execute_subtasks agents (t0 :: ready0) context w).2).
Proof.
  intros Hready. cbn [run_loop]. rewrite Hready.
  destruct (_execute_subtasks agents (t0 :: ready0) context w) as [[results w1] logw].
  cbn [fst snd]. by destruct (record_results results d context) as [d1 context1].
Qed.

Lemma run_loop_stop n d context w log :
  get_ready_tasks d = [] -> (run_loop agents n d context w log).1.1.1 = d.
Proof.
  intros Hready. destruct n as [|n]; simpl; [done|]. rewrite Hready.
  by destruct (Nat.eqb _ _).
Qed.

(** ** Every subtask is finished *)

Lemma run_loop_finishes n : forall d context w log,
  NoDup (ids d) -> recorded d -> closed d -> acyclic d ->
  (length (subtasks d) - size (completed d) <= n)%nat ->
  let d' := (run_loop agents n d context w log).1.1.1 in
  ids d' = ids d /\ dependencies d' = dependencies d /\ recorded d' /\
  forall t, t ∈ subtasks d' -> sub_status t <> "pending".
Proof.
  induction n as [|n IH]; intros d context w log Hnd Hrec Hclosed Hacyclic Hle.
  - simpl. split; [done|]. split; [done|]. split; [done|].
    destruct Hrec as (Hsettled & Hpending & Hknown).
    pose proof (completed_bound d Hnd Hknown) as Hbound.
    assert (dom (completed d) = list_to_set (ids d)) as Hdom.
    { apply set_subseteq_size_eq.
      - intros k Hk%elem_of_dom. apply elem_of_list_to_set. by apply Hknown.
      - rewrite size_dom, size_list_to_set by done. unfold ids. rewrite length_map. lia. }
    intros t Hin Hp. specialize (Hpending t Hin Hp).
    assert (sub_id t ∈ dom (completed d)) as Hk.
    { rewrite Hdom. apply elem_of_list_to_set. by apply list_elem_of_fmap_2. }
    apply elem_of_dom in Hk. rewrite Hpending in Hk. by destruct Hk.
  - destruct (get_ready_tasks d) as [|t0 ready0] eqn:Hready.
    + cbv zeta. rewrite run_loop_stop by done. split; [done|]. split; [done|].
      split; [done|]. intros t Hin Hp.
      apply (pending_implies_ready d); eauto.
      apply settled_finished_recorded, Hrec.
    + cbv zeta. rewrite (run_loop_step n d context w log t0 ready0 Hready).
      destruct (wave_progress d context w t0 ready0 Hnd Hrec Hready)
        as (Hids & Hdeps & Hrec1 & Hsize & _).
      set (d1 := (record_results _ d context).1) in *.
      destruct (IH d1 (record_results (_execute_subtasks agents (t0 :: ready0) context w).1.1
                         d context).2
                  (_execute_subtasks agents (t0 :: ready0) context w).1.2
                  (log ++ Wave (t0 :: ready0) (completed d)
                       :: (_execute_subtasks agents (t0 :: ready0) context w).2))
        as (Hids' & Hdeps' & Hrec' & Hdone).
      * by rewrite Hids.
      * done.
      * intros id dep. unfold deps_of. rewrite Hids, Hdeps. apply Hclosed.
      * destruct Hacyclic as [rank Hrank]. exists rank. intros id dep.
        unfold deps_of. rewrite Hids, Hdeps. apply Hrank.
      * assert (length (subtasks d1) = length (subtasks d)) as ->.
        { unfold ids in Hids. by rewrite <- (length_map sub_id), Hids, length_map. }
        lia.
      * split; [by rewrite Hids', Hids|]. split; [by rewrite Hdeps', Hdeps|]. done.
Qed.

(** X23.  For a decomposition as _decompose_task builds it, with distinct
    subtask ids, every dependency naming a subtask, no cycle among the
    dependencies, and max_steps at least the number of subtasks, the loop of
    execute() ends with every subtask in completed: each subtask has status
    'completed' or 'failed' according to the success flag of its result in
    completed, and len(completed) equals len(subtasks). *)
Theorem loop_finishes_every_subtask max_steps d context w :
  fresh d -> NoDup (ids d) -> closed d -> acyclic d ->
  Z.of_nat (length (subtasks d)) <= max_steps ->
  let d' := (execute_subtasks_loop agents max_steps d context w).1.1.1 in
  ids d' = ids d /\
  size (completed d') = length (subtasks d') /\
  forall t, t ∈ subtasks d' ->
    exists result,
      completed d' !! sub_id t = Some result /\
      sub_status t = if ar_success result then "completed" else "failed".
Proof.
  intros Hfresh Hnd Hclosed Hacyclic Hle. unfold execute_subtasks_loop.
  destruct (run_loop_finishes (Z.to_nat max_steps) d context w [] Hnd
              (fresh_recorded d Hfresh) Hclosed Hacyclic) as (Hids & _ & Hrec & Hdone); [lia|].
  set (d' := (run_loop agents (Z.to_nat max_steps) d context w []).1.1.1) in *.
  destruct Hrec as (Hsettled & Hpending & Hknown).
  split; [done|]. split.
  - assert (NoDup (ids d')) as Hnd' by by rewrite Hids.
    pose proof (completed_bound d' Hnd' Hknown) as Hbound.
    assert (list_to_set (ids d') ⊆ dom (completed d')) as Hsub.
    { intros k (t & -> & Ht)%elem_of_list_to_set%list_elem_of_fmap.
      destruct (Hsettled t Ht (Hdone t Ht)) as (r & Hr & _). apply elem_of_dom. by eexists. }
    apply subseteq_size in Hsub. rewrite size_dom, size_list_to_set in Hsub by done.
    unfold ids in Hsub. rewrite length_map in Hsub. lia.
  - intros t Ht. by apply Hsettled, Hdone.
Qed.

(** ** No subtask is dispatched twice *)

Lemma dispatched_app log log' : dispatched (log ++ log') = dispatched log ++ dispatched log'.
Proof. unfold dispatched. by rewrite flat_map_app. Qed.

Lemma dispatched_no_wave log :
  Forall (fun a => is_wave a = false /\ is_blocked a = false) log -> dispatched log = [].
Proof.
  induction 1 as [|a log [Ha _] _ IH]; simpl; [done|]. rewrite IH. by destruct a.
Qed.

Lemma ready_ids_nodup d : NoDup (ids d) -> NoDup (map sub_id (get_ready_tasks d)).
Proof.
  unfold ids, get_ready_tasks. induction (subtasks d) as [|t l IH]; simpl; [done|].
  intros [Hhead Htail]%NoDup_cons. destruct (_ && _); simpl; [|by apply IH].
  apply NoDup_cons. split; [|by apply IH].
  intros (u & Hid & [Hu _]%list_elem_of_In%filter_In)%list_elem_of_fmap.
  apply Hhead. rewrite Hid. apply list_elem_of_fmap_2. by apply list_elem_of_In.
Qed.

Lemma run_loop_dispatched n : forall d context w log,
  NoDup (ids d) -> recorded d ->
  NoDup (dispatched log) ->
  (forall id, id ∈ dispatched log <-> is_Some (completed d !! id)) ->
  let r := run_loop agents n d context w log in
  ids r.1.1.1 = ids d /\ recorded r.1.1.1 /\
  NoDup (dispatched r.2) /\
  (forall id, id ∈ dispatched r.2 <-> is_Some (completed r.1.1.1 !! id)).
Proof.
  induction n as [|n IH]; intros d context w log Hnd Hrec Hlog Hdone; [done|].
  destruct (get_ready_tasks d) as [|t0 ready0] eqn:Hready.
  - simpl. rewrite Hready. destruct (Nat.eqb _ _); simpl; [done|].
    rewrite dispatched_app. simpl. by rewrite app_nil_r.
  - cbv zeta. rewrite (run_loop_step n d context w log t0 ready0 Hready).
    destruct (wave_progress d context w t0 ready0 Hnd Hrec Hready)
      as (Hids & Hdeps & Hrec1 & _ & Hcomp).
    destruct (_execute_subtasks_spec agents (t0 :: ready0) context w) as [_ Hlogw].
    apply dispatched_no_wave in Hlogw.
    assert (dispatched (log ++ Wave (t0 :: ready0) (completed d)
                            :: (_execute_subtasks agents (t0 :: ready0) context w).2)
            = dispatched log ++ map sub_id (t0 :: ready0)) as Hd.
    { rewrite dispatched_app. cbn [dispatched flat_map].
      fold (dispatched (_execute_subtasks agents (t0 :: ready0) context w).2).
      by rewrite Hlogw, app_nil_r. }
    rewrite <- Hids. apply IH.
    + by rewrite Hids.
    + done.
    + rewrite Hd. apply NoDup_app. split; [done|]. split.
      * intros id Hid (t & -> & Ht)%list_elem_of_fmap. rewrite <- Hready in Ht.
        apply elem_of_get_ready_tasks in Ht as (Ht & Hp & _).
        destruct Hrec as (_ & Hpending & _). apply Hdone in Hid.
        rewrite (Hpending t Ht Hp) in Hid. by destruct Hid.
      * rewrite <- Hready. by apply ready_ids_nodup.
    + intros id. rewrite Hd, elem_of_app, Hcomp, Hdone. done.
Qed.

(** X24.  Starting from a decomposition with distinct subtask ids, all pending
    and nothing completed, the loop dispatches no subtask id twice, neither in
    two waves nor in one; the ids it has dispatched are exactly the keys of
    completed at the end, and all of them are ids of subtasks. *)
Theorem no_subtask_is_dispatched_twice max_steps d context w :
  fresh d -> NoDup (ids d) ->
  let r := execute_subtasks_loop agents max_steps d context w in
  NoDup (dispatched r.2) /\
  (forall id, id ∈ dispatched r.2 <-> is_Some (completed r.1.1.1 !! id)) /\
  (forall id, id ∈ dispatched r.2 -> id ∈ ids d).
Proof.
  intros Hfresh Hnd. unfold execute_subtasks_loop.
  destruct (run_loop_dispatched (Z.to_nat max_steps) d context w [] Hnd
              (fresh_recorded d Hfresh)) as (Hids & Hrec & Hnodup & Hiff).
  - constructor.
  - intros id. destruct Hfresh as [_ ->]. rewrite lookup_empty. split.
    + by intros ?%elem_of_nil.
    + by intros [? ?].
  - cbv zeta. split; [done|]. split; [done|]. intros id Hid%Hiff.
    rewrite <- Hids. by apply Hrec.
Qed.

(** ** The results in the context *)

Lemma result_key_inj id id' : "result_" +:+ id = "result_" +:+ id' -> id = id'.
Proof. intros [= H]. exact H. Qed.

Lemma record_results_context results : forall d context,
  results_in_context d context ->
  results_in_context (record_results results d context).1
    (record_results results d context).2.
Proof.
  induction results as [|[task_id result] results IH]; intros d context Hinv;
    cbn [record_results]; [done|].
  apply IH. intros id r. cbn [mark_completed completed].
  destruct (decide (id = task_id)) as [->|Hne].
  - rewrite !lookup_insert_eq. by intros [= ->].
  - rewrite !lookup_insert_ne; [apply Hinv| |done].
    intros Heq. apply result_key_inj in Heq. congruence.
Qed.

Lemma run_loop_context n : forall d context w log,
  results_in_context d context ->
  let r := run_loop agents n d context w log in
  results_in_context r.1.1.1 r.1.1.2.
Proof.
  induction n as [|n IH]; intros d context w log Hinv; [done|].
  destruct (get_ready_tasks d) as [|t0 ready0] eqn:Hready.
  - simpl. rewrite Hready. by destruct (Nat.eqb _ _).
  - cbv zeta. rewrite (run_loop_step n d context w log t0 ready0 Hready).
    apply IH. by apply record_results_context.
Qed.

(** X25.  Starting with an empty completed table, after the loop every result
    in completed is in the context: for each id in completed,
    context['result_<id>'] is the output of completed[id]. *)
Theorem results_reach_the_context max_steps d context w id result :
  completed d = ∅ ->
  let r := execute_subtasks_loop agents max_steps d context w in
  completed r.1.1.1 !! id = Some result ->
  r.1.1.2 !! ("result_" +:+ id) = Some (VStr (ar_output result)).
Proof.
  intros Hempty r. apply (run_loop_context (Z.to_nat max_steps) d context w []).
  intros id' r'. by rewrite Hempty, lookup_empty.
Qed.

(** ** Building the decomposition *)

(** X26.  The decomposition that add_subtask builds from a list of entries has
    the ids of the entries in their order, every subtask pending and nothing
    completed; an id that no entry has has no dependencies, and the
    dependencies of an id are those of the last entry with this id. *)
Theorem build_keeps_the_entries task entries :
  ids (build task entries) = map (fun e => e.1.1.1) entries /\
  fresh (build task entries) /\
  (forall id, id ∉ map (fun e => e.1.1.1) entries -> deps_of (build task entries) id = []) /\
  (forall pre id description agent deps post,
     entries = pre ++ (id, description, agent, deps) :: post ->
     id ∉ map (fun e => e.1.1.1) post ->
     deps_of (build task entries) id = deps).
Proof.
  unfold build.
  assert (forall d,
            let d' := fold_left
                        (fun d '(task_id, description, agent, deps) =>
                           add_subtask task_id description agent (Some deps) d) entries d in
            ids d' = ids d ++ map (fun e => e.1.1.1) entries /\
            (forall id, id ∉ map (fun e => e.1.1.1) entries -> deps_of d' id = deps_of d id) /\
            (forall pre id description agent deps post,
               entries = pre ++ (id, description, agent, deps) :: post ->
               id ∉ map (fun e => e.1.1.1) post ->
               deps_of d' id = deps)) as Hfold.
  { induction entries as [|[[[task_id description] agent] deps] entries IH]; intros d.
    - simpl. rewrite app_nil_r. repeat split; try done.
      intros pre id description agent deps post Heq. by destruct pre.
    - cbn [fold_left].
      destruct (IH (add_subtask task_id description agent (Some deps) d))
        as (Hids & Hother & Hlast).
      cbv zeta. split; [|split].
      + rewrite Hids. unfold ids. simpl. by rewrite map_app, <- app_assoc.
      + intros id [Hne Hnin]%not_elem_of_cons. rewrite Hother by done.
        unfold deps_of. simpl. by rewrite lookup_insert_ne.
      + intros pre id description' agent' deps' post Heq Hnin.
        destruct pre as [|e pre]; simpl in Heq.
        * injection Heq as Hi Hd Ha Hde Hp. subst. rewrite Hother by done.
          unfold deps_of. simpl. by rewrite lookup_insert_eq.
        * injection Heq as He Hp. subst. by eapply Hlast. }
  destruct (Hfold (new_decomposition task)) as (Hids & Hother & Hlast).
  split; [done|]. split; [apply build_fresh|]. split; [|done].
  intros id Hnin. by rewrite Hother.
Qed.

End Facts.

(** ** The theorems above on the examples *)

Lemma diamond_ids_nodup : NoDup (ids diamond).
Proof.
  change (NoDup ["A"; "B"; "C"]).
  repeat (constructor; [rewrite ?elem_of_cons, elem_of_nil; intros H; intuition discriminate|]).
  constructor.
Qed.

(** Every subtask of [diamond] gets a result. *)
Lemma loop_finishes_every_subtask_witness :
  let d' := (execute_subtasks_loop test_agents 15 diamond ∅ 0%nat).1.1.1 in
  ids d' = ["A"; "B"; "C"] /\ size (completed d') = length (subtasks d').
Proof.
  destruct (loop_finishes_every_subtask test_agents 15 diamond ∅ 0%nat)
    as (Hids & Hsize & _).
  - apply build_fresh.
  - apply diamond_ids_nodup.
  - intros id dep Hid Hdep. by apply diamond_closed_acyclic with id.
  - exists diamond_rank. intros id dep Hid Hdep. by apply diamond_closed_acyclic.
  - vm_compute. discriminate.
  - split; [exact Hids|exact Hsize].
Defined.

(** No subtask of [diamond] is dispatched twice. *)
Lemma no_subtask_is_dispatched_twice_witness :
  NoDup (dispatched (execute_subtasks_loop test_agents 15 diamond ∅ 0%nat).2).
Proof.
  destruct (no_subtask_is_dispatched_twice test_agents 15 diamond ∅ 0%nat) as (H & _).
  - apply build_fresh.
  - apply diamond_ids_nodup.
  - exact H.
Defined.

(** The output of C in the context after the loop. *)
Lemma results_reach_the_context_witness :
  (execute_subtasks_loop test_agents 15 diamond ∅ 0%nat).1.1.2 !! "result_C"
  = Some (VStr "analyse").
Proof.
  apply (results_reach_the_context test_agents 15 diamond ∅ 0%nat "C"
           (mk_AgentResult true "analyse" [] None)).
  - reflexivity.
  - vm_compute. reflexivity.
Defined.

End OrchestratorBehaviour.

(** * Properties of the workflow manager *)
Module ManagerFacts.
Import EngineBehaviour.

Import Engine Manager.

(** ** Versions *)

Lemma split_dot_cons s : exists p ps, split_dot s = p :: ps.
Proof.
  induction s as [|c s (p & ps & IH)]; simpl; [by eexists _, _|].
  destruct (Ascii.eqb c "."); [by eexists _, _|]. rewrite IH. by eexists _, _.
Qed.

Lemma join_dot_cons c p ps : join_dot (String c p :: ps) = String c (join_dot (p :: ps)).
Proof. by destruct ps. Qed.

(** Joining what [split] gave is the identity. *)
Lemma join_split_dot s : join_dot (split_dot s) = s.
Proof.
  induction s as [|c s IH]; [done|]. cbn [split_dot].
  destruct (split_dot_cons s) as (p & ps & Hs). rewrite Hs in IH |- *.
  destruct (Ascii.eqb_spec c ".") as [->|_].
  - change (join_dot ("" :: p :: ps)) with ("" +:+ "." +:+ join_dot (p :: ps)).
    by rewrite IH.
  - by rewrite join_dot_cons, IH.
Qed.

Section Facts.
Context {W : Type}.
Variable lib : Lib W.

(** X27.  _increment_version returns the version unchanged when it does not
    consist of exactly two parts separated by a dot; for 'major.minor' it
    returns 'major.' followed by str(int(minor) + 1), and raises what
    int(minor) raises. *)
Theorem increment_version_bumps_the_minor version :
  (length (split_dot version) <> 2%nat -> _increment_version lib version = inr version) /\
  (forall major minor,
     version = major +:+ "." +:+ minor -> dot_free major = true -> dot_free minor = true ->
     _increment_version lib version
     = match py_int lib minor with
       | inr n => inr (major +:+ "." +:+ py_str lib (n + 1))
       | inl e => inl e
       end).
Proof.
  split.
  - intros Hlen. unfold _increment_version.
    pose proof (join_split_dot version) as Hjoin.
    destruct (split_dot version) as [|a [|b [|c parts]]]; try by rewrite Hjoin.
    by destruct Hlen.
  - intros major minor -> Hmajor Hminor. unfold _increment_version.
    rewrite split_dot_app, split_dot_dot_free by done. unfold bind.
    by destruct (py_int lib minor).
Qed.

(** ** Documents *)

Lemma sources_of_strings (inputs : list (string * string)) :
  sources_of (map (fun '(k, source) => (k, VStr source)) inputs) = Some inputs.
Proof. induction inputs as [|[k v] l IH]; simpl; [done|]. by rewrite IH. Qed.

Lemma strings_of_strings (l : list string) : strings_of (map VStr l) = Some l.
Proof. induction l as [|s l IH]; simpl; [done|]. by rewrite IH. Qed.

Lemma dicts_of_dicts (l : list dict) : dicts_of (map VDict l) = Some l.
Proof. induction l as [|d l IH]; simpl; [done|]. by rewrite IH. Qed.

Lemma step_type_of_value t : step_type_of (VStr (StepType_value t)) = inr t.
Proof. by destruct t. Qed.

Lemma step_of_dict_to_dict step : step_of_dict lib (step_to_dict step) = inr (reset_run step).
Proof.
  unfold step_of_dict, step_to_dict. cbn [as_dict bind subscript dict_get String.eqb Ascii.eqb
    Bool.eqb dict_get_default].
  rewrite step_type_of_value. cbn [bind]. unfold new_WorkflowStep.
  cbn [validate_str validate_config validate_inputs validate_int field bind].
  rewrite sources_of_strings. cbn [bind]. unfold reset_run.
  by destruct (step_condition step).
Qed.

Lemma each_step_of_dict steps :
  each (step_of_dict lib) (map step_to_dict steps) = inr (map reset_run steps).
Proof.
  induction steps as [|s steps IH]; [done|]. cbn [map each].
  rewrite step_of_dict_to_dict. cbn [bind]. by rewrite IH.
Qed.

(** X28.  _dict_to_workflow(_workflow_to_dict(w)), for a workflow w whose two
    dates come back unchanged from isoformat and fromisoformat, is w with
    every step put back to a step that has not run (status PENDING, no result,
    no error, no times): the fields of the workflow, its dates, and the id,
    name, type, config, inputs, condition, on_error, max_retries and timeout
    of every step are kept. *)
Theorem stored_document_keeps_the_definition sw t :
  fromisoformat lib (VStr (isoformat lib (sw_created_at sw))) = inr (sw_created_at sw) ->
  fromisoformat lib (VStr (isoformat lib (sw_updated_at sw))) = inr (sw_updated_at sw) ->
  isoformat lib (sw_created_at sw) <> "" ->
  isoformat lib (sw_updated_at sw) <> "" ->
  _dict_to_workflow lib (_workflow_to_dict lib sw) t
  = inr (set_workflow (set_steps (map reset_run (wf_steps (sw_workflow sw))) (sw_workflow sw))
           sw) /\
  Forall2 same_definition (wf_steps (sw_workflow sw)) (map reset_run (wf_steps (sw_workflow sw))) /\
  Forall (fun s => step_status s = PENDING /\ step_result s = None /\ step_error s = None)
    (map reset_run (wf_steps (sw_workflow sw))).
Proof.
  intros Hcreated Hupdated Hc Hu. split; [|split].
  - unfold _dict_to_workflow, _workflow_to_dict, date_of.
    cbn [dict_get_default dict_get String.eqb Ascii.eqb Bool.eqb iterate py_iter bind
           subscript truthy].
    rewrite each_step_of_dict. cbn [bind].
    destruct (String.eqb_spec (isoformat lib (sw_created_at sw)) "") as [|_]; [done|].
    destruct (String.eqb_spec (isoformat lib (sw_updated_at sw)) "") as [|_]; [done|].
    cbn [negb]. rewrite Hcreated, Hupdated. cbn [bind]. unfold new_Workflow.
    cbn [validate_str validate_config validate_triggers validate_tags validate_date field
           bind fst snd].
    rewrite dicts_of_dicts, strings_of_strings. cbn [bind default].
    rewrite list_to_map_to_list. by destruct sw as [[] ? ? ? ?].
  - induction (wf_steps (sw_workflow sw)) as [|s l IH]; constructor; [|done].
    by repeat split.
  - induction (wf_steps (sw_workflow sw)) as [|s l IH]; constructor; done.
Qed.

(** ** Steps built from entries *)

Lemma new_WorkflowStep_fields id name type config inputs condition on_error step :
  new_WorkflowStep lib id name type config inputs condition on_error None None = inr step ->
  step_max_retries step = 3 /\ step_timeout step = 300 /\ step_status step = PENDING /\
  step_type step = type /\
  (condition = None -> step_condition step = None) /\
  (on_error = None -> step_on_error step = "fail").
Proof.
  unfold new_WorkflowStep, bind, field.
  destruct (validate_str lib id); [done|]. destruct (validate_str lib name); [done|].
  destruct (validate_config lib config); [done|].
  destruct (validate_inputs lib inputs); [done|].
  destruct condition as [c|]; destruct on_error as [o|];
    repeat match goal with
           | |- context [match ?x with inl _ => _ | inr _ => _ end] => destruct x; [done|]
           end;
    intros [= <-]; by repeat split.
Qed.

Lemma steps_of_entries_update entries : forall w steps w',
  steps_of_entries lib update_policy entries w = (inr steps, w') ->
  length steps = length entries /\ Forall default_policy steps.
Proof.
  induction entries as [|s entries IH]; intros w steps w'; cbn [steps_of_entries].
  { intros [= <- <-]. by split. }
  unfold step_of_entry. destruct (as_dict "AttributeError" s) as [e|d]; [done|].
  destruct (uuid4 lib w) as [uuid w1].
  destruct (subscript "name" d) as [e|name]; [done|]. cbn [bind].
  destruct (subscript "type" d) as [e|type]; [done|]. cbn [bind].
  destruct (step_type_of type) as [e|ty]; [done|]. cbn [bind].
  destruct (new_WorkflowStep lib _ name ty _ _ _ _ None None) as [e|step] eqn:Hstep; [done|].
  destruct (steps_of_entries lib update_policy entries w1) as [[e|rest] w2] eqn:Hrest;
    [done|].
  cbn [bind]. intros [= <- <-].
  destruct (IH _ _ _ Hrest) as [Hlen Hall].
  apply new_WorkflowStep_fields in Hstep as (Hmax & Hto & Hst & _ & Hcond & Hpol).
  split; [simpl; lia|]. constructor; [|done].
  unfold default_policy. by rewrite Hcond, Hpol.
Qed.

(** ** [update] *)

(** X29.  update() of a workflow that the table holds never returns None. When
    it returns the workflow, the table holds it, its version is
    _increment_version of the old one, updated_at is the current time without
    a zone, the name and the variables are replaced only by arguments that are
    not empty, and the steps are kept for an empty steps argument and
    otherwise built anew from the entries, one step per entry, with condition
    None, on_error 'fail', max_retries 3 and timeout 300 whatever the entries
    say. When it raises, the table still holds the workflow, with the name
    already replaced. *)
Theorem update_rebuilds_steps_and_bumps_version workflow_id name description steps variables
    w m sw :
  workflows m !! workflow_id = Some sw ->
  match update lib workflow_id name description steps variables w m with
  | (Ret (Some sw'), w', m') =>
      workflows m' !! workflow_id = Some sw' /\
      _increment_version lib (wf_version (sw_workflow sw))
      = inr (wf_version (sw_workflow sw')) /\
      sw_updated_at sw' = (now lib w', false) /\
      wf_name (sw_workflow sw')
      = (if truthy (opt_str name) then default "" name else wf_name (sw_workflow sw)) /\
      wf_variables (sw_workflow sw')
      = (if truthy (VDict (default [] variables)) then list_to_map (default [] variables)
         else wf_variables (sw_workflow sw)) /\
      (if truthy (VList (default [] steps))
       then length (wf_steps (sw_workflow sw')) = length (default [] steps) /\
            Forall default_policy (wf_steps (sw_workflow sw'))
       else wf_steps (sw_workflow sw') = wf_steps (sw_workflow sw))
  | (Ret None, _, _) => False
  | (Raise e, _, m') =>
      exists sw', workflows m' !! workflow_id = Some sw' /\
        wf_name (sw_workflow sw')
        = (if truthy (opt_str name) then default "" name else wf_name (sw_workflow sw))
  | (Hang, _, _) => False
  end.
Proof.
  intros Hlook. unfold update. rewrite Hlook.
  set (wf1 := if truthy (opt_str name) then _ else _).
  set (wf2 := if truthy (opt_str description) then _ else _).
  set (wf3 := if truthy (VDict (default [] variables)) then _ else _).
  assert (wf_name wf3 = (if truthy (opt_str name) then default "" name
                         else wf_name (sw_workflow sw)) /\
          wf_version wf3 = wf_version (sw_workflow sw) /\
          wf_steps wf3 = wf_steps (sw_workflow sw) /\
          wf_variables wf3 = (if truthy (VDict (default [] variables))
                              then list_to_map (default [] variables)
                              else wf_variables (sw_workflow sw)))
    as (Hname & Hversion & Hsteps & Hvars).
  { subst wf1 wf2 wf3.
    destruct (truthy (opt_str name)), (truthy (opt_str description)),
      (truthy (VDict (default [] variables))); done. }
  clearbody wf3. clear wf1 wf2.
  destruct (truthy (VList (default [] steps))) eqn:Hgiven.
  - destruct (steps_of_entries lib update_policy (default [] steps) w)
      as [[e|steps'] w1] eqn:Hparse.
    { eexists. cbn. rewrite lookup_insert_eq. split; [reflexivity|exact Hname]. }
    apply steps_of_entries_update in Hparse as [Hlen Hall].
    cbn [set_steps wf_version]. rewrite Hversion.
    destruct (_increment_version lib (wf_version (sw_workflow sw))) as [e|version].
    { eexists. cbn. rewrite lookup_insert_eq. split; [reflexivity|exact Hname]. }
    unfold _save. destruct (dump_error lib _) as [e|].
    + eexists. cbn. rewrite lookup_insert_eq. split; [reflexivity|exact Hname].
    + cbn. rewrite lookup_insert_eq. by repeat split.
  - cbn [set_steps wf_version]. rewrite Hversion.
    destruct (_increment_version lib (wf_version (sw_workflow sw))) as [e|version].
    { eexists. cbn. rewrite lookup_insert_eq. split; [reflexivity|exact Hname]. }
    unfold _save. destruct (dump_error lib _) as [e|].
    + eexists. cbn. rewrite lookup_insert_eq. split; [reflexivity|exact Hname].
    + cbn. rewrite lookup_insert_eq. by repeat split.
Qed.

(** ** Templates *)

Lemma steps_of_template_entries steps : forall w,
  steps_of_entries lib create_policy (map template_entry steps) w
  = (inr (map copied_step steps), draw lib (length steps) w).
Proof.
  induction steps as [|s steps IH]; intros w; [done|].
  cbn [map steps_of_entries length draw]. unfold step_of_entry, template_entry at 1.
  cbn [as_dict]. destruct (uuid4 lib w) as [uuid w1]. cbn [snd].
  cbn [subscript dict_get String.eqb Ascii.eqb Bool.eqb bind dict_get_default create_policy
         fst snd].
  rewrite step_type_of_value. cbn [bind]. unfold new_WorkflowStep.
  cbn [validate_str validate_config validate_inputs validate_condition field bind].
  rewrite sources_of_strings. cbn [bind]. rewrite IH. done.
Qed.

Lemma lookup_list_to_map_dict k (d : dict) :
  (list_to_map d : gmap string value) !! k = dict_get k d.
Proof.
  induction d as [|[k' v] d IH]; simpl; [done|].
  destruct (String.eqb_spec k k') as [->|Hne].
  - by rewrite lookup_insert_eq.
  - by rewrite lookup_insert_ne.
Qed.

Lemma dict_get_In k v (d : dict) : dict_get k d = Some v -> In (k, v) d.
Proof.
  induction d as [|[k' v'] d IH]; simpl; [done|].
  destruct (String.eqb_spec k k') as [->|Hne]; [intros [= ->]; by left|]. right. by apply IH.
Qed.

Lemma dict_get_None k (d : dict) : dict_get k d = None -> ~ In k (map fst d).
Proof.
  induction d as [|[k' v'] d IH]; simpl; [tauto|].
  destruct (String.eqb_spec k k') as [->|Hne]; [done|]. intros Hnone [?|?]; [congruence|].
  by apply IH.
Qed.

(** X30.  create_from_template on a template that exists never returns None.
    The workflow it returns has one step per step of the template, with the
    same id, name, type, config and inputs but condition None, on_error
    'fail', max_retries 3 and timeout 300; it has a new id of 12 characters,
    version '1.0', the description and the tags of the template, and the
    variables of the template overridden by the given ones; it is in the
    workflow table, and the templates are as they were. When it raises, the
    workflow is in the table all the same and its file is left without a valid
    document. *)
Theorem template_copy_resets_step_policies template_id name variables w m template :
  templates m !! template_id = Some template ->
  List.NoDup (map fst (default [] variables)) ->
  match create_from_template lib template_id name variables w m with
  | (Ret (Some sw'), w', m') =>
      wf_steps (sw_workflow sw') = map copied_step (wf_steps (sw_workflow template)) /\
      wf_id (sw_workflow sw') = String.substring 0 12 (uuid4 lib w).1 /\
      wf_version (sw_workflow sw') = "1.0" /\
      wf_description (sw_workflow sw') = wf_description (sw_workflow template) /\
      wf_tags (sw_workflow sw') = wf_tags (sw_workflow template) /\
      (forall k,
         wf_variables (sw_workflow sw') !! k
         = match dict_get k (default [] variables) with
           | Some v => Some v
           | None => wf_variables (sw_workflow template) !! k
           end) /\
      workflows m' !! wf_id (sw_workflow sw') = Some sw' /\
      templates m' = templates m /\
      w' = draw lib (S (length (wf_steps (sw_workflow template)))) w
  | (Ret None, _, _) => False
  | (Raise e, _, m') =>
      is_Some (workflows m' !! String.substring 0 12 (uuid4 lib w).1) /\
      files m' !! (String.substring 0 12 (uuid4 lib w).1 +:+ ".json") = Some None
  | (Hang, _, _) => False
  end.
Proof.
  intros Htemplate Hnd. unfold create_from_template, create. rewrite Htemplate.
  cbn [draw]. destruct (uuid4 lib w) as [uuid w1]. cbn [fst snd default from_option id].
  rewrite steps_of_template_entries. unfold new_Workflow.
  cbn [validate_str validate_config validate_tags field bind].
  rewrite strings_of_strings. cbn [bind default]. unfold _save.
  destruct (dump_error lib _) as [e|]; cbn.
  - rewrite !lookup_insert_eq. split; [by eexists|done].
  - rewrite lookup_insert_eq. repeat split; try done.
    intros k. rewrite lookup_list_to_map_dict.
    destruct (dict_get k (default [] variables)) as [v|] eqn:Hk.
    + apply dict_get_merge_in; [done|]. by apply dict_get_In.
    + rewrite dict_get_merge_other by by apply dict_get_None.
      by rewrite <- lookup_list_to_map_dict, list_to_map_to_list.
Qed.

End Facts.

(** ** The theorems above on the examples *)

(** The version after 1.9 is 1.10; a version of three parts stays. *)
Lemma increment_version_bumps_the_minor_witness :
  _increment_version test_lib "1.9" = inr "1.10" /\
  _increment_version test_lib "1.2.3" = inr "1.2.3".
Proof.
  split.
  - destruct (increment_version_bumps_the_minor test_lib "1.9") as [_ H].
    rewrite (H "1" "9"); reflexivity.
  - destruct (increment_version_bumps_the_minor test_lib "1.2.3") as [H _].
    apply H. vm_compute. discriminate.
Defined.

(** The document of [stored_example], read back. *)
Lemma stored_document_keeps_the_definition_witness :
  match _dict_to_workflow test_lib (_workflow_to_dict test_lib stored_example) 0 with
  | inr sw => map step_status (wf_steps (sw_workflow sw)) = [PENDING] /\
              map step_condition (wf_steps (sw_workflow sw)) = [Some "ready"]
  | inl _ => False
  end.
Proof.
  destruct (stored_document_keeps_the_definition test_lib stored_example 0) as (-> & _);
    [reflexivity|reflexivity|discriminate|discriminate|].
  split; reflexivity.
Defined.

(** [wf1] is renamed and given one step. *)
Lemma update_rebuilds_steps_and_bumps_version_witness :
  match update test_lib "wf1" (Some "renamed") (Some "") (Some [guarded_entry]) None 0%nat
          example_manager with
  | (Ret (Some sw'), _, _) =>
      wf_name (sw_workflow sw') = "renamed" /\
      Forall default_policy (wf_steps (sw_workflow sw')) /\
      _increment_version test_lib "1.9" = inr (wf_version (sw_workflow sw'))
  | _ => False
  end.
Proof.
  pose proof (update_rebuilds_steps_and_bumps_version test_lib "wf1" (Some "renamed")
                (Some "") (Some [guarded_entry]) None 0%nat example_manager stored_example
                eq_refl) as H.
  destruct (update test_lib "wf1" (Some "renamed") (Some "") (Some [guarded_entry]) None
              0%nat example_manager) as [[[[sw'|]|e|] w'] m'] eqn:E.
  - destruct H as (_ & Hversion & _ & Hname & _ & Hsteps).
    split; [exact Hname|]. split; [exact (proj2 Hsteps)|exact Hversion].
  - exact H.
  - vm_compute in E. discriminate E.
  - exact H.
Defined.

(** A workflow made from the template [tpl]. *)
Lemma template_copy_resets_step_policies_witness :
  match create_from_template test_lib "tpl" "copy" (Some [("seed", VInt 9)]) 0%nat
          example_manager with
  | (Ret (Some sw'), _, _) =>
      map step_on_error (wf_steps (sw_workflow sw')) = ["fail"] /\
      map step_condition (wf_steps (sw_workflow sw')) = [None] /\
      wf_variables (sw_workflow sw') !! "seed" = Some (VInt 9)
  | _ => False
  end.
Proof.
  pose proof (template_copy_resets_step_policies test_lib "tpl" "copy"
                (Some [("seed", VInt 9)]) 0%nat example_manager stored_example eq_refl) as H.
  destruct (create_from_template test_lib "tpl" "copy" (Some [("seed", VInt 9)]) 0%nat
              example_manager) as [[[[sw'|]|e|] w'] m'] eqn:E.
  - destruct H as (Hsteps & _ & _ & _ & _ & Hvars & _).
    + constructor; [simpl; tauto|constructor].
    + rewrite Hsteps, Hvars. repeat split.
  - apply H. constructor; [simpl; tauto|constructor].
  - vm_compute in E. discriminate E.
  - apply H. constructor; [simpl; tauto|constructor].
Defined.

End ManagerFacts.
